(** * Telegram finance bot: the extraction pipeline of [main.py]

    A shallow embedding of the parts of [main.py] that carry the
    algorithmic content of the bot (amount normaliser, local fallback
    parser, AI extractor with its fallback, multi-line splitter, category
    summariser, conversation handlers, delete-all), and the properties
    proved about them.

    Conventions of the model.
    - A Python [str] is a [list ascii].  The model is exact on ASCII text:
      characters above 127 are carried through unchanged and are neither
      digits, nor letters, nor white space.
    - A Python [float] is an exact rational ([Qc]): rounding, overflow
      and the non-finite values are outside the model.
    - A calendar date is its proleptic Gregorian ordinal ([Z]), as
      returned by [date.toordinal()]; the text produced by
      [strftime("%Y-%m-%d")] is kept symbolic ([VDate]).
    - Python values that are stored in dictionaries are [pyval]s; a
      dictionary built by the code is an association list in insertion
      order, the per-user context [context.user_data] is a [gmap].
    - Logging, [print], sleeping and message sending have no effect on the
      values studied here and are left out. *)

From Stdlib Require Import ZArith QArith Qcanon Ascii String List Lia Sorting.Sorted.
From Stdlib Require Import DecimalString DecimalPos DecimalN.
From stdpp Require Import gmap strings list sorting.

Set Warnings "-register-all".
Local Open Scope Z_scope.

(** ** Characters and strings *)

(** The texts of this development are ASCII texts: strings of eight-bit
    characters, of which the codes below 128 are read as Python reads
    them.  On text beyond ASCII Python's [\d] and [float] take more
    digits, [\s] and [strip] more white space and [lower] more letters
    than the definitions below; theorems whose conclusion depends on
    this carry the hypothesis [ascii_text]. *)
Definition str := list ascii.

(** String literals of the source are written [L "..."]. *)
Definition L (s : string) : str := list_ascii_of_string s.

Definition code (a : ascii) : N := N_of_ascii a.

(** [\d], and a digit for [float], among the ASCII characters. *)
Definition is_digit (a : ascii) : bool :=
  ((48 <=? code a) && (code a <=? 57))%N.

(** [str.isspace] on one ASCII character, also what [\s] matches. *)
Definition is_space (a : ascii) : bool :=
  (((9 <=? code a) && (code a <=? 13)) || ((28 <=? code a) && (code a <=? 32)))%N.

Definition is_upper (a : ascii) : bool :=
  ((65 <=? code a) && (code a <=? 90))%N.

Definition lower_ascii (a : ascii) : ascii :=
  if is_upper a then ascii_of_N (code a + 32) else a.

Definition eqb_ascii (a b : ascii) : bool := Ascii.eqb a b.

(** [s.lower()] for an ASCII text *)
Definition py_lower (s : str) : str := map lower_ascii s.

Fixpoint lstrip (s : str) : str :=
  match s with
  | a :: s' => if is_space a then lstrip s' else s
  | [] => []
  end.

Definition rstrip (s : str) : str := rev (lstrip (rev s)).

(** [s.strip()] for an ASCII text *)
Definition py_strip (s : str) : str := rstrip (lstrip s).

Fixpoint starts_with (p s : str) : bool :=
  match p, s with
  | [], _ => true
  | a :: p', b :: s' => eqb_ascii a b && starts_with p' s'
  | _ :: _, [] => false
  end.

(** [sub in s] *)
Fixpoint py_in (sub s : str) : bool :=
  starts_with sub s ||
  match s with
  | [] => false
  | _ :: s' => py_in sub s'
  end.

(** [s.count(c)] for a one-character [c] *)
Definition py_count (c : ascii) (s : str) : nat :=
  length (List.filter (fun a => eqb_ascii a c) s).

(** [s.replace(c, d)] for one-character [c] and a string [d] *)
Definition replace_char (c : ascii) (d : str) (s : str) : str :=
  flat_map (fun a => if eqb_ascii a c then d else [a]) s.

Definition str_eqb (s t : str) : bool := bool_decide (s = t).

(** ** Regular expressions of the [re] module

    The patterns of the source are regular expressions with one capture
    group.  [mt] is a backtracking matcher in continuation-passing style
    with the priorities of [re]: the left alternative first, greedy
    repetition. *)

Inductive regex : Type :=
| Eps
| Chr (p : ascii -> bool)
| Cat (r1 r2 : regex)
| Alt (r1 r2 : regex)
| Star (r : regex)
| Grp (r : regex).

Section Matcher.
Context {R : Type}.

(** A continuation receives the rest of the input and group 1. *)
Definition kont : Type := str -> option str -> option R.

(** Greedy iteration of [body]; an iteration that consumes nothing ends
    the loop, so [length s] rounds always suffice. *)
Fixpoint star_loop (body : str -> option str -> kont -> option R) (k : kont)
    (n : nat) (s : str) (c : option str) : option R :=
  match n with
  | O => k s c
  | S n' =>
      match body s c (fun s' c' =>
               if (length s' <? length s)%nat
               then star_loop body k n' s' c' else None) with
      | Some x => Some x
      | None => k s c
      end
  end.

Fixpoint mt (r : regex) (s : str) (c : option str) (k : kont) : option R :=
  match r with
  | Eps => k s c
  | Chr p =>
      match s with
      | a :: s' => if p a then k s' c else None
      | [] => None
      end
  | Cat r1 r2 => mt r1 s c (fun s' c' => mt r2 s' c' k)
  | Alt r1 r2 =>
      match mt r1 s c k with
      | Some x => Some x
      | None => mt r2 s c k
      end
  | Star r' => star_loop (mt r') k (length s) s c
  | Grp r' =>
      mt r' s c (fun s' _ => k s' (Some (take (length s - length s') s)))
  end.
End Matcher.

(** [re.search(r, s)]: the first position at which [r] matches; the
    result is group 1 together with the text after the match. *)
Fixpoint re_search (r : regex) (s : str) : option (option str * str) :=
  match mt r s None (fun rest c => Some (c, rest)) with
  | Some m => Some m
  | None =>
      match s with
      | [] => None
      | _ :: s' => re_search r s'
      end
  end.

(** [re.sub(r, '', s)]: every match, from left to right, is deleted. *)
Fixpoint re_sub_del (r : regex) (n : nat) (s : str) : str :=
  match n with
  | O => s
  | S n' =>
      let keep :=
        match s with
        | [] => []
        | a :: s' => a :: re_sub_del r n' s'
        end in
      match mt r s None (fun rest _ => Some rest) with
      | Some rest =>
          if (length rest <? length s)%nat then re_sub_del r n' rest else keep
      | None => keep
      end
  end.

Definition re_sub (r : regex) (s : str) : str := re_sub_del r (length s) s.

Definition plus (r : regex) : regex := Cat r (Star r).
Definition opt (r : regex) : regex := Alt r Eps.

(** A literal word; with [ci] the comparison ignores case
    ([re.IGNORECASE], the words of the patterns are lower case). *)
Fixpoint lit_of (ci : bool) (w : str) : regex :=
  match w with
  | [] => Eps
  | a :: w' =>
      Cat (Chr (fun b => eqb_ascii (if ci then lower_ascii b else b) a))
          (lit_of ci w')
  end.

Definition lit (w : string) : regex := lit_of false (L w).
Definition lit_ci (w : string) : regex := lit_of true (L w).

Definition is_sep (a : ascii) : bool := eqb_ascii a "." || eqb_ascii a ",".

Definition re_d : regex := Chr is_digit.
Definition re_s : regex := Chr is_space.
Definition re_sep : regex := Chr is_sep.

(** [\d+(?:[.,]\d+)?] *)
Definition re_number : regex := Cat (plus re_d) (opt (Cat re_sep (plus re_d))).

(** [(\d+(?:[.,]\d+)?)\s*(?:juta|jt)] *)
Definition pat_juta : regex :=
  Cat (Grp re_number) (Cat (Star re_s) (Alt (lit "juta") (lit "jt"))).

(** [(\d+(?:[.,]\d+)?)\s*(?:ribu|rb|k)] *)
Definition pat_ribu : regex :=
  Cat (Grp re_number)
      (Cat (Star re_s) (Alt (lit "ribu") (Alt (lit "rb") (lit "k")))).

(** [(\d{1,3}(?:[.,]\d{3})+)] *)
Definition pat_grouped : regex :=
  Grp (Cat (Cat re_d (opt (Cat re_d (opt re_d))))
           (plus (Cat re_sep (Cat re_d (Cat re_d re_d))))).

(** [(\d+)] *)
Definition pat_int : regex := Grp (plus re_d).

(** [\d+(?:[.,]\d+)?\s*(?:juta|jt|ribu|rb|k)?] with [re.IGNORECASE] *)
Definition pat_amount_text : regex :=
  Cat re_number
      (Cat (Star re_s)
           (opt (Alt (lit_ci "juta")
                (Alt (lit_ci "jt")
                (Alt (lit_ci "ribu") (Alt (lit_ci "rb") (lit_ci "k"))))))).

(** [rp\.?\s*] with [re.IGNORECASE] *)
Definition pat_rp : regex :=
  Cat (lit_ci "rp") (Cat (opt (Chr (fun a => eqb_ascii a "."))) (Star re_s)).

(** ** Numbers *)

Fixpoint span (p : ascii -> bool) (s : str) : str * str :=
  match s with
  | a :: s' =>
      if p a then let '(u, v) := span p s' in (a :: u, v) else ([], s)
  | [] => ([], [])
  end.

Definition digit_val (a : ascii) : Z := Z.of_N (code a) - 48.

(** The value of a string of decimal digits. *)
Definition digits_value (ds : str) : Z :=
  fold_left (fun acc a => acc * 10 + digit_val a) ds 0.

(** [m * 10^e] as an exact rational. *)
Definition scale10 (m e : Z) : Qc :=
  if 0 <=? e then Q2Qc (Qmake (m * 10 ^ e) 1)
  else Q2Qc (Qmake m (Z.to_pos (10 ^ (- e)))).

Definition split_sign (s : str) : bool * str :=
  match s with
  | a :: t =>
      if eqb_ascii a "-" then (true, t)
      else if eqb_ascii a "+" then (false, t) else (false, s)
  | [] => (false, [])
  end.

(** The exponent part of a float literal: nothing, or [e] with an
    optionally signed non-empty string of digits up to the end. *)
Definition parse_exponent (s : str) : option Z :=
  match s with
  | [] => Some 0
  | a :: t =>
      if eqb_ascii (lower_ascii a) "e" then
        let '(neg, t1) := split_sign t in
        let '(ds, t2) := span is_digit t1 in
        match ds, t2 with
        | _ :: _, [] => Some (if neg then - digits_value ds else digits_value ds)
        | _, _ => None
        end
      else None
  end.

(** [float(s)] for a string: surrounding white space, a sign, decimal
    digits with at most one point, an exponent.  [None] stands for
    [ValueError].  (Digit-group underscores and the words [inf] and [nan]
    are not covered.)  The value is the exact value of the numeral; it
    is the float of Python when a float holds it exactly ([binary64]);
    otherwise Python rounds it to the nearest float. *)
Definition py_float (s : str) : option Qc :=
  let '(neg, s0) := split_sign (py_strip s) in
  let '(ip, s1) := span is_digit s0 in
  let '(fp, s2) :=
    match s1 with
    | a :: t => if eqb_ascii a "." then span is_digit t else ([], s1)
    | [] => ([], [])
    end in
  match ip ++ fp with
  | [] => None
  | _ :: _ =>
      match parse_exponent s2 with
      | Some e =>
          let m := digits_value (ip ++ fp) in
          Some (scale10 (if neg then - m else m) (e - Z.of_nat (length fp)))
      | None => None
      end
  end.

(** ** The amount normaliser *)

Definition patterns : list (regex * Qc) :=
  [ (pat_juta, Q2Qc 1000000); (pat_ribu, Q2Qc 1000);
    (pat_grouped, Q2Qc 1); (pat_int, Q2Qc 1) ].

(** The normalisation of the decimal separators of the matched text. *)
Definition normalize_separators (num_str : str) : str :=
  if py_in (L ".") num_str && (1 <? py_count "." num_str)%nat then
    replace_char "." [] num_str
  else if py_in (L ",") num_str && (1 <? py_count "," num_str)%nat then
    replace_char "," [] num_str
  else if py_in (L ".") num_str || py_in (L ",") num_str then
    replace_char "," (L ".") num_str
  else num_str.

(** The loop over [patterns]: a pattern that does not match, or whose
    text is refused by [float] ([ValueError]), gives way to the next.
    The product is the exact one, which the product of floats is when
    a float holds it exactly ([binary64]). *)
Fixpoint try_patterns (ps : list (regex * Qc)) (text : str) : option Qc :=
  match ps with
  | [] => None
  | (pattern, multiplier) :: ps' =>
      match re_search pattern text with
      | Some (Some num_str, _) =>
          match py_float (normalize_separators num_str) with
          | Some f => Some (f * multiplier)%Qc
          | None => try_patterns ps' text
          end
      | _ => try_patterns ps' text
      end
  end.

Definition parse_indonesian_amount (text : str) : option Qc :=
  try_patterns patterns (py_strip (py_lower text)).

(** ** Python values and dictionaries *)

Inductive pyval : Type :=
| VNone
| VBool (b : bool)
| VNum (q : Qc)
| VStr (s : str)
| VDate (d : Z)
| VList (l : list pyval)
| VDict (d : list (string * pyval)).

(** A dictionary in insertion order, without repeated keys. *)
Definition dict : Type := list (string * pyval).

Fixpoint dict_lookup (k : string) (d : dict) : option pyval :=
  match d with
  | [] => None
  | (k', v) :: d' => if String.eqb k k' then Some v else dict_lookup k d'
  end.

(** [d.get(k)] *)
Definition dict_get (k : string) (d : dict) : pyval :=
  match dict_lookup k d with
  | Some v => v
  | None => VNone
  end.

(** [d.get(k, default)] *)
Definition dict_get_default (k : string) (default : pyval) (d : dict) : pyval :=
  match dict_lookup k d with
  | Some v => v
  | None => default
  end.

(** [d[k] = v] *)
Fixpoint dict_set (k : string) (v : pyval) (d : dict) : dict :=
  match d with
  | [] => [(k, v)]
  | (k', v') :: d' =>
      if String.eqb k k' then (k, v) :: d' else (k', v') :: dict_set k v d'
  end.

(** [d.pop(k, None)] *)
Fixpoint dict_pop (k : string) (d : dict) : dict :=
  match d with
  | [] => []
  | (k', v') :: d' =>
      if String.eqb k k' then d' else (k', v') :: dict_pop k d'
  end.

(** The truth value of a Python object. *)
Definition truthy (v : pyval) : bool :=
  match v with
  | VNone => false
  | VBool b => b
  | VNum q => negb (Qc_eq_bool q (Q2Qc 0))
  | VStr s => match s with [] => false | _ => true end
  | VDate _ => true
  | VList l => match l with [] => false | _ => true end
  | VDict d => match d with [] => false | _ => true end
  end.

Definition is_none (v : pyval) : bool :=
  match v with
  | VNone => true
  | _ => false
  end.

(** [v == w] for a value and a string *)
Definition eq_str (v : pyval) (w : string) : bool :=
  match v with
  | VStr s => str_eqb s (L w)
  | _ => false
  end.

Definition val_of_amount (a : option Qc) : pyval :=
  match a with
  | Some q => VNum q
  | None => VNone
  end.

Definition Qc_abs (q : Qc) : Qc := if Qclt_le_dec q (Q2Qc 0) then (- q)%Qc else q.

(** ** The local fallback parser *)

Definition income_keywords : list string :=
  [ "terima"; "dapat"; "pemasukan"; "masuk"; "diterima";
    "gaji"; "bonus"; "komisi"; "dividen"; "bunga"; "hadiah";
    "warisan"; "penjualan"; "refund"; "kembalian"; "cashback";
    "dibayar oleh"; "transfer dari"; "kiriman dari"; "diberi"; "dikasih" ]%string.

Definition expense_keywords : list string :=
  [ "beli"; "bayar"; "belanja"; "pengeluaran"; "keluar"; "dibayar";
    "membeli"; "memesan"; "berlangganan"; "sewa"; "booking";
    "makanan"; "transportasi"; "bensin"; "pulsa"; "tagihan"; "biaya"; "iuran";
    "transfer ke"; "kirim ke"; "buat"; "untuk" ]%string.

Definition category_map : list (string * list string) :=
  [ ("makanan", ["makan"; "food"; "resto"; "warung"; "cafe"; "kopi"; "snack"; "jajan"]);
    ("transportasi", ["bensin"; "parkir"; "tol"; "ojek"; "grab"; "gojek"; "taxi"; "bus"; "kereta"]);
    ("belanja", ["belanja"; "beli"; "shopping"; "toko"; "mart"; "alfamart"; "indomaret"]);
    ("tagihan", ["tagihan"; "listrik"; "air"; "pdam"; "internet"; "wifi"; "pulsa"; "paket data"]);
    ("kesehatan", ["obat"; "dokter"; "rumah sakit"; "klinik"; "apotek"; "vitamin"]);
    ("hiburan", ["film"; "bioskop"; "game"; "streaming"; "netflix"; "spotify"]);
    ("pendidikan", ["buku"; "kursus"; "les"; "sekolah"; "kuliah"; "spp"]);
    ("iuran", ["iuran"; "arisan"; "sumbangan"; "donasi"; "zakat"; "infaq"]);
    ("gaji", ["gaji"; "salary"; "upah"]);
    ("bonus", ["bonus"; "thr"; "insentif"]) ]%string.

(** [any(kw in text for kw in kws)] *)
Definition any_in (kws : list string) (text : str) : bool :=
  existsb (fun kw => py_in (L kw) text) kws.

Definition is_lower (a : ascii) : bool :=
  ((97 <=? code a) && (code a <=? 122))%N.

Definition upper_ascii (a : ascii) : ascii :=
  if is_lower a then ascii_of_N (code a - 32) else a.

(** [s.capitalize()] *)
Definition py_capitalize (s : str) : str :=
  match s with
  | [] => []
  | a :: s' => upper_ascii a :: py_lower s'
  end.

(** The loop over [category_map]: the first category with a cue word. *)
Fixpoint find_category (cm : list (string * list string)) (text_lower : str) : str :=
  match cm with
  | [] => L "Lainnya"
  | (cat, keywords) :: cm' =>
      if any_in keywords text_lower then py_capitalize (L cat)
      else find_category cm' text_lower
  end.

(** The income or expense decision of [parse_transaction_locally]. *)
Definition classify (text_lower : str) : string :=
  let is_income := any_in income_keywords text_lower in
  let is_expense := any_in expense_keywords text_lower in
  if is_income && negb is_expense then "income" else "expense".

(** [current_date] is the ordinal of the day [datetime.now()] falls on. *)
Definition parse_transaction_locally (current_date : Z) (text : str) : dict :=
  let text_lower := py_lower text in
  let amount := parse_indonesian_amount text in
  let transaction_type := classify text_lower in
  let category := find_category category_map text_lower in
  let date :=
    if py_in (L "kemarin") text_lower || py_in (L "yesterday") text_lower
    then current_date - 1
    else if py_in (L "besok") text_lower || py_in (L "tomorrow") text_lower
    then current_date + 1
    else current_date in
  let amount_str := parse_indonesian_amount text in
  let description :=
    if truthy (val_of_amount amount_str) then
      let description := py_strip (re_sub pat_rp (re_sub pat_amount_text text)) in
      if truthy (VStr description) then description else text
    else text in
  let amount :=
    if truthy (val_of_amount amount) && String.eqb transaction_type "expense"
    then option_map (fun a => (- Qc_abs a)%Qc) amount
    else if truthy (val_of_amount amount) then option_map Qc_abs amount
    else amount in
  [ ("amount", val_of_amount amount);
    ("description",
      VStr (if truthy (VStr description) then py_strip description else text));
    ("transaction_type", VStr (L transaction_type));
    ("category", VStr category);
    ("date", VDate date) ]%string.

(** ** Exceptions

    [exn] ranges over the instances of Python's [Exception] that the code
    can meet; [Raise e] is a computation that raised [e]. *)

Inductive exn : Type :=
| ValueError
| TypeError
| AttributeError
| IndexError
| JSONDecodeError
| ServiceError (message : str).

Inductive result (A : Type) : Type :=
| Ok (a : A)
| Raise (e : exn).
Arguments Ok {A} a.
Arguments Raise {A} e.

Definition bind {A B : Type} (m : result A) (f : A -> result B) : result B :=
  match m with
  | Ok a => f a
  | Raise e => Raise e
  end.

Notation "'let*' x ':=' m 'in' f" := (bind m (fun x => f))
  (at level 10, x name, m at level 100, f at level 200).

(** ** The retry wrapper

    [generate_func] is the call to the completion service: its [n]-th
    call returns a response or raises.  [response.text] can itself raise,
    so a response is a [result str]. *)

Definition response : Type := result str.

Definition raise_last {A : Type} (last_exception : option exn) : result A :=
  match last_exception with
  | Some e => Raise e
  | None => Raise TypeError
  end.

(** The [for attempt in range(max_retries + 1)] loop, [rounds] iterations
    from [attempt] on.  The kind of the error only chooses the delay. *)
Fixpoint retry_loop (generate_func : nat -> result response) (max_retries : nat)
    (rounds attempt : nat) (last_exception : option exn) : result response :=
  match rounds with
  | O => raise_last last_exception
  | S rounds' =>
      match generate_func attempt with
      | Ok r => Ok r
      | Raise e =>
          if (attempt <? max_retries)%nat
          then retry_loop generate_func max_retries rounds' (S attempt) (Some e)
          else Raise e
      end
  end.

Definition call_gemini_with_retry (generate_func : nat -> result response)
    (max_retries : nat) : result response :=
  retry_loop generate_func max_retries (S max_retries) 0 None.

(** ** JSON values *)

Inductive json : Type :=
| JNull
| JBool (b : bool)
| JNum (q : Qc)
| JStr (s : str)
| JArr (l : list json)
| JObj (o : list (string * json)).

(** The Python object [json.loads] builds; a repeated key keeps its last
    value. *)
Fixpoint of_json (j : json) : pyval :=
  match j with
  | JNull => VNone
  | JBool b => VBool b
  | JNum q => VNum q
  | JStr s => VStr s
  | JArr l => VList (map of_json l)
  | JObj o =>
      VDict (fold_left (fun d kv => dict_set (fst kv) (of_json (snd kv)) d) o [])
  end.

(** ** More string operations *)

(** [s.split(sep)] for a non-empty [sep]; [skip] counts the characters of
    a separator that are still to be passed over. *)
Fixpoint py_split_go (sep : str) (skip : nat) (cur : str) (s : str) : list str :=
  match s with
  | [] => [rev cur]
  | a :: s' =>
      match skip with
      | S k => py_split_go sep k cur s'
      | O =>
          if starts_with sep s
          then rev cur :: py_split_go sep (length sep - 1) [] s'
          else py_split_go sep 0 (a :: cur) s'
      end
  end.

Definition py_split (sep : str) (s : str) : list str := py_split_go sep 0 [] s.

(** [l[i]] *)
Definition index {A : Type} (l : list A) (i : nat) : result A :=
  match l !! i with
  | Some x => Ok x
  | None => Raise IndexError
  end.

(** ** The AI transaction extractor *)

(** [v.get] exists on dictionaries only. *)
Definition as_dict (v : pyval) : result dict :=
  match v with
  | VDict d => Ok d
  | _ => Raise AttributeError
  end.

(** [v.lower()] exists on strings only. *)
Definition lower_of (v : pyval) : result str :=
  match v with
  | VStr s => Ok (py_lower s)
  | _ => Raise AttributeError
  end.

(** [float(v)] *)
Definition float_of (v : pyval) : result Qc :=
  match v with
  | VNum q => Ok q
  | VBool b => Ok (if b then Q2Qc 1 else Q2Qc 0)
  | VStr s =>
      match py_float s with
      | Some q => Ok q
      | None => Raise ValueError
      end
  | VDate _ => Raise ValueError
  | VNone | VList _ | VDict _ => Raise TypeError
  end.

(** The fenced or bare JSON text of a reply. *)
Definition extract_json (response_text : str) : result str :=
  if py_in (L "```json") response_text then
    let* after := index (py_split (L "```json") response_text) 1 in
    let* inside := index (py_split (L "```") after) 0 in
    Ok (py_strip inside)
  else if py_in (L "```") response_text then
    let* inside := index (py_split (L "```") response_text) 1 in
    Ok (py_strip inside)
  else Ok (py_strip response_text).

(** [date.weekday()]: Monday is 0. *)
Definition weekday (d : Z) : Z := (d + 6) mod 7.

Definition day_names : list (string * Z) :=
  [ ("senin", 0); ("monday", 0);
    ("selasa", 1); ("tuesday", 1);
    ("rabu", 2); ("wednesday", 2);
    ("kamis", 3); ("thursday", 3);
    ("jumat", 4); ("friday", 4);
    ("sabtu", 5); ("saturday", 5);
    ("minggu", 6); ("sunday", 6) ]%string.

(** The first chain of tests on the time context: the date it sets, if
    any.  In the [N days ago] branch a failure of the search, of the
    conversion or of the date arithmetic is swallowed ([except: pass]). *)
Definition relative_day (current_date : Z) (time_context : str) : option Z :=
  if any_in ["kemarin"; "yesterday"]%string time_context then
    Some (current_date - 1)
  else if any_in ["besok"; "tomorrow"]%string time_context then
    Some (current_date + 1)
  else if any_in ["lusa"; "day after tomorrow"]%string time_context then
    Some (current_date + 2)
  else if py_in (L "hari yang lalu") time_context
          || py_in (L "days ago") time_context then
    match re_search pat_int time_context with
    | Some (Some ds, _) =>
        let days_ago := digits_value ds in
        if (days_ago <=? 999999999) && (1 <=? current_date - days_ago)
        then Some (current_date - days_ago) else None
    | _ => None
    end
  else if py_in (L "minggu lalu") time_context
          || py_in (L "last week") time_context then
    Some (current_date - 7)
  else None.

(** The loop over [day_names]: the date given by the first weekday name
    that occurs in the time context, if any. *)
Fixpoint named_day (names : list (string * Z)) (current_date : Z)
    (time_context : str) : option Z :=
  match names with
  | [] => None
  | (day_name, day_num) :: names' =>
      if py_in (L day_name) time_context then
        let days_diff := (weekday current_date - day_num) mod 7 in
        let days_diff :=
          if (days_diff =? 0)
             && (py_in (L "lalu") time_context || py_in (L "last") time_context)
          then 7 else days_diff in
        if py_in (L "depan") time_context || py_in (L "next") time_context then
          let days_diff := (day_num - weekday current_date) mod 7 in
          let days_diff := if days_diff =? 0 then 7 else days_diff in
          Some (current_date + days_diff)
        else Some (current_date - days_diff)
      else named_day names' current_date time_context
  end.

(** The body of [if not data.get('date') and data.get('time_context')],
    once the time context is lower-cased: the chain of relative days may
    set [data['date']], then the weekday loop may set it again. *)
Definition resolve_time_context (current_date : Z) (time_context : str)
    (data : dict) : dict :=
  let data :=
    match relative_day current_date time_context with
    | Some d => dict_set "date" (VDate d) data
    | None => data
    end in
  match named_day day_names current_date time_context with
  | Some d => dict_set "date" (VDate d) data
  | None => data
  end.

(** The date of [data]: resolved from the time context when the reply
    has no date, today when there is still none. *)
Definition resolve_date (current_date : Z) (data : dict) : result dict :=
  let* data :=
    if negb (truthy (dict_get "date" data))
       && truthy (dict_get "time_context" data) then
      let* time_context := lower_of (dict_get "time_context" data) in
      Ok (resolve_time_context current_date time_context data)
    else Ok data in
  if negb (truthy (dict_get "date" data))
  then Ok (dict_set "date" (VDate current_date) data) else Ok data.

(** The amount of [data]: signed by the type when the reply has one,
    taken from the local result otherwise. *)
Definition reconcile_amount (local_result data : dict) : result dict :=
  if negb (is_none (dict_get "amount" data)) then
    let* f := float_of (dict_get "amount" data) in
    let amount := Qc_abs f in
    let amount :=
      if eq_str (dict_get "transaction_type" data) "expense"
      then (- amount)%Qc else amount in
    Ok (dict_set "amount" (VNum amount) data)
  else if truthy (dict_get "amount" local_result) then
    let data := dict_set "amount" (dict_get "amount" local_result) data in
    if negb (truthy (dict_get "transaction_type" data))
    then Ok (dict_set "transaction_type"
               (dict_get "transaction_type" local_result) data)
    else Ok data
  else Ok data.

(** The end of the block: the time context is dropped and a missing
    description is taken from the local result. *)
Definition finish (text : str) (local_result data : dict) : dict :=
  let data := dict_pop "time_context" data in
  if negb (truthy (dict_get "description" data))
  then dict_set "description"
         (dict_get_default "description" (VStr text) local_result) data
  else data.

Section Extractor.
(** [json.loads]; [None] stands for [json.JSONDecodeError]. *)
Variable json_loads : str -> option json.

(** The statements of the inner [try] block, from [response.text] to
    [return data]. *)
Definition process_response (current_date : Z) (text : str)
    (local_result : dict) (resp : response) : result dict :=
  let* response_text := resp in
  let* json_str := extract_json response_text in
  let* parsed :=
    match json_loads json_str with
    | Some j => Ok (of_json j)
    | None => Raise JSONDecodeError
    end in
  let* data := as_dict parsed in
  let* data := resolve_date current_date data in
  let* data := reconcile_amount local_result data in
  Ok (finish text local_result data).

(** The inner [try]: a [JSONDecodeError] is caught and control falls
    through ([None]); any other exception goes on to the outer
    handler. *)
Definition inner_try (current_date : Z) (text : str) (local_result : dict)
    (resp : response) : result (option dict) :=
  match process_response current_date text local_result resp with
  | Ok data => Ok (Some data)
  | Raise JSONDecodeError => Ok None
  | Raise e => Raise e
  end.

(** The outer [try]: the call through the retry wrapper, then the
    inner block; [except Exception] catches everything and falls
    through. *)
Definition outer_try (current_date : Z) (text : str) (local_result : dict)
    (generate_func : nat -> result response) : option dict :=
  match
    (let* resp := call_gemini_with_retry generate_func 2 in
     inner_try current_date text local_result resp)
  with
  | Ok r => r
  | Raise _ => None
  end.

(** [current_date] is the day the function reads first, [local_date]
    the day the local parser reads when it is called. *)
Definition parse_financial_data (current_date local_date : Z)
    (generate_func : nat -> result response) (text : str) : result dict :=
  let local_result := parse_transaction_locally local_date text in
  match outer_try current_date text local_result generate_func with
  | Some data => Ok data
  | None => Ok local_result
  end.
End Extractor.

(** ** The multi-line splitter *)

Definition nl : ascii := "010"%char.

(** [[line.strip() for line in text.split('\n') if line.strip()]] *)
Definition nonblank_lines (text : str) : list str :=
  map py_strip
      (List.filter (fun line => truthy (VStr (py_strip line)))
                   (py_split [nl] text)).

Section Splitter.
(** The extraction of line number [i], [parse_financial_data(line)]. *)
Variable extract : nat -> str -> result dict.

(** The loop over the lines: a line is kept when its extraction has an
    amount; an extraction that raises is skipped. *)
Fixpoint parse_lines (i : nat) (lines : list str) : list dict :=
  match lines with
  | [] => []
  | line :: lines' =>
      match extract i line with
      | Ok transaction_data =>
          if negb (is_none (dict_get "amount" transaction_data))
          then transaction_data :: parse_lines (S i) lines'
          else parse_lines (S i) lines'
      | Raise _ => parse_lines (S i) lines'
      end
  end.
End Splitter.

(** [clock i] and [local_clock i] are the days read while line [i] is
    processed and [generate_funcs i] is the behaviour of the completion
    service for it. *)
Definition parse_multiple_transactions (json_loads : str -> option json)
    (clock local_clock : nat -> Z)
    (generate_funcs : nat -> nat -> result response) (text : str) : list dict :=
  parse_lines
    (fun i line =>
       parse_financial_data json_loads (clock i) (local_clock i)
         (generate_funcs i) line)
    0 (nonblank_lines text).

(** ** The category summariser *)

Definition CATEGORY_EMOJIS : list (string * string) :=
  [ ("Makanan", "🍽️");
    ("Protein", "🍗");
    ("Sayur", "🥬");
    ("Buah", "🍍");
    ("Minuman", "🥤");
    ("Snack", "🍿");
    ("Bumbu", "🧄");
    ("Roti", "🍞");
    ("Nasi", "🍚");
    ("Mie", "🍜");
    ("Daging", "🥩");
    ("Seafood", "🦐");
    ("Susu", "🥛");
    ("Transportasi", "🚗");
    ("Bensin", "⛽");
    ("Parkir", "🅿️");
    ("Ojek", "🏍️");
    ("Bus", "🚌");
    ("Kereta", "🚊");
    ("Belanja", "🛒");
    ("Pakaian", "👕");
    ("Elektronik", "📱");
    ("Kosmetik", "💄");
    ("Obat", "💊");
    ("Vitamin", "💊");
    ("Tagihan", "🧾");
    ("Listrik", "💡");
    ("Air", "💧");
    ("Internet", "📶");
    ("Pulsa", "📞");
    ("Gas", "🔥");
    ("Hiburan", "🎬");
    ("Bioskop", "🎭");
    ("Game", "🎮");
    ("Musik", "🎵");
    ("Olahraga", "⚽");
    ("Kesehatan", "🏥");
    ("Dokter", "👨‍⚕️");
    ("Rumah Sakit", "🏥");
    ("Pendidikan", "📚");
    ("Buku", "📖");
    ("Kursus", "🎓");
    ("Gaji", "💰");
    ("Bonus", "🎁");
    ("Investasi", "📈");
    ("Hadiah", "🎉");
    ("Penjualan", "💸");
    ("Bisnis", "💼");
    ("Lainnya", "🍜") ]%string.

Fixpoint assoc_str {A : Type} (k : str) (l : list (string * A)) : option A :=
  match l with
  | [] => None
  | (k', v) :: l' => if str_eqb k (L k') then Some v else assoc_str k l'
  end.

(** [CATEGORY_EMOJIS.get(category, ...)] *)
Definition get_category_emoji (category : str) : str :=
  match assoc_str category CATEGORY_EMOJIS with
  | Some e => L e
  | None => L "🍜"
  end.

(** The decimal digits of a natural number, as [str(n)] gives them. *)
Definition decimal (n : N) : str := L (NilZero.string_of_uint (N.to_uint n)).

(** The digits of a number with a separator before each group of three,
    counted from the right. *)
Fixpoint group3 (sep : ascii) (rev_digits : str) : str :=
  match rev_digits with
  | a :: b :: c :: ((_ :: _) as more) => a :: b :: c :: sep :: group3 sep more
  | _ => rev_digits
  end.

(** Rounding to the nearest integer, a tie going to the even one. *)
Definition round_half_even (q : Qc) : Z :=
  let n := Qnum q in
  let d := Z.pos (Qden q) in
  let fl := n / d in
  let r := n mod d in
  if 2 * r <? d then fl
  else if d <? 2 * r then fl + 1
  else if Z.even fl then fl else fl + 1.

(** [f"{amount:,.0f}".replace(',', '.')] *)
Definition format_rupiah (amount : Qc) : str :=
  let body :=
    rev (group3 "." (rev (decimal (Z.to_N (round_half_even (Qc_abs amount)))))) in
  if Qclt_le_dec amount (Q2Qc 0) then "-"%char :: body else body.

(** One transaction of the list given to the summariser; [None] is a key
    that the dictionary does not have. *)
Record transaction : Type := {
  t_category : option str;
  t_amount : option Qc;
  t_description : option str
}.

Record item : Type := {
  i_description : str;
  i_amount : Qc
}.

Definition from_option_str (default : string) (o : option str) : str :=
  match o with
  | Some s => s
  | None => L default
  end.

Fixpoint has_key {A : Type} (k : str) (d : list (str * A)) : bool :=
  match d with
  | [] => false
  | (k', _) :: d' => str_eqb k k' || has_key k d'
  end.

(** [d[k] = f(d[k])] for a key of [d] *)
Fixpoint update {A : Type} (k : str) (f : A -> A) (d : list (str * A))
    : list (str * A) :=
  match d with
  | [] => []
  | (k', v) :: d' =>
      if str_eqb k k' then (k', f v) :: d' else (k', v) :: update k f d'
  end.

(** The two dictionaries filled by the first loop. *)
Record groups : Type := {
  category_totals : list (str * Qc);
  category_items : list (str * list item)
}.

Definition add_transaction (g : groups) (t : transaction) : groups :=
  let category := from_option_str "Lainnya" (t_category t) in
  let amount :=
    Qc_abs (match t_amount t with Some a => a | None => Q2Qc 0 end) in
  let description := from_option_str "Item" (t_description t) in
  let g :=
    if negb (has_key category (category_totals g))
    then {| category_totals := category_totals g ++ [(category, Q2Qc 0)];
            category_items := category_items g ++ [(category, [])] |}
    else g in
  {| category_totals :=
       update category (fun total => (total + amount)%Qc) (category_totals g);
     category_items :=
       update category
         (fun l => l ++ [{| i_description := description; i_amount := amount |}])
         (category_items g) |}.

Definition group_transactions (transactions : list transaction) : groups :=
  fold_left add_transaction transactions
    {| category_totals := []; category_items := [] |}.

(** [sorted(l, key=..., reverse=True)]: a stable sort, largest first;
    [lt x y] compares the keys of [x] and [y]. *)
Fixpoint insert_desc {A : Type} (lt : A -> A -> bool) (x : A) (l : list A)
    : list A :=
  match l with
  | [] => [x]
  | y :: l' => if lt x y then y :: insert_desc lt x l' else x :: y :: l'
  end.

Definition sorted_desc {A : Type} (lt : A -> A -> bool) (l : list A) : list A :=
  foldr (insert_desc lt) [] l.

Definition Qc_ltb (a b : Qc) : bool :=
  if Qclt_le_dec a b then true else false.

(** The comparison made through [key=...]. *)
Definition by_key {A : Type} (key : A -> Qc) (a b : A) : bool :=
  Qc_ltb (key a) (key b).

(** [s.replace(old, new)] *)
Fixpoint py_replace_go (old new : str) (skip : nat) (s : str) : str :=
  match s with
  | [] => []
  | a :: s' =>
      match skip with
      | S k => py_replace_go old new k s'
      | O =>
          if starts_with old s
          then new ++ py_replace_go old new (length old - 1) s'
          else a :: py_replace_go old new 0 s'
      end
  end.

Definition py_replace (old new : str) (s : str) : str :=
  match old with
  | [] => new ++ flat_map (fun a => a :: new) s
  | _ :: _ => py_replace_go old new 0 s
  end.

(** The clean-up of the description of an item. *)
Definition clean_description (category : str) (item_desc : str) : str :=
  let item_desc :=
    if py_in (L " di ") item_desc
    then match py_split (L " di ") item_desc with
         | first :: _ => first
         | [] => item_desc
         end
    else item_desc in
  let item_desc :=
    if py_in (py_lower category) (py_lower item_desc)
    then py_strip (py_replace category [] item_desc)
    else item_desc in
  let item_desc :=
    if starts_with (L "Belanja ") item_desc
    then py_replace (L "Belanja ") [] item_desc
    else item_desc in
  if (30 <? length item_desc)%nat then take 27 item_desc ++ L "..."
  else item_desc.

Definition item_line (category : str) (it : item) : str :=
  L " • " ++ clean_description category (i_description it)
    ++ L " = " ++ format_rupiah (i_amount it).

(** The items of [category], as the loop over the categories reads
    them. *)
Definition items_of (g : groups) (category : str) : list item :=
  match find (fun kv => str_eqb category (fst kv)) (category_items g) with
  | Some (_, l) => l
  | None => []
  end.

(** The items shown for a category: the ten largest. *)
Definition shown_items (items : list item) : list item :=
  take 10 (sorted_desc (by_key i_amount) items).

(** The lines of one category. *)
Definition category_block (g : groups) (entry : str * Qc) : list str :=
  let '(category, total) := entry in
  let items := items_of g category in
  [get_category_emoji category ++ L " *" ++ category ++ L "*"]
  ++ map (item_line category) (shown_items items)
  ++ (if (10 <? length items)%nat
      then [L " • ... dan " ++ decimal (N.of_nat (length items - 10))
              ++ L " item lainnya"]
      else [])
  ++ [L "*Subtotal " ++ category ++ L " = " ++ format_rupiah total ++ L "*" ++ [nl]].

Definition sorted_categories (g : groups) : list (str * Qc) :=
  sorted_desc (by_key snd) (category_totals g).

(** [grand_total], accumulated over the sorted categories; the sums
    are the exact ones, which the sums of floats are for
    [exact_amounts]. *)
Definition grand_total (g : groups) : Qc :=
  fold_left (fun acc entry => (acc + snd entry)%Qc) (sorted_categories g) (Q2Qc 0).

Definition summary_lines (transactions : list transaction) (title : str)
    : list str :=
  let g := group_transactions transactions in
  [[nl] ++ title ++ [nl]]
  ++ flat_map (category_block g) (sorted_categories g)
  ++ [ L "⸻" ++ [nl];
       L "💰 *Total Keseluruhan*" ++ [nl];
       L "*" ++ format_rupiah (grand_total g) ++ L " rupiah*" ].

(** ["\n".join(lines)] *)
Fixpoint join_lines (lines : list str) : str :=
  match lines with
  | [] => []
  | [l] => l
  | l :: rest => l ++ nl :: join_lines rest
  end.

Definition generate_category_summary (transactions : list transaction)
    (title : str) : str :=
  match transactions with
  | [] => []
  | _ :: _ => join_lines (summary_lines transactions title)
  end.

(** ** The per-user context and the handlers *)

(** [context.user_data] *)
Abbreviation user_data := (gmap string pyval).

Definition STATE_WAITING_AMOUNT : str := L "waiting_amount".

(** [for key in keys: user_data.pop(key, None)] *)
Definition pop_all (keys : list string) (ud : user_data) : user_data :=
  fold_left (fun m key => delete key m) keys ud.

(** An incoming message, as the dispatcher sees it: a text that Telegram
    tags as a bot command (the filter [filters.COMMAND]), another text,
    or a photo. *)
Inductive message : Type :=
| Command (name : string) (private : bool)
| Text (text : str) (private : bool)
| Photo (private : bool).

Inductive handler : Type :=
| h_start
| h_record_command
| h_report
| h_help_command
| h_menu_command
| h_sheet_link
| h_delete_data
| h_toggle_delete_messages
| h_photo_handler
| h_keyboard_handler
| h_message_handler
| h_cmd_me.

Definition keyboard_buttons : list string :=
  [ "📝 Catat"; "📊 Laporan"; "📋 Sheet"; "🗑️ Hapus" ]%string.

(** [filters.Regex("^(...)$")]: the text is one of the buttons, a final
    line break allowed. *)
Definition is_button (text : str) : bool :=
  existsb (fun b => str_eqb text (L b) || str_eqb text (L b ++ [nl]))
    keyboard_buttons.

(** The message handlers registered by [main], in order; the first one
    that accepts the message handles it. *)
Definition accepts (h : handler) (m : message) : bool :=
  match h, m with
  | h_start, Command name _ => String.eqb name "start"
  | h_record_command, Command name _ => String.eqb name "catat"
  | h_report, Command name _ => String.eqb name "laporan"
  | h_help_command, Command name _ => String.eqb name "help"
  | h_menu_command, Command name _ => String.eqb name "menu"
  | h_sheet_link, Command name _ => String.eqb name "sheet"
  | h_delete_data, Command name _ => String.eqb name "hapus"
  | h_toggle_delete_messages, Command name _ => String.eqb name "hapuspesan"
  | h_photo_handler, Photo private => private
  | h_keyboard_handler, Text text private =>
      truthy (VStr text) && is_button text && private
  | h_message_handler, Text text private => truthy (VStr text) && private
  | h_cmd_me, Command name _ => String.eqb name "me"
  | _, _ => false
  end.

Definition handlers : list handler :=
  [ h_start; h_record_command; h_report; h_help_command; h_menu_command;
    h_sheet_link; h_delete_data; h_toggle_delete_messages;
    h_photo_handler; h_keyboard_handler; h_message_handler; h_cmd_me ].

Definition dispatch (m : message) : option handler :=
  find (fun h => accepts h m) handlers.

(** [toggle_delete_messages] *)
Definition toggle_delete_messages (authorized : bool) (ud : user_data) : user_data :=
  if negb authorized then ud
  else
    match ud !! "delete_messages" with
    | None => <["delete_messages" := VBool true]> ud
    | Some v => <["delete_messages" := VBool (negb (truthy v))]> ud
    end.

(** The effect of a command handler on the context: all of them only
    reply, except [toggle_delete_messages]. *)
Definition run_command (h : handler) (authorized : bool) (ud : user_data)
    : user_data :=
  match h with
  | h_toggle_delete_messages => toggle_delete_messages authorized ud
  | _ => ud
  end.

(** What [message_handler] goes on with. *)
Inductive continuation : Type :=
| Return
| Call_handle_date_input
| Call_transaction_processing.

(** [message_handler] up to the calls that process the message. *)
Definition message_handler (authorized : bool) (message_text : str)
    (ud : user_data) : user_data * continuation :=
  if negb authorized then (ud, Return)
  else
    match ud !! "delete_state" with
    | Some _ =>
        if truthy (VStr message_text) && starts_with (L "/") message_text then
          (pop_all ["delete_state"; "start_date"; "records_to_delete"] ud, Return)
        else (ud, Call_handle_date_input)
    | None => (ud, Call_transaction_processing)
    end.

(** The context after a message that a command handler takes, or that
    [message_handler] answers by itself. *)
Definition handle_message (authorized : bool) (m : message) (ud : user_data)
    : option (user_data * continuation) :=
  match dispatch m, m with
  | Some h_message_handler, Text text _ => Some (message_handler authorized text ud)
  | Some h_message_handler, _ => None
  | Some h_photo_handler, _ => None
  | Some h_keyboard_handler, _ => None
  | Some h, _ => Some (run_command h authorized ud, Return)
  | None, _ => None
  end.

(** *** [button_callback]: the confirmation buttons *)

Definition confirm_keys : list string :=
  [ "pending_transaction"; "pending_message"; "transaction_type"; "amount";
    "description"; "detected_date"; "pending_receipt"; "conversation_state";
    "pending_category"; "date" ]%string.

Definition edit_keys : list string :=
  [ "pending_receipt"; "transaction_type"; "amount"; "description";
    "detected_date"; "conversation_state"; "pending_category"; "date" ]%string.

(** The spreadsheet as [button_callback] uses it: whether it is
    connected, and whether [append_row] succeeds. *)
Record store : Type := {
  connected : bool;
  append_raises : option exn;
  rows : list (list pyval)
}.

(** [amount > 0] *)
Definition positive (v : pyval) : result bool :=
  match v with
  | VNum q => Ok (Qc_ltb (Q2Qc 0) q)
  | VBool b => Ok b
  | _ => Raise TypeError
  end.

(** How a handler ends. *)
Inductive ending : Type :=
| Returned
| Raised (e : exn).

(** The [confirm_yes] branch up to the replies: the row is appended,
    then the amount is formatted for the reply. *)
Definition confirm_yes (user_id : Z) (today : Z) (timestamp : str)
    (ud : user_data) (st : store) : user_data * store * ending :=
  let transaction := default (VDict []) (ud !! "pending_transaction") in
  if negb (connected st) then (ud, st, Returned)
  else
    match as_dict transaction with
    | Raise e => (ud, st, Raised e)
    | Ok transaction =>
        let row_data :=
          [ dict_get_default "date" (VDate today) transaction;
            dict_get_default "amount" (VNum (Q2Qc 0)) transaction;
            dict_get_default "category" (VStr (L "Lainnya")) transaction;
            dict_get_default "description" (VStr []) transaction;
            VNum (Q2Qc (inject_Z user_id));
            VStr timestamp ] in
        match append_raises st with
        | Some e => (ud, st, Raised e)
        | None =>
            let st :=
              {| connected := connected st; append_raises := append_raises st;
                 rows := rows st ++ [row_data] |} in
            let amount := dict_get_default "amount" (VNum (Q2Qc 0)) transaction in
            match positive amount, float_of amount with
            | Ok _, Ok _ => (pop_all confirm_keys ud, st, Returned)
            | Raise e, _ => (ud, st, Raised e)
            | _, Raise e => (ud, st, Raised e)
            end
        end
    end.

(** The branches of [button_callback] for a [confirm_...] button, when
    the messages that the handler sends are delivered;
    [button_confirm_sent] takes their failures into account. *)
Definition button_confirm (authorized : bool) (action : str) (user_id : Z)
    (today : Z) (timestamp : str) (ud : user_data) (st : store)
    : user_data * store * ending :=
  if negb authorized then (ud, st, Returned)
  else if str_eqb action (L "yes") then confirm_yes user_id today timestamp ud st
  else if str_eqb action (L "no") || str_eqb action (L "edit") then
    let ud := pop_all ["pending_transaction"; "conversation_state"] ud in
    if truthy (default VNone (ud !! "pending_message")) then (ud, st, Returned)
    else (pop_all edit_keys ud, st, Returned)
  else if str_eqb action (L "cancel") then (pop_all confirm_keys ud, st, Returned)
  else (ud, st, Returned).

(** ** Deleting all the rows of a user *)

(** The decimal text of an integer, [str(n)]. *)
Definition str_of_Z (n : Z) : str :=
  if n <? 0 then "-"%char :: decimal (Z.to_N (- n)) else decimal (Z.to_N n).

(** [dict(zip(header, row)).get(key)]: with a repeated column name the
    last column wins. *)
Fixpoint record_get (key : str) (header row : list str) : option str :=
  match header, row with
  | h :: header', v :: row' =>
      match record_get key header' row' with
      | Some w => Some w
      | None => if str_eqb h key then Some v else None
      end
  | _, _ => None
  end.

(** [str(record.get('User ID')) == str(user_id)] *)
Definition owned_by (user_id : Z) (header row : list str) : bool :=
  str_eqb (default (L "None") (record_get (L "User ID") header row))
          (str_of_Z user_id).

(** The row numbers collected by the loop over [all_values[1:]], counted
    from [i]. *)
Fixpoint collect_rows (user_id : Z) (header : list str) (i : nat)
    (body : list (list str)) : list nat :=
  match body with
  | [] => []
  | row :: body' =>
      if owned_by user_id header row
      then i :: collect_rows user_id header (S i) body'
      else collect_rows user_id header (S i) body'
  end.

(** [sheet.delete_rows(row_index)]: rows are numbered from 1; a number
    outside the sheet is refused by the service. *)
Definition delete_rows (row_index : nat) (sheet : list (list str))
    : result (list (list str)) :=
  match row_index with
  | O => Raise (ServiceError [])
  | S i =>
      match sheet !! i with
      | Some _ => Ok (delete i sheet)
      | None => Raise (ServiceError [])
      end
  end.

(** The deletion loop; the rows removed so far are recorded with their
    numbers. *)
Fixpoint delete_loop (indices : list nat) (sheet : list (list str))
    (removed : list (nat * list str))
    : result (list (list str) * list (nat * list str)) :=
  match indices with
  | [] => Ok (sheet, removed)
  | row_index :: indices' =>
      let* sheet' := delete_rows row_index sheet in
      let row := default [] (sheet !! (row_index - 1)%nat) in
      delete_loop indices' sheet' (removed ++ [(row_index, row)])
  end.

(** The branch [action == "all"] of [confirm_delete_callback]. *)
Definition confirm_delete_all (user_id : Z) (sheet : list (list str))
    : result (list (list str) * list (nat * list str)) :=
  let all_values := sheet in
  let* header := index all_values 0 in
  let rows_to_delete := collect_rows user_id header 2 (drop 1 all_values) in
  delete_loop (sorted_desc Nat.ltb rows_to_delete) sheet [].

(** * Specifications *)

(** [w] occurs in [s]. *)
Definition occurs (w s : str) : Prop := exists pre post, s = pre ++ w ++ post.

(** Some word of [kws] occurs in [text]. *)
Definition some_cue (kws : list string) (text : str) : Prop :=
  exists kw, In kw kws /\ occurs (L kw) text.

(** The language of a regular expression. *)
Inductive matches : regex -> str -> Prop :=
| M_eps : matches Eps []
| M_chr p a : p a = true -> matches (Chr p) [a]
| M_cat r1 r2 s1 s2 :
    matches r1 s1 -> matches r2 s2 -> matches (Cat r1 r2) (s1 ++ s2)
| M_alt_l r1 r2 s : matches r1 s -> matches (Alt r1 r2) s
| M_alt_r r1 r2 s : matches r2 s -> matches (Alt r1 r2) s
| M_star_nil r : matches (Star r) []
| M_star_app r s1 s2 :
    matches r s1 -> matches (Star r) s2 -> matches (Star r) (s1 ++ s2)
| M_grp r s : matches r s -> matches (Grp r) s.

(** A non-empty string of decimal digits. *)
Definition digits (ds : str) : Prop :=
  ds <> [] /\ Forall (fun a => is_digit a = true) ds.

Definition no_digit (s : str) : Prop := Forall (fun a => is_digit a = false) s.

Definition spaces (s : str) : Prop := Forall (fun a => is_space a = true) s.

(** A text of ASCII characters.  On such a text [is_digit] is [\d],
    [is_space] is [\s] and [str.isspace], and [py_lower] is
    [str.lower]; beyond ASCII Python knows more digits, more white
    space and more letters. *)
Definition ascii_text (s : str) : Prop := Forall (fun a => (code a < 128)%N) s.

(** [2^e] as a rational. *)
Definition pow2 (e : Z) : Qc :=
  if 0 <=? e then Q2Qc (inject_Z (2 ^ e))
  else Q2Qc (Qmake 1 (Z.to_pos (2 ^ (- e)))).

(** A number that a float (binary64) holds exactly: [m * 2^e] with a
    significand below [2^53].  On such numbers [float] of a numeral and
    the product and the sum of floats are the exact ones, which the
    rationals of this development compute. *)
Definition binary64 (q : Qc) : Prop :=
  exists m e : Z,
    Z.abs m < 2 ^ 53 /\ -1074 <= e <= 971
    /\ q = (Q2Qc (inject_Z m) * pow2 e)%Qc.

(** A whole number. *)
Definition whole (q : Qc) : Prop := exists n : Z, q = Q2Qc (inject_Z n).

(** The fractional part of a numeral: nothing, or a separator and
    digits [fp]. *)
Definition fraction (frac fp : str) : Prop :=
  (frac = [] /\ fp = []) \/
  (exists sep, is_sep sep = true /\ digits fp /\ frac = sep :: fp).

(** The number written [ip] before and [fp] after the decimal
    separator. *)
Definition decimal_value (ip fp : str) : Qc :=
  scale10 (digits_value (ip ++ fp)) (- Z.of_nat (length fp)).

(** The multiplier of a magnitude suffix. *)
Definition suffix_multiplier (suf : str) : option Qc :=
  if existsb (fun w => str_eqb suf (L w)) ["juta"; "jt"]%string
  then Some (Q2Qc 1000000)
  else if existsb (fun w => str_eqb suf (L w)) ["ribu"; "rb"; "k"]%string
  then Some (Q2Qc 1000)
  else None.

Definition is_dos (a : ascii) : bool := is_digit a || is_sep a.

(** The head of [s], if any, is outside the class [p]. *)
Definition stops (p : ascii -> bool) (s : str) : Prop :=
  forall a s', s = a :: s' -> p a = false.

Definition found : @kont (option str * str) := fun rest c => Some (c, rest).

(** The head of a magnitude suffix of the thousands family. *)
Definition not_juta_head (h : ascii) : Prop :=
  is_space h = false /\ is_dos h = false /\ eqb_ascii h "j" = false.

(** What one line contributes to the batch. *)
Definition kept (extract : nat -> str -> result dict) (i : nat) (line : str)
    : list dict :=
  match extract i line with
  | Ok data => if is_none (dict_get "amount" data) then [] else [data]
  | Raise _ => []
  end.

(** The three lines of the example. *)
Definition three_lines : str :=
  L "Beli makan siang 50000" ++ [nl] ++ L "kosong tanpa angka" ++ [nl]
    ++ L "Terima gaji 5000000".

Definition dq : ascii := "034"%char.

(** The reply [{"amount": 0}]. *)
Definition reply_amount_zero : str :=
  L "{" ++ dq :: L "amount" ++ dq :: L ": 0}".

(** A context in the pending-confirmation state, as
    [process_financial_message] leaves it. *)
Definition pending_context : user_data :=
  <["messages_to_delete" := VList [VNum (Q2Qc 101)]]>
    (<["pending_message" := VStr (L "Beli makan siang 50000")]>
       (<["detected_date" := VDate 738886]>
          (<["pending_transaction" :=
               VDict [ ("date", VDate 738886);
                       ("amount", VNum (Q2Qc (-50000)));
                       ("category", VStr (L "Makanan"));
                       ("description", VStr (L "Beli makan siang")) ]%string]>
             ∅))).

Definition connected_store : store :=
  {| connected := true; append_raises := None; rows := [] |}.

Definition disconnected_store : store :=
  {| connected := false; append_raises := None; rows := [] |}.

Definition delete_flow_keys : list string :=
  [ "delete_state"; "start_date"; "records_to_delete" ]%string.

(** A context in the waiting-for-amount state, as the [type_expense]
    button leaves it. *)
Definition waiting_context : user_data :=
  <["conversation_state" := VStr STATE_WAITING_AMOUNT]>
    (<["date" := VDate 738886]>
       (<["description" := VStr (L "makan siang")]>
          (<["transaction_type" := VStr (L "expense")]>
             (<["pending_message" := VStr (L "makan siang")]> ∅)))).

(** The rows of [body] that belong to the user, with their row numbers,
    the first row of [body] having number [i]. *)
Fixpoint owned_numbered (user_id : Z) (header : list str) (i : nat)
    (body : list (list str)) : list (nat * list str) :=
  match body with
  | [] => []
  | row :: body' =>
      if owned_by user_id header row
      then (i, row) :: owned_numbered user_id header (S i) body'
      else owned_numbered user_id header (S i) body'
  end.

Definition amount_of (t : transaction) : Qc :=
  Qc_abs (match t_amount t with Some a => a | None => Q2Qc 0 end).

(** The sum of the amounts shown for the items. *)
Definition sum_amounts (transactions : list transaction) : Qc :=
  foldr (fun t acc => (amount_of t + acc)%Qc) (Q2Qc 0) transactions.

(** The sum of the amounts as they are given. *)
Definition given_sum (transactions : list transaction) : Qc :=
  foldr (fun t acc =>
           ((match t_amount t with Some a => a | None => Q2Qc 0 end) + acc)%Qc)
        (Q2Qc 0) transactions.

(** No amount of the list is negative. *)
Definition no_negative (transactions : list transaction) : Prop :=
  Forall (fun t =>
            (Q2Qc 0 <= match t_amount t with Some a => a | None => Q2Qc 0 end)%Qc)
         transactions.

(** Whole amounts whose absolute values add up to less than [2^53]:
    every sum that the summariser makes of them as floats is exact. *)
Definition exact_amounts (transactions : list transaction) : Prop :=
  Forall (fun t => whole (amount_of t)) transactions
  /\ (sum_amounts transactions < Q2Qc (inject_Z (2 ^ 53)))%Qc.

Definition total_of (d : list (str * Qc)) : Qc :=
  foldr (fun e acc => (snd e + acc)%Qc) (Q2Qc 0) d.

Definition example_transactions : list transaction :=
  [ {| t_category := Some (L "Makanan"); t_amount := Some (Q2Qc 20000);
       t_description := None |};
    {| t_category := Some (L "Makanan"); t_amount := Some (Q2Qc 5000);
       t_description := None |};
    {| t_category := Some (L "Belanja"); t_amount := Some (Q2Qc 30000);
       t_description := None |} ].

Definition example_summary : str := L "
💰 RINGKASAN KATEGORI

🛒 *Belanja*
 • Item = 30.000
*Subtotal Belanja = 30.000*

🍽️ *Makanan*
 • Item = 20.000
 • Item = 5.000
*Subtotal Makanan = 25.000*

⸻

💰 *Total Keseluruhan*

*55.000 rupiah*".

Definition category_of (t : transaction) : str :=
  from_option_str "Lainnya" (t_category t).

Definition item_of (t : transaction) : item :=
  {| i_description := from_option_str "Item" (t_description t);
     i_amount := amount_of t |}.

(** The transactions of [category], in the order of the input. *)
Definition in_category (category : str) (transactions : list transaction)
    : list transaction :=
  List.filter (fun t => str_eqb category (category_of t)) transactions.

(** The value under the first key [k] of a dictionary, or [d0]. *)
Definition first_of {A : Type} (d0 : A) (k : str) (d : list (str * A)) : A :=
  match find (fun kv => str_eqb k (fst kv)) d with
  | Some (_, v) => v
  | None => d0
  end.

(** The two dictionaries have the same keys. *)
Definition same_keys (g : groups) : Prop :=
  map fst (category_totals g) = map fst (category_items g).

(** * Further specifications *)

(** A pattern without a capture group. *)
Fixpoint groupless (r : regex) : bool :=
  match r with
  | Eps | Chr _ => true
  | Cat r1 r2 | Alt r1 r2 => groupless r1 && groupless r2
  | Star r' => groupless r'
  | Grp _ => false
  end.

(** A text that starts with a digit and holds digits and separators
    only: what group 1 of the amount patterns can hold. *)
Definition numeral_like (g : str) : Prop :=
  (exists a g', g = a :: g' /\ is_digit a = true)
  /\ Forall (fun a => is_dos a = true) g.

(** Group 1 of every match of [r] is numeral-like. *)
Definition numeral_pattern (r : regex) : Prop :=
  forall t g rest,
    mt r t None found = Some (g, rest) -> exists n, g = Some n /\ numeral_like n.

(** A match of [r] starts with a digit. *)
Definition digit_headed (r : regex) : Prop :=
  forall t c (k : @kont (option str * str)),
    stops is_digit t -> mt r t c k = None.

(** The text has a character that is not white space. *)
Definition visible (text : str) : Prop :=
  Exists (fun a => is_space a = false) text.

Definition backtick : ascii := "`"%char.

(** The text holds no backtick. *)
Definition no_backtick (s : str) : Prop :=
  Forall (fun a => eqb_ascii backtick a = false) s.

(** The names of the days of the week that the resolver knows. *)
Definition weekday_names : list string := map fst day_names.

(** The names of Monday to Saturday, which the resolver tries before
    those of Sunday. *)
Definition names_before_sunday : list string := map fst (take 12 day_names).

(** The qualifiers of a weekday name. *)
Definition says_next (time_context : str) : bool :=
  py_in (L "depan") time_context || py_in (L "next") time_context.

Definition says_last (time_context : str) : bool :=
  py_in (L "lalu") time_context || py_in (L "last") time_context.

(** ** The confirmation buttons and the messages they send *)

(** How a handler goes on after a message that it sends without a guard:
    [sent] is [None] when Telegram takes the message, and the exception
    that the call raises otherwise. *)
Definition after_send (sent : option exn) : ending :=
  match sent with
  | None => Returned
  | Some e => Raised e
  end.

(** The branches of [button_callback] for a [confirm_...] button, with
    the messages: [answered] is the outcome of [query.answer] and
    [edited] that of [query.edit_message_text] where the handler calls
    it outside a [try].  The messages of the branch [yes] with the
    sheet connected are all guarded. *)
Definition button_confirm_sent (answered edited : option exn)
    (authorized : bool) (action : str) (user_id : Z) (today : Z)
    (timestamp : str) (ud : user_data) (st : store)
    : user_data * store * ending :=
  if negb authorized then (ud, st, after_send answered)
  else if str_eqb action (L "yes") then
    if negb (connected st) then (ud, st, after_send edited)
    else confirm_yes user_id today timestamp ud st
  else if str_eqb action (L "no") || str_eqb action (L "edit") then
    let ud := pop_all ["pending_transaction"; "conversation_state"] ud in
    if truthy (default VNone (ud !! "pending_message"))
    then (ud, st, after_send edited)
    else (pop_all edit_keys ud, st, after_send edited)
  else if str_eqb action (L "cancel") then
    (pop_all confirm_keys ud, st, after_send edited)
  else (ud, st, after_send answered).

(** * More of the program *)

(** ** The configuration read at start-up *)

(** [[a-zA-Z0-9-_]] *)
Definition is_id_char (a : ascii) : bool :=
  is_lower a || is_upper a || is_digit a || eqb_ascii a "-" || eqb_ascii a "_".

(** [/d/([a-zA-Z0-9-_]+)] *)
Definition pat_sheet_id : regex :=
  Cat (lit "/d/") (Grp (plus (Chr is_id_char))).

(** [validate_spreadsheet_id]; the argument is the value of
    [os.getenv('SPREADSHEET_ID')], [None] when the variable is not set. *)
Definition validate_spreadsheet_id (spreadsheet_id : option str) : option str :=
  match spreadsheet_id with
  | None => None
  | Some s =>
      if negb (truthy (VStr s)) then None
      else if (length s =? 44)%nat && negb (starts_with (L "http") s) then Some s
      else if py_in (L "docs.google.com/spreadsheets/d/") s then
        match re_search pat_sheet_id s with
        | Some (Some extracted_id, _) => Some extracted_id
        | _ => Some s
        end
      else Some s
  end.

(** [SPREADSHEET_URL], for a spreadsheet id that is set. *)
Definition SPREADSHEET_URL (SPREADSHEET_ID : str) : str :=
  L "https://docs.google.com/spreadsheets/d/" ++ SPREADSHEET_ID.

(** [AUTHORIZED_USER_IDS], from the value of [AUTHORIZED_USER_ID] (the
    empty string when the variable is not set). *)
Definition AUTHORIZED_USER_IDS (env : str) : list str := py_split (L ",") env.

(** [is_authorized] *)
Definition is_authorized (env : str) (user_id : Z) : bool :=
  existsb (fun entry => str_eqb (str_of_Z user_id) entry) (AUTHORIZED_USER_IDS env).

(** The check of the authorized users made when the module is loaded. *)
Definition check_authorized_users (env : str) : result unit :=
  if match AUTHORIZED_USER_IDS env with [] => false | _ :: _ => true end
     && negb (bool_decide (AUTHORIZED_USER_IDS env = [[]]))
  then Ok tt else Raise ValueError.

(** [sep.join(parts)] *)
Fixpoint join_with (sep : str) (parts : list str) : str :=
  match parts with
  | [] => []
  | [p] => p
  | p :: rest => p ++ sep ++ join_with sep rest
  end.

(** ** Deleting by date: [handle_date_input] *)

(** The order of Python on strings: by character code, a proper prefix
    first. *)
Fixpoint str_ltb (s t : str) : bool :=
  match s, t with
  | _, [] => false
  | [], _ :: _ => true
  | a :: s', b :: t' =>
      (code a <? code b)%N || ((code a =? code b)%N && str_ltb s' t')
  end.

(** [s <= t] *)
Definition str_leb (s t : str) : bool := negb (str_ltb t s).

Definition re_dash : regex := Chr (fun a => eqb_ascii a "-").

(** [\d{4}-\d{2}-\d{2}] *)
Definition pat_date : regex :=
  Cat re_d (Cat re_d (Cat re_d (Cat re_d
    (Cat re_dash (Cat re_d (Cat re_d (Cat re_dash (Cat re_d re_d)))))))).

(** [re.match('^' + r + '$', s)] finds a match: [$] stands at the end
    of the text or before a line break that ends it. *)
Definition re_match_end (r : regex) (s : str) : bool :=
  match
    mt r s None
       (fun rest _ =>
          if bool_decide (rest = [] \/ rest = [nl]) then Some tt else None)
  with
  | Some _ => true
  | None => false
  end.

(** A cell of a record of [sheet.get_all_records()]: a text or a
    number. *)
Inductive cell : Type :=
| CStr (s : str)
| CNum (q : Qc).

(** A record of the sheet, as the filter by date reads it. *)
Record sheet_record : Type := {
  rec_user : str;    (* [str(record.get('User ID'))] *)
  rec_date : cell;   (* [record.get('Date', '')] *)
  rec_value : pyval  (* the record itself *)
}.

Definition cancel_words : list string := [ "batal"; "cancel"; "batalkan" ]%string.

(** How [handle_date_input] ends. *)
Inductive flow_end : Type :=
| Flow_returned
| Flow_raised_KeyError
| Flow_raised (e : exn).

Section DateFlow.
(** The text of a date made by [strftime("%Y-%m-%d")]. *)
Variable date_text : Z -> str.

(** The text of a value that is a string. *)
Definition text_of (v : pyval) : option str :=
  match v with
  | VStr s => Some s
  | VDate d => Some (date_text d)
  | _ => None
  end.

(** [start_date <= record.get('Date', '') <= end_date], for strings
    [start_date] and [end_date]. *)
Definition between (start_date end_date : str) (d : cell) : result bool :=
  match d with
  | CStr t => Ok (str_leb start_date t && str_leb t end_date)
  | CNum _ => Raise TypeError
  end.

(** The list comprehension that selects the records to delete. *)
Fixpoint records_in_range (user_id : Z) (start_date end_date : str)
    (all_records : list sheet_record) : result (list sheet_record) :=
  match all_records with
  | [] => Ok []
  | record :: rest =>
      let* keep :=
        if str_eqb (rec_user record) (str_of_Z user_id)
        then between start_date end_date (rec_date record)
        else Ok false in
      let* selected := records_in_range user_id start_date end_date rest in
      Ok (if keep then record :: selected else selected)
  end.

(** [handle_date_input]: [connected] tells whether the sheet is
    available, [get_all_records] is what reading it gives. *)
Definition handle_date_input (user_id : Z) (text : str) (connected : bool)
    (get_all_records : result (list sheet_record)) (ud : user_data)
    : user_data * flow_end :=
  let message_text := py_strip text in
  match ud !! "delete_state" with
  | None => (ud, Flow_returned)
  | Some delete_state =>
      if existsb (fun w => str_eqb (py_lower message_text) (L w)) cancel_words
      then (pop_all ["delete_state"; "start_date"; "records_to_delete"] ud,
            Flow_returned)
      else if negb (re_match_end pat_date message_text) then (ud, Flow_returned)
      else if eq_str delete_state "awaiting_start_date" then
        (<["delete_state" := VStr (L "awaiting_end_date")]>
           (<["start_date" := VStr message_text]> ud), Flow_returned)
      else if eq_str delete_state "awaiting_end_date" then
        match ud !! "start_date" with
        | None => (ud, Flow_raised_KeyError)
        | Some start_date =>
            let end_date := message_text in
            match text_of start_date with
            | None => (ud, Flow_raised TypeError)
            | Some start =>
                if str_ltb end_date start then (ud, Flow_returned)
                else if negb connected then
                  (pop_all ["delete_state"; "start_date"] ud, Flow_returned)
                else
                  match get_all_records with
                  | Raise e => (ud, Flow_raised e)
                  | Ok all_records =>
                      match records_in_range user_id start end_date all_records with
                      | Raise e => (ud, Flow_raised e)
                      | Ok [] =>
                          (pop_all ["delete_state"; "start_date"] ud,
                           Flow_returned)
                      | Ok user_records_in_range =>
                          (<["records_to_delete" :=
                               VList (map rec_value user_records_in_range)]> ud,
                           Flow_returned)
                      end
                  end
            end
        end
      else (ud, Flow_returned)
  end.
End DateFlow.

(** The [date] button of [delete_callback], for an authorized user and
    a connected sheet: the flow starts. *)
Definition delete_callback_date (ud : user_data) : user_data :=
  <["delete_state" := VStr (L "awaiting_start_date")]> ud.

(** A text of the form [YYYY-MM-DD]: four, two and two digits. *)
Definition date_parts (s y m d : str) : Prop :=
  Forall (fun a => is_digit a = true) (y ++ m ++ d)
  /\ length y = 4%nat /\ length m = 2%nat /\ length d = 2%nat
  /\ s = y ++ L "-" ++ m ++ L "-" ++ d.

Definition date_shaped (s : str) : Prop := exists y m d, date_parts s y m d.

(** The number [YYYYMMDD] of a text of this form. *)
Definition date_number (s : str) : Z :=
  digits_value (take 4 s) * 10000
  + digits_value (take 2 (drop 5 s)) * 100
  + digits_value (take 2 (drop 8 s)).

(** The context is consistent with the flow: waiting for the end date,
    it holds a start date in the format. *)
Definition date_flow_consistent (ud : user_data) : Prop :=
  forall v,
    ud !! "delete_state" = Some v -> eq_str v "awaiting_end_date" = true ->
    exists start,
      ud !! "start_date" = Some (VStr start)
      /\ re_match_end pat_date start = true.

(** The handlers that write the keys of the flow: the [date] button,
    [handle_date_input], and the three [pop]s of [message_handler] and
    [confirm_delete_callback]; every other handler leaves
    [delete_state] and [start_date] as they are. *)
Inductive date_flow_step (date_text : Z -> str) : user_data -> user_data -> Prop :=
| step_date_button ud :
    date_flow_step date_text ud (delete_callback_date ud)
| step_date_input user_id text connected sheet ud :
    date_flow_step date_text ud
      (handle_date_input date_text user_id text connected sheet ud).1
| step_flow_popped ud :
    date_flow_step date_text ud
      (pop_all ["delete_state"; "start_date"; "records_to_delete"] ud)
| step_other_handler ud ud' :
    ud' !! "delete_state" = ud !! "delete_state" ->
    ud' !! "start_date" = ud !! "start_date" ->
    date_flow_step date_text ud ud'.

(** The contexts that the handlers can produce from the empty one. *)
Inductive date_flow_reachable (date_text : Z -> str) : user_data -> Prop :=
| reach_empty : date_flow_reachable date_text ∅
| reach_step ud ud' :
    date_flow_reachable date_text ud -> date_flow_step date_text ud ud' ->
    date_flow_reachable date_text ud'.

(** The date of a record, when it is a text. *)
Definition date_of (r : sheet_record) : str :=
  match rec_date r with
  | CStr t => t
  | CNum _ => []
  end.

(** The records of a user between two dates, by their numbers. *)
Definition selected_by_number (user_id : Z) (start_date end_date : str)
    (all_records : list sheet_record) : list sheet_record :=
  List.filter
    (fun r =>
       str_eqb (rec_user r) (str_of_Z user_id)
       && (date_number start_date <=? date_number (date_of r))
       && (date_number (date_of r) <=? date_number end_date))
    all_records.

(** ** Processing a message: [process_financial_message] *)

(** How the handlers of a message end: [Message_raised_UnboundLocalError]
    is the exception of a local name that is read before it is
    bound. *)
Inductive message_end : Type :=
| Message_returned
| Message_raised (e : exn)
| Message_raised_UnboundLocalError.

(** The reply that a handler sends with [reply_text], outside a [try]:
    the number of the message sent, or the exception that the call
    raises (a text that Telegram refuses as Markdown, the network). *)
Definition after_reply (reply : result Z) : message_end :=
  match reply with
  | Ok _ => Message_returned
  | Raise e => Message_raised e
  end.

(** [if 'messages_to_delete' not in user_data: user_data[...] = []]
    followed by [user_data['messages_to_delete'].append(message_id)];
    [append] exists on lists only. *)
Definition note_message (message_id : Z) (ud : user_data) : result user_data :=
  let ud :=
    match ud !! "messages_to_delete" with
    | None => <["messages_to_delete" := VList []]> ud
    | Some _ => ud
    end in
  match ud !! "messages_to_delete" with
  | Some (VList l) =>
      Ok (<["messages_to_delete" :=
              VList (l ++ [VNum (Q2Qc (inject_Z message_id))])]> ud)
  | _ => Raise AttributeError
  end.

(** The single transaction of [process_financial_message], from the
    result of [parse_financial_data] on: the context is written, then
    the reply is sent. *)
Definition single_transaction (parse_date_from_text : str -> pyval)
    (reply : result Z) (message_text : str) (parsed_data : dict)
    (ud : user_data) : user_data * message_end :=
  let parsed_data :=
    if negb (truthy (dict_get "date" parsed_data))
    then dict_set "date" (parse_date_from_text message_text) parsed_data
    else parsed_data in
  if negb (truthy (dict_get "amount" parsed_data)) then
    (<["pending_category" :=
         dict_get_default "category" (VStr (L "Lainnya")) parsed_data]>
       (<["detected_date" := dict_get "date" parsed_data]>
          (<["pending_message" := VStr message_text]> ud)),
     after_reply reply)
  else
    let amount := dict_get_default "amount" (VNum (Q2Qc 0)) parsed_data in
    match positive amount with
    | Raise e => (ud, Message_raised e)
    | Ok _ =>
        let category :=
          dict_get_default "category" (VStr (L "Lainnya")) parsed_data in
        let description :=
          dict_get_default "description" (VStr message_text) parsed_data in
        let date := dict_get "date" parsed_data in
        (<["pending_transaction" :=
             VDict [ ("date", date); ("amount", amount);
                     ("category", category);
                     ("description", description) ]]>
           (<["detected_date" := date]>
              (<["pending_message" := VStr message_text]> ud)),
         after_reply reply)
    end.

Section Pipeline.
(** [json.loads], and [str] on a value that is no string. *)
Variable json_loads : str -> option json.
Variable py_str : pyval -> str.
(** [parse_date_from_text], which [process_financial_message] calls for
    a result without a date. *)
Variable parse_date_from_text : str -> pyval.

(** [str(v)] *)
Definition str_value (v : pyval) : pyval :=
  match v with
  | VStr s => VStr s
  | VDate d => VDate d
  | _ => VStr (py_str v)
  end.

(** The loop of [process_multiple_transactions] that copies the
    transactions; [clock i] is the day read for transaction [i]. *)
Fixpoint processed_transactions (clock : nat -> Z) (i : nat)
    (transactions : list dict) : result (list dict) :=
  match transactions with
  | [] => Ok []
  | transaction :: rest =>
      let* amount :=
        float_of (dict_get_default "amount" (VNum (Q2Qc 0)) transaction) in
      let processed_transaction : dict :=
        [ ("amount", VNum amount);
          ("category",
           str_value (dict_get_default "category" (VStr (L "Lainnya"))
                                       transaction));
          ("description",
           str_value (dict_get_default "description"
                        (VStr (L "Transaksi " ++ decimal (N.of_nat i)))
                        transaction));
          ("date",
           str_value (dict_get_default "date" (VDate (clock i))
                                       transaction)) ] in
      let* rest' := processed_transactions clock (S i) rest in
      Ok (processed_transaction :: rest')
  end.

(** [process_multiple_transactions]: the transactions are stored, the
    message that asks for confirmation is sent, and its number is
    recorded. *)
Definition process_multiple_transactions (clock : nat -> Z) (reply : result Z)
    (transactions : list dict) (ud : user_data) : user_data * message_end :=
  match processed_transactions clock 1 transactions with
  | Raise e => (ud, Message_raised e)
  | Ok processed =>
      let ud :=
        <["pending_multiple_transactions" := VList (map VDict processed)]> ud in
      match reply with
      | Raise e => (ud, Message_raised e)
      | Ok reply_id =>
          match note_message reply_id ud with
          | Ok ud' => (ud', Message_returned)
          | Raise e => (ud, Message_raised e)
          end
      end
  end.

(** The days that the handlers read, the completion service for each
    line, and the reply of the handler. *)
Record world : Type := {
  current_date : Z;                   (* in [parse_financial_data] *)
  local_date : Z;                     (* in [parse_transaction_locally] *)
  clock : nat -> Z;                   (* for line [i] *)
  local_clock : nat -> Z;
  copy_clock : nat -> Z;              (* in [process_multiple_transactions] *)
  generate_func : nat -> result response;
  generate_funcs : nat -> nat -> result response;
  reply : result Z                    (* [reply_text] *)
}.

(** The lines of a message, parsed and offered for confirmation. *)
Definition multiple_lines (w : world) (message_text : str)
    (no_transaction : user_data -> user_data * message_end) (ud : user_data)
    : user_data * message_end :=
  let transactions :=
    parse_multiple_transactions json_loads (clock w) (local_clock w)
      (generate_funcs w) message_text in
  match transactions with
  | [] => no_transaction ud
  | _ :: _ =>
      process_multiple_transactions (copy_clock w) (reply w) transactions ud
  end.

(** [process_financial_message]; [message_id] is the number of the
    user's message.  The name [datetime] is local to the function,
    which imports it before its last use only: the branch that takes
    the text as the amount asked for reads it unbound, in the default
    of [context.user_data.get('date', ...)], before it writes
    anything. *)
Definition process_financial_message (w : world) (message_id : Z)
    (message_text : str) (ud : user_data) : user_data * message_end :=
  match note_message message_id ud with
  | Raise e => (ud, Message_raised e)
  | Ok ud =>
      if eq_str (default VNone (ud !! "conversation_state")) "waiting_amount"
      then
        match parse_indonesian_amount message_text with
        | Some amount => (ud, Message_raised_UnboundLocalError)
        | None => (ud, after_reply (reply w))
        end
      else if (1 <? length (nonblank_lines message_text))%nat then
        multiple_lines w message_text
          (fun ud =>
             match reply w with
             | Raise e => (ud, Message_raised e)
             | Ok reply_id =>
                 match note_message reply_id ud with
                 | Ok ud' => (ud', Message_returned)
                 | Raise e => (ud, Message_raised e)
                 end
             end) ud
      else
        match
          parse_financial_data json_loads (current_date w) (local_date w)
            (generate_func w) message_text
        with
        | Ok parsed_data =>
            single_transaction parse_date_from_text (reply w) message_text
              parsed_data ud
        | Raise e => (ud, Message_raised e)
        end
  end.

(** What [message_handler] does with a text outside the flow of
    deletion. *)
Definition transaction_processing (w : world) (message_id : Z)
    (message_text : str) (ud : user_data) : user_data * message_end :=
  if (1 <? length (nonblank_lines message_text))%nat then
    multiple_lines w message_text (fun ud => (ud, after_reply (reply w))) ud
  else process_financial_message w message_id message_text ud.
End Pipeline.

(** *** [button_callback]: the buttons of the kind of transaction *)

(** The branch of [button_callback] for a [type_...] button: the
    query is answered, the context written, the message edited. *)
Definition button_type (answered edited : option exn) (data : str) (today : Z)
    (ud : user_data) : user_data * ending :=
  match answered with
  | Some e => (ud, Raised e)
  | None =>
      match index (py_split (L "_") data) 1 with
      | Raise e => (ud, Raised e)
      | Ok transaction_type =>
          let message_text := default (VStr []) (ud !! "pending_message") in
          let detected_date := default (VDate today) (ud !! "detected_date") in
          (<["conversation_state" := VStr STATE_WAITING_AMOUNT]>
             (<["date" := detected_date]>
                (<["description" := message_text]>
                   (<["transaction_type" := VStr transaction_type]> ud))),
           after_send edited)
      end
  end.

(** [data.split("_", 1)[1]]: the text after the first underscore. *)
Fixpoint after_underscore (data : str) : result str :=
  match data with
  | [] => Raise IndexError
  | a :: rest => if eqb_ascii a "_" then Ok rest else after_underscore rest
  end.

(** [button_callback] *)
Definition button_callback (answered edited : option exn) (authorized : bool)
    (data : str) (user_id : Z) (today : Z) (timestamp : str)
    (ud : user_data) (st : store) : user_data * store * ending :=
  if negb authorized then (ud, st, after_send answered)
  else if starts_with (L "type_") data then
    let '(ud', e) := button_type answered edited data today ud in (ud', st, e)
  else if starts_with (L "confirm_") data then
    match after_underscore data with
    | Raise e => (ud, st, Raised e)
    | Ok action =>
        button_confirm_sent answered edited authorized action user_id today
          timestamp ud st
    end
  else (ud, st, Returned).

(** ** Deleting the rows of a range of dates: [confirm_delete_callback] *)

Section DeleteByDate.
(** The text of a date made by [strftime("%Y-%m-%d")]. *)
Variable date_text : Z -> str.

(** The elements that [for x in v] goes through. *)
Definition py_iter (v : pyval) : result (list pyval) :=
  match v with
  | VList l => Ok l
  | VStr s => Ok (map (fun a => VStr [a]) s)
  | VDate d => Ok (map (fun a => VStr [a]) (date_text d))
  | VDict d => Ok (map (fun kv => VStr (L (fst kv))) d)
  | VNone | VBool _ | VNum _ => Raise TypeError
  end.

(** [record.get('Timestamp') == record_to_delete.get('Timestamp')],
    the left record made of the texts of a row. *)
Definition same_timestamp (header row : list str) (record_to_delete : dict)
    : bool :=
  match record_get (L "Timestamp") header row,
        dict_get "Timestamp" record_to_delete with
  | None, VNone => true
  | Some s, VStr t => str_eqb s t
  | Some s, VDate d => str_eqb s (date_text d)
  | _, _ => false
  end.

(** The inner loop: the number of the first row of the user with the
    timestamp of [record_to_delete]; rows are numbered from [i]. *)
Fixpoint first_row (user_id : Z) (header : list str) (record_to_delete : pyval)
    (i : nat) (body : list (list str)) : result (option nat) :=
  match body with
  | [] => Ok None
  | row :: body' =>
      if owned_by user_id header row then
        let* d := as_dict record_to_delete in
        if same_timestamp header row d then Ok (Some i)
        else first_row user_id header record_to_delete (S i) body'
      else first_row user_id header record_to_delete (S i) body'
  end.

(** The outer loop: the row numbers found for the records. *)
Fixpoint rows_of_records (user_id : Z) (header : list str)
    (body : list (list str)) (records_to_delete : list pyval)
    : result (list nat) :=
  match records_to_delete with
  | [] => Ok []
  | record_to_delete :: rest =>
      let* found := first_row user_id header record_to_delete 2 body in
      let* others := rows_of_records user_id header body rest in
      Ok (match found with
          | Some i => i :: others
          | None => others
          end)
  end.

(** The branch [action == "date"] of [confirm_delete_callback]: the
    context, the sheet and the rows removed with their numbers. *)
Definition confirm_delete_date (user_id : Z) (sheet : list (list str))
    (ud : user_data)
    : result (user_data * list (list str) * list (nat * list str)) :=
  match ud !! "records_to_delete" with
  | None => Ok (ud, sheet, [])
  | Some records_to_delete =>
      let all_values := sheet in
      let* header := index all_values 0 in
      let* records := py_iter records_to_delete in
      let* rows_to_delete :=
        rows_of_records user_id header (drop 1 all_values) records in
      let* deleted :=
        delete_loop (sorted_desc Nat.ltb rows_to_delete) sheet [] in
      Ok (pop_all ["delete_state"; "start_date"; "records_to_delete"] ud,
          deleted.1, deleted.2)
  end.

(** [confirm_delete_callback]; [connected] tells whether the sheet is
    available. *)
Definition confirm_delete_callback (connected : bool) (data : str)
    (user_id : Z) (sheet : list (list str)) (ud : user_data)
    : result (user_data * list (list str) * list (nat * list str)) :=
  let* action := index (py_split (L "_") data) 2 in
  if negb connected then Ok (ud, sheet, [])
  else if str_eqb action (L "all") then
    let* deleted := confirm_delete_all user_id sheet in
    Ok (ud, deleted.1, deleted.2)
  else if str_eqb action (L "date") then confirm_delete_date user_id sheet ud
  else Ok (ud, sheet, []).
End DeleteByDate.

(** The row is one of those that the records name: it belongs to the
    user and has the timestamp of a record. *)
Definition named_by (date_text : Z -> str) (user_id : Z) (header : list str)
    (records : list dict) (row : list str) : bool :=
  owned_by user_id header row
  && existsb (same_timestamp date_text header row) records.

(** The number of the first row of the user with the timestamp of the
    record [d]. *)
Fixpoint first_pos (date_text : Z -> str) (user_id : Z) (header : list str)
    (d : dict) (i : nat) (body : list (list str)) : option nat :=
  match body with
  | [] => None
  | row :: body' =>
      if owned_by user_id header row && same_timestamp date_text header row d
      then Some i
      else first_pos date_text user_id header d (S i) body'
  end.

(** The rows of the user have timestamps different from one another. *)
Definition distinct_timestamps (user_id : Z) (header : list str)
    (body : list (list str)) : Prop :=
  forall p1 p2 row1 row2,
    body !! p1 = Some row1 -> body !! p2 = Some row2 ->
    owned_by user_id header row1 = true ->
    owned_by user_id header row2 = true ->
    record_get (L "Timestamp") header row1
    = record_get (L "Timestamp") header row2 ->
    p1 = p2.

(** The rows of [sheet], numbered from [i], whose number is not in
    [numbers]. *)
Fixpoint without_rows (numbers : list nat) (i : nat) (sheet : list (list str))
    : list (list str) :=
  match sheet with
  | [] => []
  | row :: rest =>
      if existsb (Nat.eqb i) numbers then without_rows numbers (S i) rest
      else row :: without_rows numbers (S i) rest
  end.

(** ** The figures of the report: [report] *)

(** A record of the user as the report reads it:
    [float(record['Amount'])] and the text
    [record.get('Category', 'Lainnya')].  The sums below are the exact
    ones; the sums of floats of the source are these for
    [exact_records]. *)
Record entry : Type := {
  e_amount : Qc;
  e_category : str
}.

(** [sum(float(record['Amount']) for record in user_records
         if float(record['Amount']) > 0)] *)
Definition total_income (user_records : list entry) : Qc :=
  fold_left (fun acc record => (acc + e_amount record)%Qc)
    (List.filter (fun record => Qc_ltb (Q2Qc 0) (e_amount record)) user_records)
    (Q2Qc 0).

(** [sum(abs(float(record['Amount'])) for record in user_records
         if float(record['Amount']) < 0)] *)
Definition total_expense (user_records : list entry) : Qc :=
  fold_left (fun acc record => (acc + Qc_abs (e_amount record))%Qc)
    (List.filter (fun record => Qc_ltb (e_amount record) (Q2Qc 0)) user_records)
    (Q2Qc 0).

Definition balance (user_records : list entry) : Qc :=
  (total_income user_records - total_expense user_records)%Qc.

(** [if category in d: d[category] += amount
     else: d[category] = amount] *)
Definition add_to (category : str) (amount : Qc) (d : list (str * Qc))
    : list (str * Qc) :=
  if has_key category d
  then update category (fun total => (total + amount)%Qc) d
  else d ++ [(category, amount)].

(** The two dictionaries of the loop over the records. *)
Record breakdown : Type := {
  expense_by_category : list (str * Qc);
  income_by_category : list (str * Qc)
}.

Definition add_record (b : breakdown) (record : entry) : breakdown :=
  let amount := e_amount record in
  let category := e_category record in
  if Qc_ltb amount (Q2Qc 0) then
    {| expense_by_category :=
         add_to category (Qc_abs amount) (expense_by_category b);
       income_by_category := income_by_category b |}
  else
    {| expense_by_category := expense_by_category b;
       income_by_category := add_to category amount (income_by_category b) |}.

Definition by_category (user_records : list entry) : breakdown :=
  fold_left add_record user_records
    {| expense_by_category := []; income_by_category := [] |}.

(** The sum of the amounts of the records. *)
Definition sum_of_amounts (user_records : list entry) : Qc :=
  foldr (fun record acc => (e_amount record + acc)%Qc) (Q2Qc 0) user_records.

(** Whole amounts whose absolute values add up to less than [2^53]:
    every sum that the report makes of them as floats, in whatever
    order, is exact, and is the sum that the definitions above
    compute. *)
Definition exact_records (user_records : list entry) : Prop :=
  Forall (fun record => whole (e_amount record)) user_records
  /\ (foldr (fun record acc => (Qc_abs (e_amount record) + acc)%Qc) (Q2Qc 0)
            user_records
      < Q2Qc (inject_Z (2 ^ 53)))%Qc.

(** * Properties *)

(** ** Strings *)

Lemma eqb_ascii_true a b : eqb_ascii a b = true <-> a = b.
Proof. unfold eqb_ascii. apply Ascii.eqb_eq. Qed.

Lemma str_eqb_true (s t : str) : str_eqb s t = true <-> s = t.
Proof. unfold str_eqb. apply bool_decide_eq_true. Qed.

Lemma starts_with_spec p s :
  starts_with p s = true <-> exists post, s = p ++ post.
Proof.
  revert s. induction p as [|a p IH]; intros s; simpl.
  - split; eauto.
  - destruct s as [|b s].
    + split; [discriminate | intros [post H]; discriminate].
    + rewrite andb_true_iff, eqb_ascii_true, IH. split.
      * intros [-> [post ->]]. eauto.
      * intros [post H]. injection H as -> ->. eauto.
Qed.

Lemma py_in_spec w s : py_in w s = true <-> occurs w s.
Proof.
  unfold occurs. induction s as [|b s IH].
  - simpl. rewrite orb_false_r, starts_with_spec. split.
    + intros [post H]. exists [], post. exact H.
    + intros (pre & post & H). destruct pre; [eauto |discriminate].
  - cbn [py_in]. rewrite orb_true_iff, starts_with_spec, IH. split.
    + intros [[post H] | (pre & post & H)].
      * exists [], post. exact H.
      * exists (b :: pre), post. rewrite H. reflexivity.
    + intros (pre & post & H). destruct pre as [|a pre].
      * left. eauto.
      * right. injection H as -> ->. eauto.
Qed.

Lemma any_in_spec kws text : any_in kws text = true <-> some_cue kws text.
Proof.
  unfold any_in, some_cue. rewrite existsb_exists.
  split; intros (kw & Hin & H); exists kw; split; auto; now apply py_in_spec.
Qed.

(** ** The heuristic classifier *)

Lemma classify_income text_lower :
  classify text_lower = "income"%string <->
  some_cue income_keywords text_lower /\ ~ some_cue expense_keywords text_lower.
Proof.
  unfold classify. rewrite <- !any_in_spec.
  destruct (any_in income_keywords text_lower),
    (any_in expense_keywords text_lower); simpl; intuition congruence.
Qed.

Lemma classify_cases text_lower :
  classify text_lower = "income"%string \/ classify text_lower = "expense"%string.
Proof. unfold classify. destruct (_ && _); auto. Qed.

(** C2. The type decided by the local fallback parser is [income]
    exactly when an income cue occurs in the lower-cased text and no
    expense cue does; in every other case it is [expense]. *)
Theorem classifier_default_to_expense (current_date : Z) (text : str) :
  let transaction_type :=
    dict_get "transaction_type" (parse_transaction_locally current_date text) in
  let only_income :=
    some_cue income_keywords (py_lower text)
    /\ ~ some_cue expense_keywords (py_lower text) in
  (transaction_type = VStr (L "income") <-> only_income)
  /\ (~ only_income -> transaction_type = VStr (L "expense")).
Proof.
  cbv zeta. unfold parse_transaction_locally. cbn [dict_get dict_lookup String.eqb Ascii.eqb Bool.eqb].
  pose proof (classify_income (py_lower text)) as Hi.
  destruct (classify_cases (py_lower text)) as [E | E]; rewrite E in *.
  - split; [split; [intros _; now apply Hi | reflexivity] |].
    intros Hn. exfalso. apply Hn, Hi. reflexivity.
  - split; [split |].
    + intros H. exfalso. vm_compute in H. discriminate.
    + intros H. apply Hi in H. discriminate.
    + reflexivity.
Qed.

(** ** The matcher *)

Section MatcherFacts.
Context {R : Type}.
Implicit Types (k : @kont R) (r : regex) (s : str) (c : option str).

(** Whatever the matcher returns comes from its continuation, called
    on what is left after a word of the language. *)
Lemma star_loop_sound r k n :
  (forall s c k' x, mt r s c k' = Some x ->
     exists s1 s2 c', s = s1 ++ s2 /\ matches r s1 /\ k' s2 c' = Some x) ->
  forall s c x, star_loop (mt r) k n s c = Some x ->
    exists s1 s2 c', s = s1 ++ s2 /\ matches (Star r) s1 /\ k s2 c' = Some x.
Proof.
  intros Hbody. induction n as [|n IH]; intros s c x; simpl.
  - intros H. exists [], s, c. repeat split; auto. constructor.
  - destruct (mt r s c _) as [y|] eqn:E.
    + intros [= ->]. apply Hbody in E as (s1 & s2 & c' & -> & Hm & Hk).
      destruct (_ <? _)%nat; [|discriminate].
      apply IH in Hk as (s3 & s4 & c'' & -> & Hm' & Hk).
      exists (s1 ++ s3), s4, c''. rewrite app_assoc.
      repeat split; auto. now constructor.
    + intros H. exists [], s, c. repeat split; auto. constructor.
Qed.

Lemma mt_sound r : forall s c k x,
  mt r s c k = Some x ->
  exists s1 s2 c', s = s1 ++ s2 /\ matches r s1 /\ k s2 c' = Some x.
Proof.
  induction r as [|p|r1 IH1 r2 IH2|r1 IH1 r2 IH2|r IH|r IH];
    intros s c k x; cbn [mt].
  - intros H. exists [], s, c. repeat split; auto. constructor.
  - destruct s as [|a s]; [discriminate|].
    destruct (p a) eqn:Hp; [|discriminate].
    intros H. exists [a], s, c. repeat split; auto. now constructor.
  - intros H. apply IH1 in H as (s1 & s2 & c1 & -> & Hm1 & H).
    apply IH2 in H as (s3 & s4 & c2 & -> & Hm2 & H).
    exists (s1 ++ s3), s4, c2. rewrite app_assoc.
    repeat split; auto. now constructor.
  - destruct (mt r1 s c k) as [y|] eqn:E.
    + intros [= ->]. apply IH1 in E as (s1 & s2 & c1 & -> & Hm & H).
      exists s1, s2, c1. repeat split; auto. now apply M_alt_l.
    + intros H. apply IH2 in H as (s1 & s2 & c1 & -> & Hm & H).
      exists s1, s2, c1. repeat split; auto. now apply M_alt_r.
  - apply star_loop_sound. exact IH.
  - intros H. apply IH in H as (s1 & s2 & c1 & -> & Hm & H).
    eexists s1, s2, _. repeat split; eauto. now constructor.
Qed.

Lemma mt_fails r s c k :
  (forall s' c', k s' c' = None) -> mt r s c k = None.
Proof.
  intros Hk. destruct (mt r s c k) as [x|] eqn:E; [|reflexivity].
  apply mt_sound in E as (s1 & s2 & c' & _ & _ & H).
  rewrite Hk in H. discriminate.
Qed.

(** The matcher only looks at the values of its continuation. *)
Lemma mt_ext r : forall s c k1 k2,
  (forall s' c', k1 s' c' = k2 s' c') -> mt r s c k1 = mt r s c k2.
Proof.
  induction r as [|p|r1 IH1 r2 IH2|r1 IH1 r2 IH2|r IH|r IH];
    intros s c k1 k2 Hk; cbn [mt].
  - apply Hk.
  - destruct s as [|a s]; [reflexivity|]. destruct (p a); auto.
  - apply IH1. intros s' c'. now apply IH2.
  - rewrite (IH1 s c k1 k2 Hk), (IH2 s c k1 k2 Hk). reflexivity.
  - generalize (length s) as n. intros n. revert s c.
    induction n as [|n IHn]; intros s c; simpl; [apply Hk|].
    rewrite Hk.
    erewrite IH; [reflexivity|]. intros s' c'. simpl.
    destruct (_ <? _)%nat; auto.
  - apply IH. intros s' c'. apply Hk.
Qed.

(** [length s] rounds are enough for the iteration: more rounds give
    the same result. *)
Lemma star_loop_enough r k n : forall s c,
  (length s <= n)%nat ->
  star_loop (mt r) k (S n) s c = star_loop (mt r) k n s c.
Proof.
  induction n as [|n IH]; intros s c Hlen.
  - destruct s; [|simpl in Hlen; lia]. simpl.
    rewrite mt_fails; [reflexivity|]. intros s' c'. reflexivity.
  - change (star_loop (mt r) k (S (S n)) s c) with
      (match mt r s c (fun s' c' =>
               if (length s' <? length s)%nat
               then star_loop (mt r) k (S n) s' c' else None) with
       | Some x => Some x
       | None => k s c
       end).
    change (star_loop (mt r) k (S n) s c) with
      (match mt r s c (fun s' c' =>
               if (length s' <? length s)%nat
               then star_loop (mt r) k n s' c' else None) with
       | Some x => Some x
       | None => k s c
       end).
    erewrite mt_ext; [reflexivity|]. intros s' c'. simpl.
    destruct (length s' <? length s)%nat eqn:E; [|reflexivity].
    apply Nat.ltb_lt in E. apply IH. lia.
Qed.

Lemma star_loop_fuel r k s c n :
  (length s <= n)%nat ->
  star_loop (mt r) k n s c = mt (Star r) s c k.
Proof.
  intros H. cbn [mt]. induction H as [|n H IH]; [reflexivity|].
  rewrite star_loop_enough; auto.
Qed.

(** A greedy iteration of a character class takes all the characters
    of the class when the continuation accepts what follows. *)
Lemma star_chr_greedy p ds rest c k x :
  Forall (fun a => p a = true) ds ->
  (forall a rest', rest = a :: rest' -> p a = false) ->
  k rest c = Some x ->
  mt (Star (Chr p)) (ds ++ rest) c k = Some x.
Proof.
  intros Hds Hrest Hk. cbn [mt].
  assert (forall n, (length (ds ++ rest) <= n)%nat ->
            star_loop (mt (Chr p)) k n (ds ++ rest) c = Some x) as H;
    [|apply H; lia].
  induction Hds as [|a ds Ha Hds IH]; intros n Hn.
  - simpl. destruct n as [|n]; simpl; [exact Hk|].
    destruct rest as [|b rest']; [exact Hk|].
    rewrite (Hrest b rest' eq_refl). exact Hk.
  - destruct n as [|n]; [simpl in Hn; lia|].
    simpl. rewrite Ha.
    assert ((length (ds ++ rest) <? S (length (ds ++ rest)))%nat = true) as ->
      by (apply Nat.ltb_lt; lia).
    rewrite IH; [reflexivity|]. simpl in Hn. lia.
Qed.

(** A word of a character class in the language of its iteration. *)
Lemma matches_star_chr p s :
  matches (Star (Chr p)) s -> Forall (fun a => p a = true) s.
Proof.
  intros H. remember (Star (Chr p)) as r eqn:Er.
  induction H; try discriminate; [constructor|].
  injection Er as ->. inversion H; subst. simpl.
  constructor; auto.
Qed.
End MatcherFacts.

(** ** Character classes *)

Ltac by_cases_on a :=
  destruct a as [[] [] [] [] [] [] [] []]; vm_compute; intuition congruence.

Lemma digit_facts a :
  is_digit a = true ->
  is_space a = false /\ is_sep a = false /\ lower_ascii a = a
  /\ eqb_ascii a "-" = false /\ eqb_ascii a "+" = false
  /\ eqb_ascii a "." = false /\ eqb_ascii a "," = false.
Proof. by_cases_on a. Qed.

Lemma sep_facts a :
  is_sep a = true ->
  is_space a = false /\ is_digit a = false /\ lower_ascii a = a.
Proof. by_cases_on a. Qed.

Lemma space_facts a :
  is_space a = true ->
  is_digit a = false /\ is_sep a = false /\ lower_ascii a = a
  /\ eqb_ascii a "j" = false /\ eqb_ascii a "k" = false
  /\ eqb_ascii a "r" = false.
Proof. by_cases_on a. Qed.

Lemma lower_digit a : is_digit (lower_ascii a) = is_digit a.
Proof. by_cases_on a. Qed.

Lemma lower_space a : is_space (lower_ascii a) = is_space a.
Proof. by_cases_on a. Qed.

Lemma lower_lower a : lower_ascii (lower_ascii a) = lower_ascii a.
Proof. by_cases_on a. Qed.

(** ** Prefixes made of one class of characters *)

Lemma stops_nil p : stops p [].
Proof. intros a s' H. discriminate. Qed.

Lemma stops_cons p a s : p a = false -> stops p (a :: s).
Proof. intros H b s' [= <- _]. exact H. Qed.

Lemma stops_app p s t :
  Forall (fun a => p a = false) s -> stops p t -> stops p (s ++ t).
Proof.
  intros Hs Ht. destruct Hs as [|a s Ha Hs]; [exact Ht|].
  now apply stops_cons.
Qed.

Lemma span_app p ds rest :
  Forall (fun a => p a = true) ds -> stops p rest ->
  span p (ds ++ rest) = (ds, rest).
Proof.
  intros Hds Hrest. induction Hds as [|a ds Ha Hds IH]; simpl.
  - destruct rest as [|b rest]; [reflexivity|].
    simpl. now rewrite (Hrest b rest eq_refl).
  - now rewrite Ha, IH.
Qed.

(** Two splittings of a string into a maximal prefix of the class and
    the rest agree. *)
Lemma class_prefix_unique p l1 r1 l2 r2 :
  l1 ++ r1 = l2 ++ r2 ->
  Forall (fun a => p a = true) l1 -> Forall (fun a => p a = true) l2 ->
  stops p r1 -> stops p r2 ->
  l1 = l2 /\ r1 = r2.
Proof.
  intros E H1 H2 S1 S2.
  pose proof (span_app p l1 r1 H1 S1) as A.
  pose proof (span_app p l2 r2 H2 S2) as B.
  rewrite E in A. rewrite A in B. now injection B.
Qed.

Lemma lstrip_stops s : stops is_space s -> lstrip s = s.
Proof.
  intros H. destruct s as [|a s]; [reflexivity|].
  simpl. now rewrite (H a s eq_refl).
Qed.

Lemma lstrip_app pre s :
  s <> [] -> stops is_space s ->
  exists pre', lstrip (pre ++ s) = pre' ++ s /\ exists u, pre = u ++ pre'.
Proof.
  intros Hne Hs. induction pre as [|a pre IH]; simpl.
  - exists []. split; [now apply lstrip_stops|]. now exists [].
  - destruct (is_space a).
    + destruct IH as (pre' & -> & u & ->). exists pre'.
      split; [reflexivity|]. now exists (a :: u).
    + exists (a :: pre). split; [reflexivity|]. now exists [].
Qed.

Lemma rstrip_app s post :
  s <> [] -> stops is_space (rev s) ->
  exists post', rstrip (s ++ post) = s ++ post' /\ exists u, post = post' ++ u.
Proof.
  intros Hne Hs. unfold rstrip. rewrite rev_app_distr.
  destruct (lstrip_app (rev post) (rev s)) as (p' & E & u & Hu); auto.
  { intros H. apply Hne. rewrite <- (rev_involutive s), H. reflexivity. }
  rewrite E, rev_app_distr, rev_involutive. exists (rev p').
  split; [reflexivity|]. exists (rev u).
  rewrite <- rev_app_distr, <- Hu. now rewrite rev_involutive.
Qed.

(** ** The patterns of the amount normaliser *)

Section PatternFacts.
Context {R : Type}.
Implicit Types (k : @kont R) (s : str) (c : option str).

Lemma mt_cat r1 r2 s c k :
  mt (Cat r1 r2) s c k = mt r1 s c (fun s' c' => mt r2 s' c' k).
Proof. reflexivity. Qed.

Lemma mt_grp r s c k :
  mt (Grp r) s c k =
  mt r s c (fun s' _ => k s' (Some (take (length s - length s') s))).
Proof. reflexivity. Qed.

Lemma mt_alt r1 r2 s c k :
  mt (Alt r1 r2) s c k =
  match mt r1 s c k with
  | Some x => Some x
  | None => mt r2 s c k
  end.
Proof. reflexivity. Qed.

Lemma mt_eps s c k : mt Eps s c k = k s c.
Proof. reflexivity. Qed.

Lemma mt_chr_cons p a s c k :
  mt (Chr p) (a :: s) c k = if p a then k s c else None.
Proof. reflexivity. Qed.

Lemma mt_chr_stops p s c k : stops p s -> mt (Chr p) s c k = None.
Proof.
  intros H. destruct s as [|a s]; [reflexivity|].
  simpl. now rewrite (H a s eq_refl).
Qed.

(** [\d+] takes a whole run of digits. *)
Lemma plus_digit_greedy ds rest c k x :
  digits ds -> stops is_digit rest -> k rest c = Some x ->
  mt (plus re_d) (ds ++ rest) c k = Some x.
Proof.
  intros [Hne Hds] Hr Hk. destruct Hds as [|a ds Ha Hds]; [congruence|].
  unfold plus. rewrite mt_cat. unfold re_d at 1. simpl app.
  rewrite mt_chr_cons, Ha. now apply star_chr_greedy.
Qed.

(** A pattern that begins with a number does not match where no digit
    stands. *)
Lemma number_needs_digit tail s c k :
  stops is_digit s -> mt (Cat (Grp re_number) tail) s c k = None.
Proof.
  intros H. rewrite mt_cat, mt_grp. unfold re_number, plus.
  rewrite !mt_cat. now apply mt_chr_stops.
Qed.

Lemma take_numeral (num : str) (rest : str) :
  take (length (num ++ rest) - length rest) (num ++ rest) = num.
Proof.
  rewrite length_app. replace (_ - _)%nat with (length num) by lia.
  apply take_app_length.
Qed.

(** The number, the white space after it and then [tail]: when [tail]
    matches what follows, the greedy match has the whole numeral in
    group 1. *)
Lemma number_then_tail tail ip frac fp ws rest c k x :
  digits ip -> fraction frac fp -> spaces ws ->
  stops is_digit rest -> stops is_sep rest -> stops is_space rest ->
  mt tail rest (Some (ip ++ frac)) k = Some x ->
  mt (Cat (Grp re_number) (Cat (Star re_s) tail))
     (ip ++ frac ++ ws ++ rest) c k = Some x.
Proof.
  intros Hip Hfrac Hws Hd Hsep Hsp Htail.
  assert (stops is_digit (ws ++ rest)) as Hd'.
  { apply stops_app; auto. eapply Forall_impl; [exact Hws|].
    intros a Ha. now apply space_facts in Ha. }
  assert (stops is_sep (ws ++ rest)) as Hsep'.
  { apply stops_app; auto. eapply Forall_impl; [exact Hws|].
    intros a Ha. now apply space_facts in Ha. }
  assert (mt (Cat (Star re_s) tail) (ws ++ rest) (Some (ip ++ frac)) k
          = Some x) as Hspaces.
  { rewrite mt_cat. apply star_chr_greedy; auto. }
  rewrite mt_cat, mt_grp. unfold re_number. rewrite mt_cat.
  destruct Hfrac as [[-> ->] | (sep & Hs & Hfp & ->)].
  - simpl app. rewrite app_nil_r in Hspaces.
    apply plus_digit_greedy; auto.
    unfold opt. rewrite mt_alt, mt_cat. unfold re_sep.
    rewrite mt_chr_stops by exact Hsep'.
    rewrite mt_eps, take_numeral. exact Hspaces.
  - apply plus_digit_greedy; auto.
    { apply stops_cons. now apply sep_facts in Hs. }
    unfold opt. rewrite mt_alt, mt_cat. unfold re_sep. simpl app.
    rewrite mt_chr_cons, Hs.
    rewrite plus_digit_greedy with (x := x); auto.
    replace (ip ++ sep :: fp ++ ws ++ rest)
      with ((ip ++ sep :: fp) ++ ws ++ rest)
      by (now rewrite <- app_assoc).
    rewrite take_numeral. exact Hspaces.
Qed.
End PatternFacts.

Lemma re_search_unfold r s :
  re_search r s =
  match mt r s None found with
  | Some m => Some m
  | None =>
      match s with
      | [] => None
      | _ :: s' => re_search r s'
      end
  end.
Proof. destruct s; reflexivity. Qed.

Lemma re_search_skip tail pre t :
  no_digit pre ->
  re_search (Cat (Grp re_number) tail) (pre ++ t)
  = re_search (Cat (Grp re_number) tail) t.
Proof.
  intros H. induction H as [|a pre Ha H IH]; [reflexivity|].
  simpl app. rewrite re_search_unfold.
  rewrite number_needs_digit by (now apply stops_cons). exact IH.
Qed.

Lemma re_search_no_digit tail s :
  no_digit s -> re_search (Cat (Grp re_number) tail) s = None.
Proof.
  intros H. rewrite <- (app_nil_r s), re_search_skip by exact H.
  rewrite re_search_unfold. now rewrite number_needs_digit by apply stops_nil.
Qed.

Ltac invert_matches :=
  repeat match goal with
    | H : matches (Cat _ _) _ |- _ => inversion H; subst; clear H
    | H : matches (Alt _ _) _ |- _ => inversion H; subst; clear H
    | H : matches (Grp _) _ |- _ => inversion H; subst; clear H
    | H : matches (Chr _) _ |- _ => inversion H; subst; clear H
    | H : matches Eps _ |- _ => inversion H; subst; clear H
    end.

Lemma digits_dos l :
  Forall (fun a => is_digit a = true) l -> Forall (fun a => is_dos a = true) l.
Proof.
  intros H. eapply Forall_impl; [exact H|].
  intros a Ha. unfold is_dos. now rewrite Ha.
Qed.

Lemma matches_number n :
  matches re_number n -> Forall (fun a => is_dos a = true) n.
Proof.
  unfold re_number, opt, plus, re_d, re_sep. intros H. invert_matches;
    repeat match goal with
      | H : matches (Star (Chr _)) _ |- _ => apply matches_star_chr in H
      end;
    repeat first
      [ apply Forall_app; split
      | apply digits_dos; assumption
      | constructor
      | unfold is_dos;
        match goal with
        | H : ?p ?a = true |- context [?p ?a] => rewrite H
        end; auto using orb_true_r ].
Qed.

Lemma matches_lit w s : matches (lit_of false w) s -> s = w.
Proof.
  revert s. induction w as [|a w IH]; intros s H; simpl in H; invert_matches.
  - reflexivity.
  - match goal with H : eqb_ascii _ _ = true |- _ =>
      apply eqb_ascii_true in H; subst end.
    simpl. f_equal. now apply IH.
Qed.

(** The pattern of the millions does not match a numeral that another
    word follows. *)
Lemma juta_not_at {R} D ws h suf post c (k : @kont R) :
  Forall (fun a => is_dos a = true) D -> spaces ws -> not_juta_head h ->
  mt pat_juta (D ++ ws ++ h :: suf ++ post) c k = None.
Proof.
  intros HD Hws (Hh1 & Hh2 & Hh3).
  destruct (mt pat_juta _ c k) as [x|] eqn:E; [exfalso|reflexivity].
  apply mt_sound in E as (s1 & s2 & c' & Heq & Hm & _).
  unfold pat_juta in Hm.
  inversion Hm as [| |r1 r2 n t Hn Ht| | | | |]; subst; clear Hm.
  inversion Ht as [| |r1 r2 w j Hw Hj| | | | |]; subst; clear Ht.
  inversion Hn; subst. apply matches_number in H0.
  apply matches_star_chr in Hw.
  assert (exists j', j = "j"%char :: j') as [j' ->].
  { inversion Hj; subst;
      match goal with H : matches (lit _) _ |- _ =>
        apply matches_lit in H; subst end; eexists; reflexivity. }
  rewrite <- !app_assoc in Heq.
  assert (forall l, Forall (fun a => is_space a = true) l ->
            Forall (fun a => is_dos a = false) l) as Hsd.
  { intros l Hl. eapply Forall_impl; [exact Hl|]. intros a Ha.
    apply space_facts in Ha as (? & ? & _). unfold is_dos.
    now rewrite H, H1. }
  apply class_prefix_unique with (p := is_dos) in Heq as [_ Heq]; auto.
  - apply class_prefix_unique with (p := is_space) in Heq as [_ Heq]; auto.
    + injection Heq as -> _. vm_compute in Hh3. discriminate.
    + now apply stops_cons.
    + now apply stops_cons.
  - apply stops_app; [now apply Hsd | now apply stops_cons].
  - apply stops_app; [now apply Hsd | now apply stops_cons].
Qed.

Lemma juta_nowhere pre D ws h suf post :
  no_digit pre -> Forall (fun a => is_dos a = true) D -> spaces ws ->
  not_juta_head h -> no_digit (h :: suf ++ post) ->
  re_search pat_juta (pre ++ D ++ ws ++ h :: suf ++ post) = None.
Proof.
  intros Hpre HD Hws Hh Hrest. unfold pat_juta at 1.
  rewrite re_search_skip by exact Hpre.
  induction HD as [|a D Ha HD IH].
  - apply re_search_no_digit. simpl app. apply Forall_app_2; [|exact Hrest].
    eapply Forall_impl; [exact Hws|]. intros a Ha. now apply space_facts in Ha.
  - simpl app. rewrite re_search_unfold.
    change (a :: D ++ ws ++ h :: suf ++ post)
      with ((a :: D) ++ ws ++ h :: suf ++ post).
    fold pat_juta. rewrite juta_not_at by auto. exact IH.
Qed.

(** ** The text of a numeral and its value *)

Lemma py_in_char c s : py_in [c] s = existsb (eqb_ascii c) s.
Proof.
  induction s as [|b s IH]; [reflexivity|].
  cbn [py_in existsb starts_with]. now rewrite IH, andb_true_r.
Qed.

Lemma is_sep_cases c : is_sep c = true -> c = "."%char \/ c = ","%char.
Proof.
  unfold is_sep. rewrite orb_true_iff, !eqb_ascii_true. tauto.
Qed.

(** A separator does not occur among digits. *)
Lemma digits_no_sep ds c :
  Forall (fun a => is_digit a = true) ds -> is_sep c = true ->
  existsb (eqb_ascii c) ds = false /\ py_count c ds = 0%nat
  /\ forall d, replace_char c d ds = ds.
Proof.
  intros Hds Hc. unfold py_count, replace_char.
  induction Hds as [|a ds Ha Hds (IH1 & IH2 & IH3)]; [auto|].
  assert (eqb_ascii a c = false /\ eqb_ascii c a = false) as [E1 E2].
  { apply digit_facts in Ha as (_ & _ & _ & _ & _ & Hp & Hc').
    unfold eqb_ascii in *. rewrite (Ascii.eqb_sym c a).
    destruct (is_sep_cases c Hc) as [-> | ->]; auto. }
  simpl. rewrite E1, E2, IH1. simpl. repeat split; auto.
  intros d. now rewrite IH3.
Qed.

Lemma py_strip_id s :
  stops is_space s -> stops is_space (rev s) -> py_strip s = s.
Proof.
  intros H1 H2. unfold py_strip, rstrip.
  rewrite (lstrip_stops s H1), (lstrip_stops _ H2). apply rev_involutive.
Qed.

Lemma digits_stops_space ds rest :
  digits ds -> stops is_space (ds ++ rest).
Proof.
  intros [Hne Hds]. destruct Hds as [|a ds Ha _]; [congruence|].
  apply stops_cons. now apply digit_facts in Ha.
Qed.

Lemma digits_rev ds : digits ds -> digits (rev ds).
Proof.
  intros [Hne Hds]. split.
  - intros H. apply Hne. rewrite <- (rev_involutive ds), H. reflexivity.
  - now apply Forall_rev.
Qed.

(** [float] reads a plain decimal numeral. *)
Lemma py_float_numeral ip fp :
  digits ip -> (fp = [] \/ digits fp) ->
  py_float (ip ++ (if decide (fp = []) then [] else "."%char :: fp))
  = Some (decimal_value ip fp).
Proof.
  intros Hip Hfp. unfold py_float, decimal_value.
  assert (forall t, split_sign (ip ++ t) = (false, ip ++ t)) as Hsign.
  { intros t. destruct Hip as [Hne Hds]. destruct Hds as [|a ds Ha _]; [congruence|].
    apply digit_facts in Ha as (_ & _ & _ & Hm & Hp & _). simpl.
    now rewrite Hm, Hp. }
  destruct Hip as [Hne Hds].
  destruct (decide (fp = [])) as [-> | Hnf].
  - rewrite py_strip_id.
    2:{ now apply digits_stops_space. }
    2:{ rewrite app_nil_r. rewrite <- (app_nil_r (rev ip)).
        apply digits_stops_space, digits_rev. now split. }
    rewrite Hsign, span_app by (auto using stops_nil). simpl.
    destruct (ip ++ []) eqn:E; [rewrite app_nil_r in E; congruence|].
    reflexivity.
  - destruct Hfp as [? | [_ Hfs]]; [congruence|].
    rewrite py_strip_id.
    2:{ now apply digits_stops_space. }
    2:{ rewrite rev_app_distr. simpl. rewrite <- app_assoc.
        apply digits_stops_space, digits_rev. now split. }
    rewrite Hsign, span_app; auto.
    2:{ now apply stops_cons. }
    change (eqb_ascii "." ".") with true. cbv iota.
    rewrite <- (app_nil_r fp) at 1. rewrite span_app by (auto using stops_nil).
    simpl. destruct (ip ++ fp) eqn:E.
    { apply app_eq_nil in E as [? _]. congruence. }
    rewrite Z.sub_0_l. reflexivity.
Qed.

(** The text that group 1 holds for a numeral is read as its value. *)
Lemma float_of_numeral ip frac fp :
  digits ip -> fraction frac fp ->
  py_float (normalize_separators (ip ++ frac)) = Some (decimal_value ip fp).
Proof.
  intros Hip Hfrac.
  assert (normalize_separators (ip ++ frac)
          = ip ++ (if decide (fp = []) then [] else "."%char :: fp)) as ->.
  2:{ apply py_float_numeral; auto.
      destruct Hfrac as [[_ ->] | (sep & _ & Hfp & _)]; auto. }
  unfold normalize_separators, L. cbn [list_ascii_of_string].
  rewrite !py_in_char.
  destruct Hip as [_ Hds].
  destruct Hfrac as [[-> ->] | (sep & Hsep & [Hne Hfs] & ->)].
  - rewrite app_nil_r.
    destruct (digits_no_sep ip "." Hds eq_refl) as (-> & _ & _).
    destruct (digits_no_sep ip "," Hds eq_refl) as (-> & _ & _).
    simpl. now rewrite app_nil_r.
  - rewrite decide_False by exact Hne.
    unfold py_count, replace_char.
    rewrite !existsb_app, !List.filter_app, !length_app, !flat_map_app.
    cbn [existsb List.filter flat_map length].
    destruct (digits_no_sep ip "." Hds eq_refl) as (-> & Ci1 & Ri1).
    destruct (digits_no_sep ip "," Hds eq_refl) as (-> & Ci2 & Ri2).
    destruct (digits_no_sep fp "." Hfs eq_refl) as (-> & Cf1 & Rf1).
    destruct (digits_no_sep fp "," Hfs eq_refl) as (-> & Cf2 & Rf2).
    unfold py_count, replace_char in *.
    destruct (is_sep_cases sep Hsep) as [-> | ->];
      change (eqb_ascii "." ".") with true;
      change (eqb_ascii "," ",") with true;
      change (eqb_ascii "," ".") with false;
      change (eqb_ascii "." ",") with false;
      cbn [length];
      rewrite ?Ci1, ?Ci2, ?Cf1, ?Cf2, ?Ri1, ?Ri2, ?Rf1, ?Rf2;
      reflexivity.
Qed.

(** ** The amount normaliser on a numeral with a magnitude suffix *)

Lemma suffix_cases suf mult :
  suffix_multiplier suf = Some mult ->
  ((suf = L "juta" \/ suf = L "jt") /\ mult = Q2Qc 1000000)
  \/ ((suf = L "ribu" \/ suf = L "rb" \/ suf = L "k") /\ mult = Q2Qc 1000).
Proof.
  unfold suffix_multiplier. cbn [existsb].
  destruct (str_eqb suf (L "juta")) eqn:E1.
  { apply str_eqb_true in E1. intros [= <-]. auto. }
  destruct (str_eqb suf (L "jt")) eqn:E2.
  { apply str_eqb_true in E2. intros [= <-]. auto. }
  destruct (str_eqb suf (L "ribu")) eqn:E3.
  { apply str_eqb_true in E3. intros [= <-]. auto 6. }
  destruct (str_eqb suf (L "rb")) eqn:E4.
  { apply str_eqb_true in E4. intros [= <-]. auto 6. }
  destruct (str_eqb suf (L "k")) eqn:E5.
  { apply str_eqb_true in E5. intros [= <-]. auto 6. }
  discriminate.
Qed.

Lemma numeral_dos ip frac fp :
  digits ip -> fraction frac fp ->
  Forall (fun a => is_dos a = true) (ip ++ frac).
Proof.
  intros [_ Hip] Hfrac. apply Forall_app_2; [now apply digits_dos|].
  destruct Hfrac as [[-> _] | (sep & Hs & [_ Hfp] & ->)]; constructor.
  - unfold is_dos. rewrite Hs. apply orb_true_r.
  - now apply digits_dos.
Qed.

(** The search finds the numeral when [tail] matches after it. *)
Lemma search_numeral tail pre ip frac fp ws rest post' :
  no_digit pre -> digits ip -> fraction frac fp -> spaces ws ->
  stops is_digit rest -> stops is_sep rest -> stops is_space rest ->
  mt tail rest (Some (ip ++ frac)) found = Some (Some (ip ++ frac), post') ->
  re_search (Cat (Grp re_number) (Cat (Star re_s) tail))
    (pre ++ ip ++ frac ++ ws ++ rest) = Some (Some (ip ++ frac), post').
Proof.
  intros Hpre Hip Hfrac Hws H1 H2 H3 Htail.
  rewrite re_search_skip by exact Hpre. rewrite re_search_unfold.
  erewrite number_then_tail; eauto.
Qed.

Lemma amount_of_shaped_text pre ip frac fp ws suf post mult :
  no_digit pre -> digits ip -> fraction frac fp -> spaces ws ->
  suffix_multiplier suf = Some mult -> no_digit post ->
  try_patterns patterns (pre ++ ip ++ frac ++ ws ++ suf ++ post)
  = Some (decimal_value ip fp * mult)%Qc.
Proof.
  intros Hpre Hip Hfrac Hws Hsuf Hpost.
  pose proof (float_of_numeral ip frac fp Hip Hfrac) as Hfloat.
  unfold patterns. cbn [try_patterns].
  destruct (suffix_cases suf mult Hsuf) as [[Hs ->] | [Hs ->]].
  - unfold pat_juta.
    assert (exists post', mt (Alt (lit "juta") (lit "jt")) (suf ++ post)
              (Some (ip ++ frac)) found = Some (Some (ip ++ frac), post'))
      as [post' Htail].
    { destruct Hs as [-> | ->]; eexists; reflexivity. }
    erewrite search_numeral; eauto.
    + now rewrite Hfloat.
    + destruct Hs as [-> | ->]; now apply stops_cons.
    + destruct Hs as [-> | ->]; now apply stops_cons.
    + destruct Hs as [-> | ->]; now apply stops_cons.
  - assert (exists h suf', suf = h :: suf' /\ not_juta_head h
              /\ no_digit (h :: suf')) as (h & suf' & Es & Hh & Hnd).
    { destruct Hs as [-> | [-> | ->]]; eexists _, _;
        (split; [reflexivity|]); (split; [now vm_compute|]);
        repeat constructor. }
    replace (pre ++ ip ++ frac ++ ws ++ suf ++ post)
      with (pre ++ (ip ++ frac) ++ ws ++ h :: suf' ++ post)
      by (rewrite Es, <- !app_assoc; reflexivity).
    rewrite juta_nowhere; eauto using numeral_dos.
    2:{ change (h :: suf' ++ post) with ((h :: suf') ++ post).
        now apply Forall_app_2. }
    replace (pre ++ (ip ++ frac) ++ ws ++ h :: suf' ++ post)
      with (pre ++ ip ++ frac ++ ws ++ suf ++ post)
      by (rewrite Es, <- !app_assoc; reflexivity).
    unfold pat_ribu.
    assert (exists post',
              mt (Alt (lit "ribu") (Alt (lit "rb") (lit "k"))) (suf ++ post)
                (Some (ip ++ frac)) found = Some (Some (ip ++ frac), post'))
      as [post' Htail].
    { destruct Hs as [-> | [-> | ->]]; eexists; reflexivity. }
    erewrite search_numeral; eauto.
    + now rewrite Hfloat.
    + destruct Hs as [-> | [-> | ->]]; now apply stops_cons.
    + destruct Hs as [-> | [-> | ->]]; now apply stops_cons.
    + destruct Hs as [-> | [-> | ->]]; now apply stops_cons.
Qed.

Lemma lower_fixed l :
  Forall (fun a => lower_ascii a = a) l -> py_lower l = l.
Proof.
  intros H. unfold py_lower. induction H as [|a l Ha H IH]; [reflexivity|].
  simpl. now rewrite Ha, IH.
Qed.

Lemma no_digit_lower s : no_digit s -> no_digit (py_lower s).
Proof.
  intros H. unfold py_lower. induction H as [|a l Ha H IH]; constructor; auto.
  now rewrite lower_digit.
Qed.

Lemma numeral_lower ip frac fp ws :
  digits ip -> fraction frac fp -> spaces ws ->
  py_lower ip = ip /\ py_lower frac = frac /\ py_lower ws = ws.
Proof.
  intros [_ Hip] Hfrac Hws.
  assert (forall l, Forall (fun a => is_digit a = true) l -> py_lower l = l)
    as Hd.
  { intros l Hl. apply lower_fixed. eapply Forall_impl; [exact Hl|].
    intros a Ha. now apply digit_facts in Ha. }
  repeat split.
  - now apply Hd.
  - destruct Hfrac as [[-> _] | (sep & Hs & [_ Hfp] & ->)]; [reflexivity|].
    simpl. apply sep_facts in Hs as (_ & _ & ->). f_equal.
    now apply Hd.
  - apply lower_fixed. eapply Forall_impl; [exact Hws|].
    intros a Ha. now apply space_facts in Ha.
Qed.

(** Lower-casing and stripping keep the shape of a text that holds a
    numeral followed by a magnitude suffix. *)
Lemma normalised_shape pre ip frac fp ws suf post mult :
  no_digit pre -> digits ip -> fraction frac fp -> spaces ws ->
  suffix_multiplier (py_lower suf) = Some mult -> no_digit post ->
  exists pre' post',
    no_digit pre' /\ no_digit post' /\
    py_strip (py_lower (pre ++ ip ++ frac ++ ws ++ suf ++ post))
    = pre' ++ ip ++ frac ++ ws ++ py_lower suf ++ post'.
Proof.
  intros Hpre Hip Hfrac Hws Hsuf Hpost.
  destruct (numeral_lower ip frac fp ws Hip Hfrac Hws) as (E1 & E2 & E3).
  unfold py_lower in *. rewrite !map_app, E1, E2, E3.
  fold (py_lower pre) (py_lower suf) (py_lower post).
  apply no_digit_lower in Hpre, Hpost.
  set (lsuf := py_lower suf) in *.
  destruct (lstrip_app (py_lower pre)
              (ip ++ frac ++ ws ++ lsuf ++ py_lower post))
    as (pre' & El & u & Eu).
  { destruct Hip as [Hne _]. destruct ip; [congruence|discriminate]. }
  { now apply digits_stops_space. }
  unfold py_strip. rewrite El.
  replace (pre' ++ ip ++ frac ++ ws ++ lsuf ++ py_lower post)
    with ((pre' ++ ip ++ frac ++ ws ++ lsuf) ++ py_lower post)
    by (now rewrite <- !app_assoc).
  destruct (rstrip_app (pre' ++ ip ++ frac ++ ws ++ lsuf) (py_lower post))
    as (post' & Er & v & Ev).
  { destruct Hip as [Hne _]. destruct pre', ip; try congruence; discriminate. }
  { rewrite !rev_app_distr, <- !app_assoc.
    destruct (suffix_cases lsuf mult Hsuf)
      as [[[-> | ->] _] | [[-> | [-> | ->]] _]];
      now apply stops_cons. }
  rewrite Er. exists pre', post'. rewrite <- !app_assoc.
  repeat split; auto.
  - rewrite Eu in Hpre. now apply Forall_app in Hpre.
  - rewrite Ev in Hpost. now apply Forall_app in Hpost.
Qed.

(** Reading off the value of an amount. *)
Lemma amount_is (o : option Qc) (q : Qc) :
  option_map (fun x => Qeq_bool (this x) (this q)) o = Some true ->
  o = Some q.
Proof.
  destruct o as [x|]; [|discriminate]. simpl. intros [= H]. f_equal.
  apply Qc_is_canon. now apply Qeq_bool_iff.
Defined.




(** ** The local fallback parser *)

(** [length s] rounds are enough for the substitution loop. *)
Lemma re_sub_del_enough r n : forall s,
  (length s <= n)%nat -> re_sub_del r (S n) s = re_sub_del r n s.
Proof.
  induction n as [|n IH]; intros s Hlen.
  - destruct s; [|simpl in Hlen; lia]. simpl.
    destruct (mt r [] None _) as [rest|]; reflexivity.
  - change (re_sub_del r (S (S n)) s) with
      (let keep :=
         match s with
         | [] => []
         | a :: s' => a :: re_sub_del r (S n) s'
         end in
       match mt r s None (fun rest _ => Some rest) with
       | Some rest =>
           if (length rest <? length s)%nat
           then re_sub_del r (S n) rest else keep
       | None => keep
       end).
    change (re_sub_del r (S n) s) with
      (let keep :=
         match s with
         | [] => []
         | a :: s' => a :: re_sub_del r n s'
         end in
       match mt r s None (fun rest _ => Some rest) with
       | Some rest =>
           if (length rest <? length s)%nat then re_sub_del r n rest else keep
       | None => keep
       end).
    cbv zeta.
    assert (match s with
            | [] => []
            | a :: s' => a :: re_sub_del r (S n) s'
            end
            = match s with
              | [] => []
              | a :: s' => a :: re_sub_del r n s'
              end) as ->.
    { destruct s as [|a s']; [reflexivity|]. rewrite IH; [reflexivity|].
      simpl in Hlen. lia. }
    destruct (mt r s None _) as [rest|]; [|reflexivity].
    destruct (length rest <? length s)%nat eqn:E; [|reflexivity].
    apply Nat.ltb_lt in E. apply IH. lia.
Qed.

Lemma re_sub_fuel r s n :
  (length s <= n)%nat -> re_sub_del r n s = re_sub r s.
Proof.
  intros H. unfold re_sub. induction H as [|n H IH]; [reflexivity|].
  rewrite re_sub_del_enough; auto.
Qed.

(** C3. For every non-empty text the local fallback parser returns a
    record (the model is a total function with no failure case: the one
    exception it can meet, [ValueError] in [float], is caught by the
    pattern loop) whose [category], [description] and [date] are not
    [None]; an absent amount is the value [None] of the field
    [amount]. *)
Theorem local_parser_never_fails (current_date : Z) (text : str) :
  text <> [] ->
  let record := parse_transaction_locally current_date text in
  (exists amount description transaction_type category date,
     record = [ ("amount", val_of_amount amount);
                ("description", VStr description);
                ("transaction_type", VStr transaction_type);
                ("category", VStr category);
                ("date", VDate date) ]%string)
  /\ is_none (dict_get "category" record) = false
  /\ is_none (dict_get "description" record) = false
  /\ is_none (dict_get "date" record) = false
  /\ (dict_get "amount" record = VNone
      <-> parse_indonesian_amount text = None).
Proof.
  intros _. cbv zeta. unfold parse_transaction_locally.
  split; [do 5 eexists; reflexivity|].
  cbn [dict_get dict_lookup String.eqb Ascii.eqb Bool.eqb is_none].
  repeat split; try reflexivity.
  - destruct (parse_indonesian_amount text) as [q|]; [|reflexivity].
    simpl. destruct (_ && _); simpl; [discriminate|].
    destruct (negb _); discriminate.
  - intros ->. reflexivity.
Qed.

Lemma local_parser_never_fails_witness :
  L "kosong tanpa angka" <> []
  /\ is_none (dict_get "category"
               (parse_transaction_locally 739000 (L "kosong tanpa angka")))
     = false.
Proof.
  split; [discriminate|].
  apply (local_parser_never_fails 739000 (L "kosong tanpa angka")).
  discriminate.
Defined.

(** ** The AI extractor and its fallback *)

(** The wrapper gives up exactly when every one of its
    [max_retries + 1] calls raised; it then raises the last error. *)
Lemma retry_loop_exhausted generate_func max_retries errors :
  forall rounds attempt last,
    (attempt + rounds = S max_retries)%nat ->
    (forall i, (i <= max_retries)%nat -> generate_func i = Raise (errors i)) ->
    (0 < rounds)%nat ->
    retry_loop generate_func max_retries rounds attempt last
    = Raise (errors max_retries).
Proof.
  induction rounds as [|rounds IH]; intros attempt last Hsum Hall Hpos; [lia|].
  simpl. rewrite Hall by lia.
  destruct (attempt <? max_retries)%nat eqn:E.
  - apply Nat.ltb_lt in E. apply IH; auto; lia.
  - apply Nat.ltb_ge in E. replace attempt with max_retries by lia.
    reflexivity.
Qed.

Lemma call_exhausted generate_func max_retries errors :
  (forall i, (i <= max_retries)%nat -> generate_func i = Raise (errors i)) ->
  call_gemini_with_retry generate_func max_retries
  = Raise (errors max_retries).
Proof.
  intros H. unfold call_gemini_with_retry.
  apply retry_loop_exhausted; auto; lia.
Qed.

Lemma extractor_returns json_loads current_date local_date generate_func text :
  exists data,
    parse_financial_data json_loads current_date local_date generate_func text
    = Ok data.
Proof.
  unfold parse_financial_data.
  destruct (outer_try _ _ _ _ _); eauto.
Qed.

Lemma fallback_when_call_raises
    json_loads current_date local_date generate_func text e :
  call_gemini_with_retry generate_func 2 = Raise e ->
  parse_financial_data json_loads current_date local_date generate_func text
  = Ok (parse_transaction_locally local_date text).
Proof.
  intros H. unfold parse_financial_data, outer_try.
  rewrite H. reflexivity.
Qed.

Lemma fallback_when_processing_raises
    json_loads current_date local_date generate_func text resp e :
  call_gemini_with_retry generate_func 2 = Ok resp ->
  process_response json_loads current_date text
    (parse_transaction_locally local_date text) resp = Raise e ->
  parse_financial_data json_loads current_date local_date generate_func text
  = Ok (parse_transaction_locally local_date text).
Proof.
  intros H1 H2. unfold parse_financial_data, outer_try, inner_try.
  rewrite H1. cbn [bind]. rewrite H2.
  destruct e; reflexivity.
Qed.

Lemma malformed_json_raises
    json_loads current_date text local_result resp response_text json_str :
  resp = Ok response_text ->
  extract_json response_text = Ok json_str ->
  json_loads json_str = None ->
  process_response json_loads current_date text local_result resp
  = Raise JSONDecodeError.
Proof.
  intros -> H1 H2. unfold process_response. cbn [bind].
  rewrite H1. cbn [bind]. rewrite H2. reflexivity.
Qed.

(** C4. [parse_financial_data] never raises; when the retries are
    exhausted, when the reply is not JSON, and when any other
    exception is raised while the reply is processed, it returns the
    result of the local fallback parser for the same text. *)
Theorem extractor_degrades_to_local_parser
    (json_loads : str -> option json) (current_date local_date : Z)
    (generate_func : nat -> result response) (text : str) :
  let local_result := parse_transaction_locally local_date text in
  let answer :=
    parse_financial_data json_loads current_date local_date generate_func
      text in
  (exists data, answer = Ok data)
  /\ (forall errors,
        (forall i, (i <= 2)%nat -> generate_func i = Raise (errors i)) ->
        answer = Ok local_result)
  /\ (forall e,
        call_gemini_with_retry generate_func 2 = Raise e ->
        answer = Ok local_result)
  /\ (forall resp response_text json_str,
        call_gemini_with_retry generate_func 2 = Ok resp ->
        resp = Ok response_text ->
        extract_json response_text = Ok json_str ->
        json_loads json_str = None ->
        answer = Ok local_result)
  /\ (forall resp e,
        call_gemini_with_retry generate_func 2 = Ok resp ->
        process_response json_loads current_date text local_result resp
        = Raise e ->
        answer = Ok local_result).
Proof.
  cbv zeta. split; [apply extractor_returns|].
  split.
  { intros errors H.
    apply (fallback_when_call_raises _ _ _ _ _ (errors 2%nat)).
    apply call_exhausted. exact H. }
  split; [apply fallback_when_call_raises|].
  split; [|apply fallback_when_processing_raises].
  intros resp response_text json_str H1 H2 H3 H4.
  eapply fallback_when_processing_raises; [exact H1|].
  eapply malformed_json_raises; eauto.
Qed.

(** ** Dictionaries *)

Lemma dict_get_set_same k v d : dict_get k (dict_set k v d) = v.
Proof.
  unfold dict_get. induction d as [|[k' v'] d IH]; simpl.
  - now rewrite String.eqb_refl.
  - destruct (String.eqb k k') eqn:E; simpl.
    + now rewrite String.eqb_refl.
    + now rewrite E.
Qed.

Lemma dict_get_set_other k k' v d :
  k <> k' -> dict_get k (dict_set k' v d) = dict_get k d.
Proof.
  intros Hne. unfold dict_get.
  assert (String.eqb k k' = false) as Hkk by now apply String.eqb_neq.
  induction d as [|[k2 v2] d IH]; simpl.
  - now rewrite Hkk.
  - destruct (String.eqb k' k2) eqn:E; simpl.
    + apply String.eqb_eq in E. subst k2. now rewrite Hkk.
    + destruct (String.eqb k k2); auto.
Qed.

Lemma dict_get_pop_other k k' d :
  k <> k' -> dict_get k (dict_pop k' d) = dict_get k d.
Proof.
  intros Hne. unfold dict_get.
  assert (String.eqb k k' = false) as Hkk by now apply String.eqb_neq.
  induction d as [|[k2 v2] d IH]; simpl; [reflexivity|].
  destruct (String.eqb k' k2) eqn:E; simpl.
  - apply String.eqb_eq in E. subst k2. now rewrite Hkk.
  - destruct (String.eqb k k2); auto.
Qed.

(** ** The weekday resolver *)

Lemma named_monday current_date time_context :
  weekday current_date = 0 ->
  py_in (L "senin") time_context || py_in (L "monday") time_context = true ->
  named_day day_names current_date time_context =
  Some (if py_in (L "depan") time_context || py_in (L "next") time_context
        then current_date + 7
        else if py_in (L "lalu") time_context || py_in (L "last") time_context
             then current_date - 7 else current_date).
Proof.
  intros Hw Hname. unfold day_names. cbn [named_day].
  rewrite Hw. change ((0 - 0) mod 7) with 0. change (0 =? 0) with true.
  cbn [andb].
  destruct (py_in (L "senin") time_context);
    [|rewrite orb_false_l in Hname; rewrite Hname];
    destruct (py_in (L "depan") time_context || py_in (L "next") time_context);
    destruct (py_in (L "lalu") time_context || py_in (L "last") time_context);
    rewrite ?Z.sub_0_r; reflexivity.
Qed.

(** C9. On a Monday, a time context that names Monday with the
    qualifier [lalu] or [last] is never resolved to the reference date
    itself: it is resolved to the date seven days earlier, unless the
    context also holds the opposite qualifier ([depan], [next]), which is
    tested afterwards and resolves it to the date seven days later. *)
Theorem last_monday_on_a_monday
    (current_date : Z) (time_context : str) (data : dict) :
  weekday current_date = 0 ->
  py_in (L "senin") time_context || py_in (L "monday") time_context = true ->
  py_in (L "lalu") time_context || py_in (L "last") time_context = true ->
  let resolved :=
    dict_get "date" (resolve_time_context current_date time_context data) in
  resolved <> VDate current_date
  /\ (py_in (L "depan") time_context || py_in (L "next") time_context = false ->
      resolved = VDate (current_date - 7))
  /\ (py_in (L "depan") time_context || py_in (L "next") time_context = true ->
      resolved = VDate (current_date + 7)).
Proof.
  intros Hw Hname Hlast. cbv zeta. unfold resolve_time_context.
  rewrite (named_monday _ _ Hw Hname), Hlast, dict_get_set_same.
  split; [|split].
  - destruct (py_in (L "depan") time_context || py_in (L "next") time_context);
      intros [= H]; lia.
  - intros ->. reflexivity.
  - intros ->. reflexivity.
Qed.

Lemma last_monday_on_a_monday_witness :
  weekday 738886 = 0
  /\ py_in (L "senin") (py_lower (L "Senin lalu"))
     || py_in (L "monday") (py_lower (L "Senin lalu")) = true
  /\ py_in (L "lalu") (py_lower (L "Senin lalu"))
     || py_in (L "last") (py_lower (L "Senin lalu")) = true
  /\ dict_get "date"
       (resolve_time_context 738886 (py_lower (L "Senin lalu")) [])
     = VDate 738879.
Proof.
  split; [reflexivity|]. split; [reflexivity|]. split; [reflexivity|].
  apply (last_monday_on_a_monday 738886 (py_lower (L "Senin lalu")) []);
    reflexivity.
Defined.

(** On Monday 738886 the context [senin lalu untuk bulan depan] names
    Monday with the qualifier [lalu], and is resolved to the Monday that
    follows, not to the one seven days earlier. *)
Lemma last_monday_counterexample :
  let time_context := py_lower (L "Senin lalu untuk bulan depan") in
  weekday 738886 = 0
  /\ py_in (L "senin") time_context = true
  /\ py_in (L "lalu") time_context = true
  /\ dict_get "date" (resolve_time_context 738886 time_context [])
     = VDate (738886 + 7)
  /\ dict_get "date" (resolve_time_context 738886 time_context [])
     <> VDate (738886 - 7).
Proof.
  cbv zeta. repeat split; try reflexivity.
  vm_compute. discriminate.
Qed.

(** ** The multi-line splitter *)

Lemma truthy_not_none v : truthy v = true -> is_none v = false.
Proof. destruct v; simpl; congruence. Qed.

Lemma reconcile_amount_has_amount local_result data data' :
  truthy (dict_get "amount" local_result) = true ->
  reconcile_amount local_result data = Ok data' ->
  is_none (dict_get "amount" data') = false.
Proof.
  intros Hlocal. unfold reconcile_amount.
  destruct (negb (is_none (dict_get "amount" data))) eqn:E.
  - destruct (float_of _) as [f|e]; cbn [bind]; [|discriminate].
    intros [= <-]. now rewrite dict_get_set_same.
  - rewrite Hlocal.
    destruct (negb (truthy _)); intros [= <-];
      rewrite ?dict_get_set_other by discriminate;
      rewrite dict_get_set_same; now apply truthy_not_none.
Qed.

Lemma finish_keeps_amount text local_result data :
  dict_get "amount" (finish text local_result data) = dict_get "amount" data.
Proof.
  unfold finish. destruct (negb _);
    rewrite ?dict_get_set_other by discriminate;
    now rewrite dict_get_pop_other by discriminate.
Qed.

(** A line in which the local parser finds an amount always comes back
    with an amount, whatever the completion service does. *)
Lemma extraction_has_amount
    json_loads current_date local_date generate_func text :
  truthy (dict_get "amount" (parse_transaction_locally local_date text))
  = true ->
  exists data,
    parse_financial_data json_loads current_date local_date generate_func text
    = Ok data
    /\ is_none (dict_get "amount" data) = false.
Proof.
  intros Hlocal. unfold parse_financial_data.
  destruct (outer_try _ _ _ _ _) as [data|] eqn:E.
  2:{ eexists. split; [reflexivity|]. now apply truthy_not_none. }
  exists data. split; [reflexivity|].
  unfold outer_try in E.
  destruct (call_gemini_with_retry generate_func 2) as [resp|e];
    cbn [bind] in E; [|discriminate].
  unfold inner_try in E.
  destruct (process_response _ _ _ _ _) as [d|e] eqn:P.
  2:{ destruct e; discriminate. }
  injection E as ->. unfold process_response in P.
  destruct resp as [response_text|e]; cbn [bind] in P; [|discriminate].
  destruct (extract_json response_text) as [json_str|e]; cbn [bind] in P;
    [|discriminate].
  destruct (json_loads json_str) as [j|]; cbn [bind] in P; [|discriminate].
  destruct (as_dict (of_json j)) as [d0|e]; cbn [bind] in P; [|discriminate].
  destruct (resolve_date current_date d0) as [d1|e]; cbn [bind] in P;
    [|discriminate].
  destruct (reconcile_amount _ d1) as [d2|e] eqn:A; cbn [bind] in P;
    [|discriminate].
  injection P as <-. rewrite finish_keeps_amount.
  eapply reconcile_amount_has_amount; eauto.
Qed.

(** Every line contributes by itself: nothing when its extraction
    raises or has no amount, its transaction otherwise. *)
Lemma parse_lines_by_line extract : forall lines i,
  parse_lines extract i lines
  = concat (imap (fun j line => kept extract (i + j) line) lines).
Proof.
  induction lines as [|line lines IH]; intros i; [reflexivity|].
  cbn [parse_lines imap concat]. rewrite !IH, Nat.add_0_r.
  assert (imap (fun j l => kept extract (S i + j) l) lines
          = imap ((fun j l => kept extract (i + j) l) ∘ S) lines) as ->.
  { apply imap_ext. intros j l _. simpl. f_equal. lia. }
  change (kept extract i line) with
    (match extract i line with
     | Ok data => if is_none (dict_get "amount" data) then [] else [data]
     | Raise _ => []
     end).
  destruct (extract i line) as [data|e]; [|reflexivity].
  now destruct (is_none _).
Qed.

Lemma parse_lines_length extract : forall lines i,
  (length (parse_lines extract i lines) <= length lines)%nat.
Proof.
  induction lines as [|line lines IH]; intros i; simpl; [lia|].
  specialize (IH (S i)).
  destruct (extract i line) as [data|e]; [|lia].
  destruct (negb _); simpl; lia.
Qed.

Lemma parse_lines_amounts extract : forall lines i,
  Forall (fun data => is_none (dict_get "amount" data) = false)
    (parse_lines extract i lines).
Proof.
  induction lines as [|line lines IH]; intros i; simpl; [constructor|].
  destruct (extract i line) as [data|e]; auto.
  destruct (is_none (dict_get "amount" data)) eqn:E; simpl; auto.
Qed.

Lemma local_amount_any_day current_date text :
  dict_get "amount" (parse_transaction_locally current_date text)
  = dict_get "amount" (parse_transaction_locally 0 text).
Proof. reflexivity. Qed.

(** C7, amended.  The batch has at most as many transactions as there
    are non-blank lines, all of them with an amount; a line contributes
    by itself, nothing when its extraction raises or has no amount; the
    three lines of the example give exactly two transactions whenever
    the extraction of ["kosong tanpa angka"] has no amount. *)
Theorem splitter_keeps_lines_with_amount
    (json_loads : str -> option json) (clock local_clock : nat -> Z)
    (generate_funcs : nat -> nat -> result response) :
  (forall text,
     let transactions :=
       parse_multiple_transactions json_loads clock local_clock generate_funcs
         text in
     (length transactions <= length (nonblank_lines text))%nat
     /\ Forall (fun data => is_none (dict_get "amount" data) = false)
          transactions)
  /\ (forall extract lines,
        parse_lines extract 0 lines
        = concat (imap (fun j line => kept extract j line) lines))
  /\ ((forall data,
         parse_financial_data json_loads (clock 1%nat) (local_clock 1%nat)
           (generate_funcs 1%nat) (L "kosong tanpa angka") = Ok data ->
         dict_get "amount" data = VNone) ->
      length (parse_multiple_transactions json_loads clock local_clock
                generate_funcs three_lines) = 2%nat).
Proof.
  split; [|split].
  - intros text. cbv zeta. unfold parse_multiple_transactions.
    split; [apply parse_lines_length | apply parse_lines_amounts].
  - intros extract lines. apply parse_lines_by_line.
  - intros Hnone. unfold parse_multiple_transactions.
    change (nonblank_lines three_lines)
      with [L "Beli makan siang 50000"; L "kosong tanpa angka";
            L "Terima gaji 5000000"].
    cbn [parse_lines].
    destruct (extraction_has_amount json_loads (clock 0%nat)
                (local_clock 0%nat) (generate_funcs 0%nat)
                (L "Beli makan siang 50000"))
      as (d0 & -> & ->); [now rewrite local_amount_any_day|].
    destruct (extraction_has_amount json_loads (clock 2%nat)
                (local_clock 2%nat) (generate_funcs 2%nat)
                (L "Terima gaji 5000000"))
      as (d2 & -> & ->); [now rewrite local_amount_any_day|].
    destruct (extractor_returns json_loads (clock 1%nat) (local_clock 1%nat)
                (generate_funcs 1%nat) (L "kosong tanpa angka")) as [d1 E1].
    rewrite E1, (Hnone d1 E1). reflexivity.
Qed.

Lemma splitter_keeps_lines_with_amount_witness :
  let json_loads := fun _ : str => @None json in
  let clock := fun _ : nat => 738886 in
  let generate_funcs :=
    fun _ _ : nat => @Raise response (ServiceError (L "429 quota exceeded")) in
  (forall data,
     parse_financial_data json_loads (clock 1%nat) (clock 1%nat)
       (generate_funcs 1%nat) (L "kosong tanpa angka") = Ok data ->
     dict_get "amount" data = VNone)
  /\ length (parse_multiple_transactions json_loads clock clock generate_funcs
               three_lines) = 2%nat.
Proof.
  cbv zeta.
  assert (forall data,
            parse_financial_data (fun _ : str => @None json) 738886 738886
              (fun _ : nat =>
                 @Raise response (ServiceError (L "429 quota exceeded")))
              (L "kosong tanpa angka") = Ok data ->
            dict_get "amount" data = VNone) as H.
  { intros data E. vm_compute in E. injection E as <-. reflexivity. }
  split; [exact H|].
  apply (splitter_keeps_lines_with_amount (fun _ : str => @None json)
           (fun _ : nat => 738886) (fun _ : nat => 738886)
           (fun _ _ : nat =>
              @Raise response (ServiceError (L "429 quota exceeded")))).
  exact H.
Defined.

(** C7 as stated fails: when the completion service answers
    [{"amount": 0}] for the line ["kosong tanpa angka"], the three lines
    give three transactions. *)
Lemma splitter_counterexample :
  let json_loads := fun s : str =>
    if str_eqb s reply_amount_zero
    then Some (JObj [("amount"%string, JNum (Q2Qc 0))]) else None in
  let generate_funcs := fun line _ : nat =>
    if (line =? 1)%nat then Ok (Ok reply_amount_zero)
    else Raise (ServiceError (L "503 unavailable")) in
  length (nonblank_lines three_lines) = 3%nat
  /\ length (parse_multiple_transactions json_loads (fun _ => 738886)
               (fun _ => 738886) generate_funcs three_lines) = 3%nat.
Proof. cbv zeta. split; vm_compute; reflexivity. Qed.

(** ** The per-user context *)

Lemma pop_all_absent keys : forall (ud : user_data) k,
  ud !! k = None -> pop_all keys ud !! k = None.
Proof.
  unfold pop_all. induction keys as [|key keys IH]; intros ud k H; simpl; auto.
  apply IH. destruct (decide (key = k)) as [->|Hne].
  - apply lookup_delete_eq.
  - now rewrite lookup_delete_ne.
Qed.

Lemma pop_all_popped keys : forall (ud : user_data) k,
  In k keys -> pop_all keys ud !! k = None.
Proof.
  unfold pop_all. induction keys as [|key keys IH]; intros ud k Hin; simpl.
  - destruct Hin.
  - destruct (decide (key = k)) as [->|Hne].
    + apply (pop_all_absent keys). apply lookup_delete_eq.
    + destruct Hin as [? | Hin]; [congruence|]. now apply IH.
Qed.

Lemma pop_all_other keys : forall (ud : user_data) k,
  ~ In k keys -> pop_all keys ud !! k = ud !! k.
Proof.
  unfold pop_all. induction keys as [|key keys IH]; intros ud k Hin; simpl; auto.
  rewrite IH by (intros H; apply Hin; now right).
  apply lookup_delete_ne. intros ->. apply Hin. now left.
Qed.

(** C6, amended.  A cancel, and a confirm that goes through (the store
    is connected, the row is appended, the pending amount is a number),
    end with the ten conversation keys of [confirm_keys] absent from
    the context and every other key unchanged. *)
Theorem confirm_and_cancel_clear_conversation_keys
    (action : str) (user_id today : Z) (timestamp : str)
    (ud : user_data) (st : store) :
  action = L "cancel"
  \/ (action = L "yes" /\ connected st = true /\ append_raises st = None
      /\ exists transaction q,
           as_dict (default (VDict []) (ud !! "pending_transaction"))
           = Ok transaction
           /\ dict_get_default "amount" (VNum (Q2Qc 0)) transaction = VNum q) ->
  let outcome := button_confirm true action user_id today timestamp ud st in
  snd outcome = Returned
  /\ (forall k, In k confirm_keys -> fst (fst outcome) !! k = None)
  /\ (forall k, ~ In k confirm_keys -> fst (fst outcome) !! k = ud !! k).
Proof.
  intros H. cbv zeta.
  assert (button_confirm true action user_id today timestamp ud st
          = (pop_all confirm_keys ud,
             snd (fst (button_confirm true action user_id today timestamp ud st)),
             Returned)) as ->.
  { unfold button_confirm. cbn [negb].
    destruct H as [-> | (-> & Hc & Ha & t & q & Ht & Hq)].
    - reflexivity.
    - change (str_eqb (L "yes") (L "yes")) with true. cbv iota.
      unfold confirm_yes. rewrite Hc, Ht, Ha. cbn [negb]. rewrite Hq.
      reflexivity. }
  cbn [fst snd]. split; [reflexivity|].
  split; [apply pop_all_popped | apply pop_all_other].
Qed.

Lemma confirm_and_cancel_clear_conversation_keys_witness :
  L "cancel" = L "cancel"
  /\ fst (fst (button_confirm true (L "cancel") 42 738886 (L "2024-01-01 10:00:00")
                 pending_context connected_store))
     !! "pending_transaction" = None.
Proof.
  split; [reflexivity|].
  apply (confirm_and_cancel_clear_conversation_keys (L "cancel") 42 738886
           (L "2024-01-01 10:00:00") pending_context connected_store
           (or_introl eq_refl)).
  simpl. tauto.
Defined.

(** C6 as stated fails: after a cancel the key [messages_to_delete]
    survives, and a confirm with the store not connected clears nothing. *)
Lemma confirm_counterexample :
  fst (fst (button_confirm true (L "cancel") 42 738886 (L "2024-01-01 10:00:00")
              pending_context connected_store))
  !! "messages_to_delete" = Some (VList [VNum (Q2Qc 101)])
  /\ button_confirm true (L "yes") 42 738886 (L "2024-01-01 10:00:00")
       pending_context disconnected_store
     = (pending_context, disconnected_store, Returned).
Proof.
  split; [|reflexivity].
  change (button_confirm true (L "cancel") 42 738886 (L "2024-01-01 10:00:00")
            pending_context connected_store)
    with (pop_all confirm_keys pending_context, connected_store, Returned).
  cbn [fst]. rewrite pop_all_other.
  - apply lookup_insert_eq.
  - simpl. intros H. repeat (destruct H as [H | H]; [discriminate|]). exact H.
Qed.

(** ** Commands and the pending flows *)

Lemma slash_is_no_button text :
  starts_with (L "/") text = true -> is_button text = false.
Proof.
  intros H. apply starts_with_spec in H as [post ->].
  apply not_true_is_false. intros E.
  apply existsb_exists in E as (b & Hin & Hb).
  apply orb_true_iff in Hb. rewrite !str_eqb_true in Hb.
  simpl in Hin.
  repeat (destruct Hin as [<- | Hin]; [destruct Hb; discriminate|]).
  exact Hin.
Qed.

Lemma command_handlers_keep_context authorized name private ud ud' c :
  handle_message authorized (Command name private) ud = Some (ud', c) ->
  c = Return
  /\ forall k, k <> "delete_messages"%string -> ud' !! k = ud !! k.
Proof.
  unfold handle_message.
  destruct (dispatch (Command name private)) as [h|] eqn:D; [|discriminate].
  assert (h <> h_message_handler /\ h <> h_photo_handler
          /\ h <> h_keyboard_handler) as (N1 & N2 & N3).
  { unfold dispatch in D. apply find_some in D as [_ D].
    repeat split; intros ->; discriminate. }
  assert (Some (run_command h authorized ud, Return) = Some (ud', c)
          -> c = Return
             /\ forall k, k <> "delete_messages"%string -> ud' !! k = ud !! k)
    as Hrun.
  { intros [= <- <-]. split; [reflexivity|]. intros k Hk.
    destruct h; try reflexivity. simpl. unfold toggle_delete_messages.
    destruct (negb authorized); [reflexivity|].
    destruct (ud !! "delete_messages"); now rewrite lookup_insert_ne. }
  destruct h; auto; congruence.
Qed.




(** ** Deleting all the rows of a user *)

Section DeleteAll.
Variable user_id : Z.
Variable header : list str.

Lemma collect_rows_numbered body : forall i,
  collect_rows user_id header i body
  = map fst (owned_numbered user_id header i body).
Proof.
  induction body as [|row body IH]; intros i; simpl; [reflexivity|].
  destruct (owned_by user_id header row); simpl; now rewrite IH.
Qed.

Lemma owned_numbered_app b1 b2 : forall i,
  owned_numbered user_id header i (b1 ++ b2)
  = owned_numbered user_id header i b1
    ++ owned_numbered user_id header (i + length b1) b2.
Proof.
  induction b1 as [|row b1 IH]; intros i; simpl.
  - now rewrite Nat.add_0_r.
  - rewrite IH. replace (S i + length b1)%nat with (i + S (length b1))%nat by lia.
    now destruct (owned_by user_id header row).
Qed.

Lemma owned_numbered_from body : forall i,
  Forall (fun p => (i <= fst p)%nat) (owned_numbered user_id header i body).
Proof.
  induction body as [|row body IH]; intros i; simpl; [constructor|].
  assert (Forall (fun p => (i <= fst p)%nat)
            (owned_numbered user_id header (S i) body)) as H.
  { eapply Forall_impl; [apply IH|]. simpl. intros p Hp. lia. }
  destruct (owned_by user_id header row); auto.
Qed.

Lemma insert_desc_smallest (i : nat) l :
  Forall (fun y => (i < y)%nat) l -> insert_desc Nat.ltb i l = l ++ [i].
Proof.
  induction 1 as [|y l Hy Hl IH]; simpl; [reflexivity|].
  apply Nat.ltb_lt in Hy. now rewrite Hy, IH.
Qed.

(** The row numbers are collected in increasing order, so the sort in
    reverse order reverses them. *)
Lemma sorted_desc_collected body : forall i,
  sorted_desc Nat.ltb (collect_rows user_id header i body)
  = rev (collect_rows user_id header i body).
Proof.
  induction body as [|row body IH]; intros i; simpl; [reflexivity|].
  destruct (owned_by user_id header row); [|apply IH].
  cbn [sorted_desc foldr]. fold (sorted_desc Nat.ltb).
  change (foldr (insert_desc Nat.ltb) [])
    with (sorted_desc (A := nat) Nat.ltb).
  rewrite IH. apply insert_desc_smallest.
  apply Forall_rev. rewrite collect_rows_numbered.
  apply Forall_map. eapply Forall_impl; [apply owned_numbered_from|].
  simpl. intros p Hp. lia.
Qed.

(** The loop, run on the numbers of the rows of [body] in decreasing
    order, removes the user's rows of [body] and nothing around them. *)
Lemma delete_loop_descending before body : forall after removed,
  delete_loop
    (rev (collect_rows user_id header (S (length before)) body))
    (before ++ body ++ after) removed
  = Ok (before
        ++ List.filter (fun row => negb (owned_by user_id header row)) body
        ++ after,
        removed
        ++ rev (owned_numbered user_id header (S (length before)) body)).
Proof.
  induction body as [|row body IH] using rev_ind; intros after removed.
  - simpl. now rewrite app_nil_r.
  - rewrite collect_rows_numbered, owned_numbered_app, map_app, rev_app_distr.
    rewrite List.filter_app, rev_app_distr. simpl.
    destruct (owned_by user_id header row); simpl.
    + replace (before ++ (body ++ [row]) ++ after)
        with ((before ++ body) ++ row :: after)
        by (now rewrite <- !app_assoc).
      replace (length before + length body)%nat
        with (length (before ++ body)) by (now rewrite length_app).
      rewrite list_lookup_middle by reflexivity. simpl.
      rewrite Nat.sub_0_r, list_lookup_middle by reflexivity.
      rewrite delete_middle. simpl.
      rewrite <- app_assoc, <- collect_rows_numbered, IH.
      rewrite app_nil_r, <- !app_assoc, length_app. reflexivity.
    + rewrite <- collect_rows_numbered.
      replace (before ++ (body ++ [row]) ++ after)
        with (before ++ body ++ row :: after)
        by (now rewrite <- !app_assoc).
      rewrite IH, <- !app_assoc. reflexivity.
Qed.
End DeleteAll.

Lemma owned_numbered_rows user_id header body : forall i,
  map snd (owned_numbered user_id header i body)
  = List.filter (owned_by user_id header) body.
Proof.
  induction body as [|row body IH]; intros i; simpl; [reflexivity|].
  destruct (owned_by user_id header row); simpl; now rewrite IH.
Qed.

Lemma owned_numbered_original user_id header body : forall i,
  Forall (fun p => owned_by user_id header (snd p) = true
                   /\ (i <= fst p)%nat
                   /\ body !! (fst p - i)%nat = Some (snd p))
    (owned_numbered user_id header i body).
Proof.
  induction body as [|row body IH]; intros i; simpl; [constructor|].
  assert (Forall (fun p => owned_by user_id header (snd p) = true
                           /\ (i <= fst p)%nat
                           /\ (row :: body) !! (fst p - i)%nat = Some (snd p))
            (owned_numbered user_id header (S i) body)) as H.
  { eapply Forall_impl; [apply (IH (S i))|]. simpl.
    intros p (Ho & Hp & Hl). split; [exact Ho|]. split; [lia|].
    replace (fst p - i)%nat with (S (fst p - S i)) by lia. exact Hl. }
  destruct (owned_by user_id header row) eqn:E; [|exact H].
  constructor; [|exact H]. simpl. rewrite Nat.sub_diag. auto.
Qed.

Lemma owned_numbered_descending user_id header body : forall i,
  StronglySorted (fun p q => (fst q < fst p)%nat)
    (rev (owned_numbered user_id header i body)).
Proof.
  induction body as [|row body IH]; intros i; simpl; [constructor|].
  destruct (owned_by user_id header row); [|apply IH].
  simpl. apply StronglySorted_app. split; [|split].
  - intros p q Hp Hq. apply list_elem_of_singleton in Hq as ->. simpl.
    apply list_elem_of_In, in_rev in Hp.
    pose proof (owned_numbered_from user_id header body (S i)) as Hfrom.
    rewrite List.Forall_forall in Hfrom. specialize (Hfrom p Hp). lia.
  - apply IH.
  - repeat constructor.
Qed.

(** C10.  Delete-all leaves the header and, in their order, exactly the
    rows whose [User ID] is not the requesting user's; the rows it
    removes are the user's rows, taken from the last to the first, each
    under the number it had in the sheet as it was read.  (On a sheet
    without a header row the code raises before anything is deleted.) *)
Theorem delete_all_removes_only_the_users_rows
    (user_id : Z) (sheet : list (list str)) :
  match sheet with
  | [] => confirm_delete_all user_id sheet = Raise IndexError
  | header :: body =>
      let removed := rev (owned_numbered user_id header 2 body) in
      confirm_delete_all user_id sheet
      = Ok (header
              :: List.filter (fun row => negb (owned_by user_id header row)) body,
            removed)
      /\ map snd removed = rev (List.filter (owned_by user_id header) body)
      /\ Forall (fun p => owned_by user_id header (snd p) = true
                          /\ sheet !! (fst p - 1)%nat = Some (snd p)) removed
      /\ StronglySorted (fun p q => (fst q < fst p)%nat) removed
  end.
Proof.
  destruct sheet as [|header body]; [reflexivity|]. cbv zeta.
  split; [|split; [|split]].
  - unfold confirm_delete_all. cbn [index lookup list_lookup bind drop].
    rewrite sorted_desc_collected.
    pose proof (delete_loop_descending user_id header [header] body [] [])
      as H.
    simpl in H. rewrite !app_nil_r in H. exact H.
  - now rewrite map_rev, owned_numbered_rows.
  - apply Forall_rev.
    eapply Forall_impl; [apply owned_numbered_original|].
    simpl. intros p (Ho & Hp & Hl). split; [exact Ho|].
    replace (fst p - 1)%nat with (S (fst p - 2)) by lia. exact Hl.
  - apply owned_numbered_descending.
Qed.

(** ** The category summariser *)

Section SortFacts.
Context {A : Type} (key : A -> Qc).

Lemma insert_desc_perm x l : insert_desc (by_key key) x l ≡ₚ x :: l.
Proof.
  induction l as [|y l IH]; simpl; [reflexivity|].
  destruct (by_key key x y); [|reflexivity].
  rewrite IH. apply Permutation_swap.
Qed.

Lemma sorted_desc_perm l : sorted_desc (by_key key) l ≡ₚ l.
Proof.
  induction l as [|x l IH]; simpl; [reflexivity|].
  fold (sorted_desc (by_key key) l). now rewrite insert_desc_perm, IH.
Qed.

Lemma insert_desc_sorted x l :
  StronglySorted (fun a b => (key b <= key a)%Qc) l ->
  StronglySorted (fun a b => (key b <= key a)%Qc)
    (insert_desc (by_key key) x l).
Proof.
  induction 1 as [|y l Hs IH Hy]; simpl; [repeat constructor|].
  unfold by_key at 1, Qc_ltb.
  destruct (Qclt_le_dec (key x) (key y)) as [Hlt|Hle].
  - constructor; [exact IH|].
    rewrite insert_desc_perm. constructor; [|exact Hy].
    now apply Qclt_le_weak.
  - constructor; [now constructor|].
    constructor; [exact Hle|].
    eapply Forall_impl; [exact Hy|]. simpl. intros z Hz.
    eapply Qcle_trans; eauto.
Qed.

Lemma sorted_desc_sorted l :
  StronglySorted (fun a b => (key b <= key a)%Qc)
    (sorted_desc (by_key key) l).
Proof.
  induction l as [|x l IH]; simpl; [constructor|].
  now apply insert_desc_sorted.
Qed.
End SortFacts.

Lemma total_of_perm d1 d2 : d1 ≡ₚ d2 -> total_of d1 = total_of d2.
Proof.
  induction 1 as [|x d1 d2 _ IH|x y d|d1 d2 d3 _ IH1 _ IH2]; simpl.
  - reflexivity.
  - now rewrite IH.
  - ring.
  - now rewrite IH1.
Qed.

Lemma fold_left_total l : forall a,
  fold_left (fun acc entry => (acc + snd entry)%Qc) l a = (a + total_of l)%Qc.
Proof.
  induction l as [|e l IH]; intros a; simpl; [ring|].
  rewrite IH. ring.
Qed.

Lemma total_of_app d1 d2 : total_of (d1 ++ d2) = (total_of d1 + total_of d2)%Qc.
Proof. induction d1 as [|e d1 IH]; simpl; [ring|]. rewrite IH. ring. Qed.

Lemma has_key_app {A} k (d1 d2 : list (str * A)) :
  has_key k (d1 ++ d2) = has_key k d1 || has_key k d2.
Proof.
  induction d1 as [|[k' v] d1 IH]; simpl; [reflexivity|].
  now rewrite IH, orb_assoc.
Qed.

Lemma total_of_update k a d :
  has_key k d = true ->
  total_of (update k (fun total => (total + a)%Qc) d) = (total_of d + a)%Qc.
Proof.
  induction d as [|[k' v] d IH]; simpl; [discriminate|].
  destruct (str_eqb k k'); simpl.
  - intros _. ring.
  - intros H. rewrite IH by exact H. ring.
Qed.

Lemma add_transaction_total g t :
  total_of (category_totals (add_transaction g t))
  = (total_of (category_totals g) + amount_of t)%Qc.
Proof.
  unfold add_transaction. cbn [category_totals]. fold (amount_of t).
  set (category := from_option_str "Lainnya" (t_category t)).
  destruct (has_key category (category_totals g)) eqn:E; cbn [negb category_totals].
  - now apply total_of_update.
  - rewrite total_of_update.
    + rewrite total_of_app. simpl. ring.
    + rewrite has_key_app. simpl.
      assert (str_eqb category category = true) as ->
        by now apply str_eqb_true.
      now rewrite orb_true_r.
Qed.

Lemma group_total transactions : forall g,
  total_of (category_totals (fold_left add_transaction transactions g))
  = (total_of (category_totals g) + sum_amounts transactions)%Qc.
Proof.
  induction transactions as [|t ts IH]; intros g; simpl; [ring|].
  rewrite IH, add_transaction_total. ring.
Qed.

(** The grand total is the sum of the amounts of all the items. *)
Lemma grand_total_sum transactions :
  grand_total (group_transactions transactions) = sum_amounts transactions.
Proof.
  unfold grand_total, sorted_categories. rewrite fold_left_total.
  rewrite (total_of_perm _ _ (sorted_desc_perm snd _)).
  unfold group_transactions. rewrite group_total. simpl. ring.
Qed.

Lemma shown_items_length items :
  length (shown_items items) = Nat.min 10 (length items).
Proof.
  unfold shown_items. rewrite length_take. f_equal.
  apply Permutation_length. apply (sorted_desc_perm i_amount).
Qed.

Lemma shown_items_sorted items :
  StronglySorted (fun a b => (i_amount b <= i_amount a)%Qc) (shown_items items).
Proof.
  unfold shown_items.
  pose proof (sorted_desc_sorted i_amount items) as H.
  rewrite <- (take_drop 10 (sorted_desc (by_key i_amount) items)) in H.
  now apply StronglySorted_app_1_l in H.
Qed.

(** *** What the grouping holds for a category *)

Section GroupFacts.
Context {A : Type} (d0 : A).

Lemma has_key_keys k (d : list (str * A)) :
  has_key k d = existsb (str_eqb k) (map fst d).
Proof.
  induction d as [|[k' v] d IH]; simpl; [reflexivity|]. now rewrite IH.
Qed.

Lemma update_keys k f (d : list (str * A)) : map fst (update k f d) = map fst d.
Proof.
  induction d as [|[k' v] d IH]; simpl; [reflexivity|].
  destruct (str_eqb k k'); simpl; now rewrite ?IH.
Qed.

Lemma first_of_update_same k f (d : list (str * A)) :
  has_key k d = true ->
  first_of d0 k (update k f d) = f (first_of d0 k d).
Proof.
  unfold first_of. induction d as [|[k' v] d IH]; simpl; [discriminate|].
  destruct (str_eqb k k') eqn:E; simpl; rewrite E; auto.
Qed.

Lemma first_of_update_other c k f (d : list (str * A)) :
  str_eqb c k = false ->
  first_of d0 c (update k f d) = first_of d0 c d.
Proof.
  intros Hne. unfold first_of.
  induction d as [|[k' v] d IH]; simpl; [reflexivity|].
  destruct (str_eqb k k') eqn:E; simpl.
  - apply str_eqb_true in E. subst k'. now rewrite Hne.
  - destruct (str_eqb c k'); auto.
Qed.

Lemma first_of_new c k (d : list (str * A)) :
  has_key k d = false ->
  first_of d0 c (d ++ [(k, d0)]) = first_of d0 c d.
Proof.
  unfold first_of. induction d as [|[k' v] d IH]; simpl.
  - now destruct (str_eqb c k).
  - intros H. apply orb_false_iff in H as [_ H].
    destruct (str_eqb c k'); auto.
Qed.
End GroupFacts.

Lemma str_eqb_refl (s : str) : str_eqb s s = true.
Proof. now apply str_eqb_true. Qed.

Lemma add_transaction_keys g t : same_keys g -> same_keys (add_transaction g t).
Proof.
  unfold same_keys, add_transaction. intros H.
  destruct (negb (has_key _ (category_totals g))); cbn [category_totals category_items];
    rewrite !update_keys; [|exact H].
  now rewrite !map_app, H.
Qed.

Lemma add_transaction_items g t category :
  same_keys g ->
  items_of (add_transaction g t) category
  = items_of g category
    ++ (if str_eqb category (category_of t) then [item_of t] else []).
Proof.
  intros Hkeys.
  change (items_of (add_transaction g t) category)
    with (first_of [] category (category_items (add_transaction g t))).
  change (items_of g category) with (first_of [] category (category_items g)).
  unfold add_transaction. fold (category_of t) (amount_of t).
  change {| i_description := from_option_str "Item" (t_description t);
            i_amount := amount_of t |} with (item_of t).
  assert (has_key (category_of t) (category_items g)
          = has_key (category_of t) (category_totals g)) as Hk
    by (now rewrite !has_key_keys, Hkeys).
  destruct (has_key (category_of t) (category_totals g)) eqn:E;
    cbn [negb category_items];
    destruct (str_eqb category (category_of t)) eqn:C.
  - apply str_eqb_true in C. subst category.
    now rewrite first_of_update_same.
  - rewrite first_of_update_other by exact C. now rewrite app_nil_r.
  - apply str_eqb_true in C. subst category.
    rewrite first_of_update_same.
    + now rewrite first_of_new.
    + now rewrite has_key_app; simpl; rewrite str_eqb_refl, orb_true_r.
  - rewrite first_of_update_other by exact C.
    rewrite first_of_new by exact Hk. now rewrite app_nil_r.
Qed.

Lemma add_transaction_subtotal g t category :
  first_of (Q2Qc 0) category (category_totals (add_transaction g t))
  = (first_of (Q2Qc 0) category (category_totals g)
     + (if str_eqb category (category_of t) then amount_of t else Q2Qc 0))%Qc.
Proof.
  unfold add_transaction. fold (category_of t) (amount_of t).
  destruct (has_key (category_of t) (category_totals g)) eqn:E;
    cbn [negb category_totals];
    destruct (str_eqb category (category_of t)) eqn:C.
  - apply str_eqb_true in C. subst category.
    now rewrite first_of_update_same.
  - rewrite first_of_update_other by exact C. ring.
  - apply str_eqb_true in C. subst category.
    rewrite first_of_update_same.
    + now rewrite first_of_new.
    + now rewrite has_key_app; simpl; rewrite str_eqb_refl, orb_true_r.
  - rewrite first_of_update_other by exact C.
    rewrite first_of_new by exact E. ring.
Qed.

Lemma group_items transactions category : forall g,
  same_keys g ->
  same_keys (fold_left add_transaction transactions g)
  /\ items_of (fold_left add_transaction transactions g) category
     = items_of g category ++ map item_of (in_category category transactions)
  /\ first_of (Q2Qc 0) category
       (category_totals (fold_left add_transaction transactions g))
     = (first_of (Q2Qc 0) category (category_totals g)
        + sum_amounts (in_category category transactions))%Qc.
Proof.
  induction transactions as [|t ts IH]; intros g Hg; simpl.
  - rewrite app_nil_r. repeat split; auto. ring.
  - destruct (IH (add_transaction g t) (add_transaction_keys g t Hg))
      as (K & I & S).
    split; [exact K|].
    rewrite I, S, add_transaction_items, add_transaction_subtotal by exact Hg.
    destruct (str_eqb category (category_of t)); simpl.
    + rewrite <- app_assoc. split; [reflexivity|ring].
    + rewrite app_nil_r. split; [reflexivity|ring].
Qed.

(** The items of a category are the transactions of the category in
    the order of the input, and its subtotal is the sum of their
    amounts. *)
Lemma grouping_by_category transactions category :
  let g := group_transactions transactions in
  items_of g category = map item_of (in_category category transactions)
  /\ first_of (Q2Qc 0) category (category_totals g)
     = sum_amounts (in_category category transactions).
Proof.
  cbv zeta. unfold group_transactions.
  destruct (group_items transactions category
              {| category_totals := []; category_items := [] |} eq_refl)
    as (_ & I & S).
  split; [exact I|]. rewrite S. simpl. unfold first_of. simpl. ring.
Qed.

Lemma has_key_false k (d : list (str * Qc)) :
  has_key k d = false -> ~ In k (map fst d).
Proof.
  induction d as [|[k' v] d IH]; simpl; [tauto|].
  intros H. apply orb_false_iff in H as [H1 H2].
  intros [-> | Hin]; [|now apply IH].
  now rewrite str_eqb_refl in H1.
Qed.

Lemma add_transaction_nodup g t :
  NoDup (map fst (category_totals g)) ->
  NoDup (map fst (category_totals (add_transaction g t))).
Proof.
  intros H. unfold add_transaction. cbn [category_totals].
  destruct (has_key _ (category_totals g)) eqn:E;
    cbn [negb category_totals]; rewrite update_keys; [exact H|].
  rewrite map_app. apply NoDup_app. split; [exact H|]. split.
  - intros k Hk Hk'. simpl in Hk'. apply list_elem_of_singleton in Hk'.
    subst k. apply list_elem_of_In in Hk. now apply has_key_false in E.
  - apply NoDup_singleton.
Qed.

Lemma group_nodup transactions : forall g,
  NoDup (map fst (category_totals g)) ->
  NoDup (map fst (category_totals (fold_left add_transaction transactions g))).
Proof.
  induction transactions as [|t ts IH]; intros g H; simpl; [exact H|].
  now apply IH, add_transaction_nodup.
Qed.

Lemma first_of_entry k v (d : list (str * Qc)) :
  NoDup (map fst d) -> In (k, v) d -> first_of (Q2Qc 0) k d = v.
Proof.
  unfold first_of. induction d as [|[k' v'] d IH]; simpl; [tauto|].
  intros Hnd Hin. apply NoDup_cons in Hnd as [Hk' Hnd].
  destruct Hin as [[= -> ->] | Hin].
  - now rewrite str_eqb_refl.
  - destruct (str_eqb k k') eqn:E; [|now apply IH].
    apply str_eqb_true in E. subst k'. exfalso. apply Hk'.
    apply list_elem_of_In. apply (in_map fst) in Hin. exact Hin.
Qed.

Lemma sum_of_given_amounts transactions :
  no_negative transactions -> sum_amounts transactions = given_sum transactions.
Proof.
  induction 1 as [|t ts Ht _ IH]; simpl; [reflexivity|].
  rewrite IH. f_equal. unfold amount_of, Qc_abs.
  destruct (Qclt_le_dec _ _) as [Hlt|]; [|reflexivity].
  exfalso. eapply Qclt_not_le; eauto.
Qed.

(** Every subtotal that is rendered is the sum of the amounts of the
    transactions of its category. *)
Lemma rendered_subtotal transactions category total :
  In (category, total) (sorted_categories (group_transactions transactions)) ->
  total = sum_amounts (in_category category transactions).
Proof.
  intros Hin.
  destruct (grouping_by_category transactions category) as [_ <-].
  symmetry. apply first_of_entry.
  - unfold group_transactions. apply group_nodup. constructor.
  - apply list_elem_of_In. apply list_elem_of_In in Hin.
    now rewrite <- (sorted_desc_perm snd).
Qed.

(** C8, amended.  For a non-empty list of whole amounts (their
    absolute values adding up to less than [2^53], so that the float
    sums are exact) the summary is the title, the blocks of the
    categories and three closing lines, the last of which shows the sum
    of the absolute values of the amounts of all the items, which is
    the sum of the amounts given when none is negative; the categories
    come in non-increasing order of their subtotals; the block of a
    category shows its ten largest items at most, largest first, then
    one line [... dan N item lainnya] for the N items beyond ten, then
    the subtotal, which is the sum of the absolute values of the
    amounts of the transactions of the category; the list of the
    example renders as [example_summary]. *)
Theorem category_summary_properties
    (transactions : list transaction) (title : str) :
  transactions <> [] ->
  exact_amounts transactions ->
  let g := group_transactions transactions in
  generate_category_summary transactions title
  = join_lines
      ([[nl] ++ title ++ [nl]]
       ++ flat_map (category_block g) (sorted_categories g)
       ++ [ L "⸻" ++ [nl];
            L "💰 *Total Keseluruhan*" ++ [nl];
            L "*" ++ format_rupiah (sum_amounts transactions) ++ L " rupiah*" ])
  /\ StronglySorted (fun a b => (snd b <= snd a)%Qc) (sorted_categories g)
  /\ sorted_categories g ≡ₚ category_totals g
  /\ (forall category total,
        let items := items_of g category in
        category_block g (category, total)
        = [get_category_emoji category ++ L " *" ++ category ++ L "*"]
          ++ map (item_line category) (shown_items items)
          ++ (if (10 <? length items)%nat
              then [L " • ... dan " ++ decimal (N.of_nat (length items - 10))
                      ++ L " item lainnya"]
              else [])
          ++ [L "*Subtotal " ++ category ++ L " = " ++ format_rupiah total
                ++ L "*" ++ [nl]]
        /\ length (shown_items items) = Nat.min 10 (length items)
        /\ StronglySorted (fun a b => (i_amount b <= i_amount a)%Qc)
             (shown_items items))
  /\ (forall category total,
        In (category, total) (sorted_categories g) ->
        total = sum_amounts (in_category category transactions)
        /\ items_of g category
           = map item_of (in_category category transactions))
  /\ (no_negative transactions ->
      sum_amounts transactions = given_sum transactions)
  /\ generate_category_summary example_transactions (L "💰 RINGKASAN KATEGORI")
     = example_summary.
Proof.
  intros Hne _. cbv zeta. split; [|split; [|split; [|split; [|split; [|split]]]]].
  - destruct transactions as [|t ts]; [congruence|].
    unfold generate_category_summary, summary_lines.
    now rewrite grand_total_sum.
  - apply (sorted_desc_sorted snd).
  - apply (sorted_desc_perm snd).
  - intros category total. cbv zeta.
    split; [reflexivity|].
    split; [apply shown_items_length | apply shown_items_sorted].
  - intros category total Hin. split; [now apply rendered_subtotal|].
    apply grouping_by_category.
  - apply sum_of_given_amounts.
  - vm_compute. reflexivity.
Qed.

Lemma category_summary_properties_witness :
  example_transactions <> []
  /\ exact_amounts example_transactions
  /\ StronglySorted (fun a b => (snd b <= snd a)%Qc)
       (sorted_categories (group_transactions example_transactions))
  /\ map fst (sorted_categories (group_transactions example_transactions))
     = [L "Belanja"; L "Makanan"].
Proof.
  assert (He : exact_amounts example_transactions).
  { split.
    - repeat constructor.
      + exists 20000. apply Qc_is_canon. reflexivity.
      + exists 5000. apply Qc_is_canon. reflexivity.
      + exists 30000. apply Qc_is_canon. reflexivity.
    - reflexivity. }
  split; [discriminate|]. split; [exact He|]. split; [|reflexivity].
  apply (category_summary_properties example_transactions
           (L "💰 RINGKASAN KATEGORI")); [discriminate|exact He].
Defined.

(** C8 as stated fails: the summariser takes the absolute value of
    every amount, and the handlers pass it the amounts with their
    signs; for one expense of 20000 the grand total shown is 20.000
    while the sum of the amounts is -20000. *)
Lemma summary_total_counterexample :
  let transactions :=
    [ {| t_category := Some (L "Makanan");
         t_amount := Some (Q2Qc (-20000));
         t_description := Some (L "kopi") |} ] in
  transactions <> []
  /\ exact_amounts transactions
  /\ given_sum transactions = Q2Qc (-20000)
  /\ generate_category_summary transactions (L "RINGKASAN")
     = join_lines
         [ [nl] ++ L "RINGKASAN" ++ [nl];
           get_category_emoji (L "Makanan") ++ L " *Makanan*";
           L " • kopi = 20.000";
           L "*Subtotal Makanan = 20.000*" ++ [nl];
           L "⸻" ++ [nl];
           L "💰 *Total Keseluruhan*" ++ [nl];
           L "*20.000 rupiah*" ]
  /\ given_sum transactions <> Q2Qc 20000.
Proof.
  cbv zeta. split; [discriminate|]. split.
  { split; [|reflexivity]. repeat constructor.
    exists 20000. apply Qc_is_canon. reflexivity. }
  split; [apply Qc_is_canon; reflexivity|].
  split; [vm_compute; reflexivity|].
  intros H. apply (f_equal this) in H. vm_compute in H. discriminate H.
Qed.

(** * Further properties *)

(** ** The retry wrapper *)

Lemma retry_loop_first_success generate_func max_retries k r :
  (k <= max_retries)%nat ->
  (forall i, (i < k)%nat -> exists e, generate_func i = Raise e) ->
  generate_func k = Ok r ->
  forall rounds attempt last,
    (attempt <= k)%nat -> (k < attempt + rounds)%nat ->
    retry_loop generate_func max_retries rounds attempt last = Ok r.
Proof.
  intros Hk Hfail Hok.
  induction rounds as [|rounds IH]; intros attempt last Hle Hlt; [lia|].
  simpl. destruct (decide (attempt = k)) as [-> | Hne].
  - now rewrite Hok.
  - destruct (Hfail attempt) as [e ->]; [lia|].
    assert ((attempt <? max_retries)%nat = true) as ->
      by (apply Nat.ltb_lt; lia).
    apply IH; lia.
Qed.

Lemma retry_loop_agree f g max_retries :
  (forall i, (i <= max_retries)%nat -> f i = g i) ->
  forall rounds attempt last,
    (attempt <= max_retries)%nat ->
    retry_loop f max_retries rounds attempt last
    = retry_loop g max_retries rounds attempt last.
Proof.
  intros H. induction rounds as [|rounds IH]; intros attempt last Hle;
    [reflexivity|].
  simpl. rewrite H by exact Hle. destruct (g attempt) as [r|e]; [reflexivity|].
  destruct (attempt <? max_retries)%nat eqn:E; [|reflexivity].
  apply Nat.ltb_lt in E. apply IH. lia.
Qed.

(** X1. The retry wrapper returns the response of the first attempt
    that succeeds among its [max_retries + 1] attempts, raises the error
    of the last attempt when all of them fail, and never makes another
    attempt. *)
Theorem retry_wrapper_outcome
    (generate_func : nat -> result response) (max_retries : nat) :
  (forall k r,
      (k <= max_retries)%nat ->
      (forall i, (i < k)%nat -> exists e, generate_func i = Raise e) ->
      generate_func k = Ok r ->
      call_gemini_with_retry generate_func max_retries = Ok r)
  /\ (forall errors,
        (forall i, (i <= max_retries)%nat -> generate_func i = Raise (errors i)) ->
        call_gemini_with_retry generate_func max_retries
        = Raise (errors max_retries))
  /\ (forall g,
        (forall i, (i <= max_retries)%nat -> generate_func i = g i) ->
        call_gemini_with_retry generate_func max_retries
        = call_gemini_with_retry g max_retries).
Proof.
  split; [|split].
  - intros k r Hk Hfail Hok. unfold call_gemini_with_retry.
    eapply retry_loop_first_success; eauto; lia.
  - intros errors H. unfold call_gemini_with_retry.
    apply retry_loop_exhausted; auto; lia.
  - intros g H. unfold call_gemini_with_retry.
    apply retry_loop_agree; auto. lia.
Qed.

(** ** The amount normaliser: what it finds *)

Lemma star_loop_sound_groupless {R} r (k : @kont R) n :
  (forall s c (k' : @kont R) x, mt r s c k' = Some x ->
     exists s1 s2, s = s1 ++ s2 /\ matches r s1 /\ k' s2 c = Some x) ->
  forall s c x, star_loop (mt r) k n s c = Some x ->
    exists s1 s2, s = s1 ++ s2 /\ matches (Star r) s1 /\ k s2 c = Some x.
Proof.
  intros Hbody. induction n as [|n IH]; intros s c x; simpl.
  - intros H. exists [], s. repeat split; auto. constructor.
  - destruct (mt r s c _) as [y|] eqn:E.
    + intros [= ->]. apply Hbody in E as (s1 & s2 & -> & Hm & Hk).
      destruct (_ <? _)%nat; [|discriminate].
      apply IH in Hk as (s3 & s4 & -> & Hm' & Hk).
      exists (s1 ++ s3), s4. rewrite app_assoc.
      repeat split; auto. now constructor.
    + intros H. exists [], s. repeat split; auto. constructor.
Qed.

(** A pattern without a group hands group 1 on as it received it. *)
Lemma mt_sound_groupless {R} r : groupless r = true ->
  forall s c (k : @kont R) x,
  mt r s c k = Some x ->
  exists s1 s2, s = s1 ++ s2 /\ matches r s1 /\ k s2 c = Some x.
Proof.
  induction r as [|p|r1 IH1 r2 IH2|r1 IH1 r2 IH2|r IH|r IH];
    intros Hg s c k x; cbn [mt]; cbn [groupless] in Hg;
    try (apply andb_true_iff in Hg as [Hg1 Hg2]).
  - intros H. exists [], s. repeat split; auto. constructor.
  - destruct s as [|a s]; [discriminate|].
    destruct (p a) eqn:Hp; [|discriminate].
    intros H. exists [a], s. repeat split; auto. now constructor.
  - intros H. apply (IH1 Hg1) in H as (s1 & s2 & -> & Hm1 & H).
    apply (IH2 Hg2) in H as (s3 & s4 & -> & Hm2 & H).
    exists (s1 ++ s3), s4. rewrite app_assoc.
    repeat split; auto. now constructor.
  - destruct (mt r1 s c k) as [y|] eqn:E.
    + intros [= ->]. apply (IH1 Hg1) in E as (s1 & s2 & -> & Hm & H).
      exists s1, s2. repeat split; auto. now apply M_alt_l.
    + intros H. apply (IH2 Hg2) in H as (s1 & s2 & -> & Hm & H).
      exists s1, s2. repeat split; auto. now apply M_alt_r.
  - apply star_loop_sound_groupless. exact (IH Hg).
  - discriminate.
Qed.

(** What [re.search] returns is a match at some position. *)
Lemma re_search_sound r s m :
  re_search r s = Some m ->
  exists pre t, s = pre ++ t /\ mt r t None found = Some m.
Proof.
  induction s as [|a s IH]; rewrite re_search_unfold.
  - destruct (mt r [] None found) as [y|] eqn:E; [|discriminate].
    intros [= ->]. now exists [], [].
  - destruct (mt r (a :: s) None found) as [y|] eqn:E.
    + intros [= ->]. now exists [], (a :: s).
    + intros H. apply IH in H as (pre & t & -> & H).
      now exists (a :: pre), t.
Qed.

Lemma re_search_digit_headed r s :
  digit_headed r -> no_digit s -> re_search r s = None.
Proof.
  intros Hr H. induction H as [|a s Ha H IH]; rewrite re_search_unfold.
  - now rewrite Hr by apply stops_nil.
  - now rewrite Hr by (now apply stops_cons).
Qed.

(** Group 1 of a pattern [(r0)tail] holds a word of [r0]. *)
Lemma group_then_tail r0 tail t g rest :
  groupless tail = true ->
  mt (Cat (Grp r0) tail) t None found = Some (g, rest) ->
  exists n, g = Some n /\ matches r0 n.
Proof.
  intros Hg. rewrite mt_cat, mt_grp. intros H.
  apply mt_sound in H as (s1 & s2 & c' & -> & Hm & H).
  apply (mt_sound_groupless tail Hg) in H as (s3 & s4 & -> & _ & H).
  rewrite take_numeral in H. injection H as <- _. eauto.
Qed.

Lemma group_alone r0 t g rest :
  mt (Grp r0) t None found = Some (g, rest) ->
  exists n, g = Some n /\ matches r0 n.
Proof.
  rewrite mt_grp. intros H.
  apply mt_sound in H as (s1 & s2 & c' & -> & Hm & H).
  rewrite take_numeral in H. injection H as <- _. eauto.
Qed.

Lemma matches_plus_digit n : matches (plus re_d) n -> digits n.
Proof.
  unfold plus, re_d. intros H. invert_matches.
  match goal with H : matches (Star _) _ |- _ => apply matches_star_chr in H end.
  split; [discriminate|]. now constructor.
Qed.

Lemma number_is_numeral_like n : matches re_number n -> numeral_like n.
Proof.
  intros H. split; [|now apply matches_number].
  unfold re_number in H. inversion H; subst.
  match goal with H : matches (plus re_d) _ |- _ =>
    apply matches_plus_digit in H as [Hne Hd] end.
  destruct Hd as [|a s1' Ha _]; [congruence|]. simpl. eauto.
Qed.

Lemma grouped_is_numeral_like n :
  matches (Cat (Cat re_d (opt (Cat re_d (opt re_d))))
               (plus (Cat re_sep (Cat re_d (Cat re_d re_d))))) n ->
  numeral_like n.
Proof.
  intros H. inversion H as [| |r1 r2 h t Hh Ht| | | | |]; subst; clear H.
  assert (Forall (fun a => is_dos a = true) h
          /\ exists a h', h = a :: h' /\ is_digit a = true) as [Hdh (a & h' & -> & Ha)].
  { unfold opt, re_d in Hh. invert_matches; simpl; split; eauto;
      repeat constructor; unfold is_dos;
      repeat match goal with H : is_digit _ = true |- _ => rewrite H; clear H end;
      reflexivity. }
  assert (forall u, matches (Cat re_sep (Cat re_d (Cat re_d re_d))) u ->
            Forall (fun a => is_dos a = true) u) as Hunit.
  { intros u Hu. unfold re_sep, re_d in Hu. invert_matches. simpl.
    repeat constructor; unfold is_dos;
      repeat match goal with
        | H : is_digit _ = true |- _ => rewrite H; clear H
        | H : is_sep _ = true |- _ => rewrite H; clear H
        end; auto using orb_true_r. }
  assert (forall u, matches (Star (Cat re_sep (Cat re_d (Cat re_d re_d)))) u ->
            Forall (fun a => is_dos a = true) u) as Hstar.
  { intros u Hu. remember (Star _) as r eqn:Er.
    induction Hu; try discriminate; [constructor|].
    injection Er as ->. apply Forall_app_2; auto. }
  split; [simpl; eauto|]. apply Forall_app_2; [exact Hdh|].
  unfold plus in Ht. inversion Ht; subst. apply Forall_app_2; auto.
Qed.

Lemma amount_patterns_numeral :
  Forall (fun pm => numeral_pattern (fst pm) /\ (Q2Qc 0 <= snd pm)%Qc) patterns.
Proof.
  unfold patterns. repeat constructor; simpl; try (now vm_compute).
  - intros t g rest H. apply group_then_tail in H as (n & -> & Hn); [|reflexivity].
    eauto using number_is_numeral_like.
  - intros t g rest H. apply group_then_tail in H as (n & -> & Hn); [|reflexivity].
    eauto using number_is_numeral_like.
  - intros t g rest H. apply group_alone in H as (n & -> & Hn).
    eauto using grouped_is_numeral_like.
  - intros t g rest H. apply group_alone in H as (n & -> & Hn).
    apply matches_plus_digit in Hn as [Hne Hd]. exists n. split; [reflexivity|].
    split; [|now apply digits_dos].
    destruct Hd as [|a n' Ha _]; [congruence|eauto].
Qed.

(** ** The amount normaliser: the value it reads *)

Lemma span_class p s : Forall (fun a => p a = true) (fst (span p s)).
Proof.
  induction s as [|a s IH]; simpl; [constructor|].
  destruct (p a) eqn:E; [|constructor].
  destruct (span p s) as [u v]. simpl in *. now constructor.
Qed.

Lemma digit_val_nonneg a : is_digit a = true -> 0 <= digit_val a.
Proof.
  unfold is_digit, digit_val. intros H.
  apply andb_true_iff in H as [H _]. apply N.leb_le in H. lia.
Qed.

Lemma digits_value_nonneg ds :
  Forall (fun a => is_digit a = true) ds -> 0 <= digits_value ds.
Proof.
  unfold digits_value. intros H.
  assert (forall acc, 0 <= acc ->
            0 <= fold_left (fun acc a => acc * 10 + digit_val a) ds acc) as G;
    [|apply G; lia].
  induction H as [|a ds Ha H IH]; intros acc Hacc; simpl; [exact Hacc|].
  apply IH. apply digit_val_nonneg in Ha. lia.
Qed.

Lemma Q2Qc_nonneg (q : Q) : (0 <= q)%Q -> (Q2Qc 0 <= Q2Qc q)%Qc.
Proof.
  intros H. unfold Qcle. simpl.
  apply (Qle_trans _ q); [exact H|]. apply Qle_lteq. right.
  symmetry. apply Qred_correct.
Qed.

Lemma scale10_nonneg m e : 0 <= m -> (Q2Qc 0 <= scale10 m e)%Qc.
Proof.
  intros Hm. unfold scale10. destruct (0 <=? e) eqn:E;
    apply Q2Qc_nonneg; unfold Qle; simpl.
  - apply Z.leb_le in E. pose proof (Z.pow_nonneg 10 e ltac:(lia)). nia.
  - lia.
Qed.

(** [float] reads no negative number from a text that starts with a
    digit. *)
Lemma py_float_nonneg g q :
  numeral_like g -> py_float g = Some q -> (Q2Qc 0 <= q)%Qc.
Proof.
  intros [(a & g' & -> & Ha) Hdos]. unfold py_float.
  rewrite py_strip_id.
  2:{ apply stops_cons. now apply digit_facts in Ha. }
  2:{ intros b s' E.
      assert (In b (a :: g')) as Hin by (apply in_rev; rewrite E; now left).
      rewrite List.Forall_forall in Hdos. specialize (Hdos b Hin).
      destruct b as [[] [] [] [] [] [] [] []]; vm_compute in Hdos |- *;
        congruence. }
  assert (split_sign (a :: g') = (false, a :: g')) as ->.
  { apply digit_facts in Ha as (_ & _ & _ & Hm & Hp & _). simpl.
    now rewrite Hm, Hp. }
  pose proof (span_class is_digit (a :: g')) as Hip.
  destruct (span is_digit (a :: g')) as [ip s1]. simpl in Hip.
  assert (forall fp s2,
            Forall (fun a => is_digit a = true) fp ->
            match ip ++ fp with
            | [] => None
            | _ :: _ =>
                match parse_exponent s2 with
                | Some e =>
                    Some (scale10 (digits_value (ip ++ fp)) (e - Z.of_nat (length fp)))
                | None => None
                end
            end = Some q -> (Q2Qc 0 <= q)%Qc) as G.
  { intros fp s2 Hfp. destruct (ip ++ fp) eqn:E; [discriminate|].
    destruct (parse_exponent s2); [|discriminate]. intros [= <-].
    apply scale10_nonneg, digits_value_nonneg. rewrite <- E.
    now apply Forall_app_2. }
  destruct s1 as [|b t].
  - apply G. constructor.
  - destruct (eqb_ascii b ".").
    + pose proof (span_class is_digit t) as Hfp.
      destruct (span is_digit t) as [fp s2]. now apply G.
    + apply G. constructor.
Qed.

Lemma replace_char_dos c d s :
  Forall (fun a => is_dos a = true) d ->
  Forall (fun a => is_dos a = true) s ->
  Forall (fun a => is_dos a = true) (replace_char c d s).
Proof.
  intros Hd Hs. unfold replace_char. induction Hs as [|a s Ha Hs IH]; simpl.
  - constructor.
  - apply Forall_app_2; [|exact IH]. destruct (eqb_ascii a c); auto.
Qed.

Lemma replace_char_head c d a s :
  is_digit a = true -> is_sep c = true ->
  replace_char c d (a :: s) = a :: replace_char c d s.
Proof.
  intros Ha Hc. unfold replace_char. simpl.
  assert (eqb_ascii a c = false) as ->; [|reflexivity].
  apply digit_facts in Ha as (_ & _ & _ & _ & _ & Hp & Hc').
  destruct (is_sep_cases c Hc) as [-> | ->]; auto.
Qed.

Lemma normalize_numeral_like g :
  numeral_like g -> numeral_like (normalize_separators g).
Proof.
  intros [(a & g' & -> & Ha) Hdos]. unfold normalize_separators.
  assert (forall c d, is_sep c = true -> Forall (fun a => is_dos a = true) d ->
            numeral_like (replace_char c d (a :: g'))) as G.
  { intros c d Hc Hd. split.
    - rewrite replace_char_head by auto. eauto.
    - now apply replace_char_dos. }
  destruct (_ && _); [apply G; [reflexivity|constructor]|].
  destruct (_ && _); [apply G; [reflexivity|constructor]|].
  destruct (_ || _); [apply G; [reflexivity|repeat constructor]|].
  split; eauto.
Qed.

Lemma try_patterns_nonneg ps text q :
  Forall (fun pm => numeral_pattern (fst pm) /\ (Q2Qc 0 <= snd pm)%Qc) ps ->
  try_patterns ps text = Some q -> (Q2Qc 0 <= q)%Qc.
Proof.
  intros H. induction H as [|[pattern multiplier] ps [Hp Hm] H IH]; simpl;
    [discriminate|].
  destruct (re_search pattern text) as [[[num_str|] rest]|] eqn:E; auto.
  destruct (py_float (normalize_separators num_str)) as [f|] eqn:F; auto.
  intros [= <-].
  apply re_search_sound in E as (pre & t & _ & E).
  apply Hp in E as (n & [= <-] & Hn).
  apply normalize_numeral_like in Hn.
  pose proof (py_float_nonneg _ _ Hn F) as Hf.
  replace (Q2Qc 0) with (Q2Qc 0 * multiplier)%Qc by ring.
  now apply Qcmult_le_compat_r.
Qed.

(** X3. The amount that the normaliser reads is never negative. *)
Theorem normaliser_amount_not_negative (text : str) (q : Qc) :
  parse_indonesian_amount text = Some q -> (Q2Qc 0 <= q)%Qc.
Proof.
  unfold parse_indonesian_amount.
  apply try_patterns_nonneg, amount_patterns_numeral.
Qed.

Lemma normaliser_amount_not_negative_witness :
  parse_indonesian_amount (L "bayar kos -1,5jt")
  = Some (Q2Qc (1500000 # 1))
  /\ (Q2Qc 0 <= Q2Qc (1500000 # 1))%Qc.
Proof.
  assert (parse_indonesian_amount (L "bayar kos -1,5jt")
          = Some (Q2Qc (1500000 # 1))) as H.
  { apply amount_is. vm_compute. reflexivity. }
  split; [exact H|].
  exact (normaliser_amount_not_negative _ _ H).
Defined.

(** ** The amount normaliser: when it finds an amount *)

Lemma amount_patterns_digit_headed :
  Forall (fun pm => digit_headed (fst pm)) patterns.
Proof.
  unfold patterns. repeat constructor; simpl; intros t c k Ht.
  - now apply number_needs_digit.
  - now apply number_needs_digit.
  - unfold pat_grouped. rewrite mt_grp, !mt_cat. now apply mt_chr_stops.
  - unfold pat_int, plus. rewrite mt_grp, mt_cat. now apply mt_chr_stops.
Qed.

Lemma try_patterns_no_digit ps text :
  Forall (fun pm => digit_headed (fst pm)) ps -> no_digit text ->
  try_patterns ps text = None.
Proof.
  intros H Ht. induction H as [|[pattern multiplier] ps Hp H IH]; simpl;
    [reflexivity|].
  now rewrite re_search_digit_headed.
Qed.

Lemma lstrip_split s : exists ws, s = ws ++ lstrip s /\ spaces ws.
Proof.
  induction s as [|a s (ws & E & Hws)]; simpl.
  - exists []. split; [reflexivity|constructor].
  - destruct (is_space a) eqn:Ea.
    + exists (a :: ws). split; [simpl; now f_equal|now constructor].
    + exists []. split; [reflexivity|constructor].
Qed.

Lemma py_strip_split s :
  exists ws1 ws2, s = ws1 ++ py_strip s ++ ws2 /\ spaces ws1 /\ spaces ws2.
Proof.
  unfold py_strip, rstrip.
  destruct (lstrip_split s) as (ws1 & E1 & H1).
  destruct (lstrip_split (rev (lstrip s))) as (ws2 & E2 & H2).
  exists ws1, (rev ws2). repeat split; auto.
  - rewrite <- rev_app_distr, <- E2, rev_involutive. exact E1.
  - now apply Forall_rev.
Qed.

Lemma spaces_no_digit ws : spaces ws -> no_digit ws.
Proof.
  intros H. eapply Forall_impl; [exact H|]. intros a Ha.
  now apply space_facts in Ha.
Qed.

Lemma no_digit_strip s : no_digit (py_strip s) <-> no_digit s.
Proof.
  destruct (py_strip_split s) as (ws1 & ws2 & E & H1 & H2).
  rewrite E at 2. unfold no_digit. rewrite !Forall_app.
  apply spaces_no_digit in H1, H2. unfold no_digit in *. tauto.
Qed.

Lemma no_digit_lower_iff s : no_digit (py_lower s) <-> no_digit s.
Proof.
  unfold no_digit, py_lower. rewrite Forall_map.
  split; intros H; (eapply Forall_impl; [exact H|]); intros a; simpl;
    now rewrite lower_digit.
Qed.

(** A text without a digit, or its first run of digits. *)
Lemma digit_run s :
  no_digit s \/
  exists pre ds rest,
    s = pre ++ ds ++ rest /\ no_digit pre /\ digits ds /\ stops is_digit rest.
Proof.
  induction s as [|a s IH]; [left; constructor|].
  destruct (is_digit a) eqn:Ea.
  - right. exists [].
    pose proof (span_class is_digit s) as Hu.
    assert (s = fst (span is_digit s) ++ snd (span is_digit s)
            /\ stops is_digit (snd (span is_digit s))) as [E Hs].
    { clear. induction s as [|b s [E Hs]]; simpl; [split; [reflexivity|apply stops_nil]|].
      destruct (is_digit b) eqn:Eb.
      - destruct (span is_digit s) as [u v]. simpl in *. split; [now f_equal|exact Hs].
      - split; [reflexivity|now apply stops_cons]. }
    exists (a :: fst (span is_digit s)), (snd (span is_digit s)).
    split; [simpl; now f_equal|]. split; [constructor|].
    split; [|exact Hs]. split; [discriminate|now constructor].
  - destruct IH as [IH | (pre & ds & rest & -> & Hpre & Hds & Hrest)].
    + left. now constructor.
    + right. exists (a :: pre), ds, rest.
      split; [reflexivity|]. split; [now constructor|]. now split.
Qed.

Lemma search_int_finds pre ds rest :
  no_digit pre -> digits ds -> stops is_digit rest ->
  re_search pat_int (pre ++ ds ++ rest) = Some (Some ds, rest).
Proof.
  intros Hpre Hds Hrest. induction Hpre as [|a pre Ha Hpre IH].
  - simpl app. rewrite re_search_unfold. unfold pat_int. rewrite mt_grp.
    erewrite plus_digit_greedy; eauto. now rewrite take_numeral.
  - simpl app. rewrite re_search_unfold.
    assert (mt pat_int (a :: pre ++ ds ++ rest) None found = None) as ->;
      [|exact IH].
    unfold pat_int, plus. rewrite mt_grp, mt_cat.
    apply mt_chr_stops. now apply stops_cons.
Qed.

Lemma try_patterns_finds text :
  ~ no_digit text -> try_patterns patterns text <> None.
Proof.
  intros Hd. destruct (digit_run text) as [H | (pre & ds & rest & -> & Hpre & Hds & Hrest)];
    [contradiction|].
  pose proof (search_int_finds pre ds rest Hpre Hds Hrest) as Hint.
  pose proof (float_of_numeral ds [] [] Hds (or_introl (conj eq_refl eq_refl)))
    as Hfloat. rewrite app_nil_r in Hfloat.
  unfold patterns. cbn [try_patterns].
  repeat match goal with
    | |- context [re_search ?r ?s] =>
        lazymatch r with
        | pat_int => fail
        | _ => destruct (re_search r s) as [[[?|] ?]|]
        end
    | |- context [py_float ?x] =>
        lazymatch x with
        | normalize_separators ds => fail
        | _ => destruct (py_float x)
        end
    end; try discriminate; rewrite Hint, Hfloat; discriminate.
Qed.

(** X2. In an ASCII text the normaliser finds no amount exactly when
    the text holds no digit. *)
Theorem normaliser_finds_amount_iff_digit (text : str) :
  ascii_text text ->
  parse_indonesian_amount text = None <-> no_digit text.
Proof.
  intros _. unfold parse_indonesian_amount. split.
  - intros H. destruct (digit_run text) as [Hn | (pre & ds & rest & E & _ & Hds & _)];
      [exact Hn|exfalso].
    apply (try_patterns_finds (py_strip (py_lower text))); [|exact H].
    rewrite no_digit_strip, no_digit_lower_iff, E. unfold no_digit.
    rewrite !Forall_app. intros (_ & Hd & _). destruct Hds as [Hne Hall].
    destruct Hall as [|a ds Ha _]; [congruence|].
    apply Forall_cons in Hd as [Hd _]. congruence.
  - intros H. apply try_patterns_no_digit.
    + apply amount_patterns_digit_headed.
    + now apply no_digit_strip, no_digit_lower_iff.
Qed.

Lemma normaliser_finds_amount_iff_digit_witness :
  ascii_text (L "kopi 15rb")
  /\ (parse_indonesian_amount (L "kopi 15rb") = None
      <-> no_digit (L "kopi 15rb")).
Proof.
  refine (let H := _ in
          conj H (normaliser_finds_amount_iff_digit (L "kopi 15rb") H)).
  repeat constructor.
Defined.

(** ** The local fallback parser: sign and description *)

Lemma Qc_abs_nonneg q : (Q2Qc 0 <= q)%Qc -> Qc_abs q = q.
Proof.
  intros H. unfold Qc_abs. destruct (Qclt_le_dec q (Q2Qc 0)) as [Hlt|]; [|reflexivity].
  exfalso. apply (Qclt_not_le _ _ Hlt H).
Qed.

(** X4. When the text holds an amount, the local parser stores it with
    the sign of the transaction type: negated for an expense, as it is
    for an income. *)
Theorem local_parser_signs_amount (current_date : Z) (text : str) (q : Qc) :
  parse_indonesian_amount text = Some q ->
  dict_get "amount" (parse_transaction_locally current_date text)
  = VNum (if String.eqb (classify (py_lower text)) "expense"
          then (- q)%Qc else q).
Proof.
  intros H.
  assert (Q2Qc 0 <= q)%Qc as Hq.
  { unfold parse_indonesian_amount in H.
    eapply try_patterns_nonneg; [apply amount_patterns_numeral|exact H]. }
  unfold parse_transaction_locally, dict_get. cbn [dict_lookup String.eqb Ascii.eqb Bool.eqb].
  rewrite H. cbn [val_of_amount truthy option_map].
  rewrite (Qc_abs_nonneg q Hq).
  destruct (String.eqb (classify (py_lower text)) "expense");
    destruct (Qc_eq_bool q (Q2Qc 0)) eqn:E; cbn [negb andb]; try reflexivity.
  apply Qc_eq_bool_correct in E. subst q. reflexivity.
Qed.

Lemma local_parser_signs_amount_witness :
  parse_indonesian_amount (L "Beli makan siang 50rb") = Some (Q2Qc 50000)
  /\ dict_get "amount"
       (parse_transaction_locally 738886 (L "Beli makan siang 50rb"))
     = VNum (if String.eqb (classify (py_lower (L "Beli makan siang 50rb")))
                           "expense"
             then (- Q2Qc 50000)%Qc else Q2Qc 50000).
Proof.
  assert (parse_indonesian_amount (L "Beli makan siang 50rb")
          = Some (Q2Qc 50000)) as H.
  { apply amount_is. vm_compute. reflexivity. }
  split; [exact H|].
  exact (local_parser_signs_amount 738886 _ _ H).
Defined.

Lemma lstrip_result_stops s : stops is_space (lstrip s).
Proof.
  induction s as [|a s IH]; simpl; [apply stops_nil|].
  destruct (is_space a) eqn:E; [exact IH|now apply stops_cons].
Qed.

Lemma strip_ends s :
  stops is_space (py_strip s) /\ stops is_space (rev (py_strip s)).
Proof.
  unfold py_strip, rstrip. split.
  - destruct (lstrip_split (rev (lstrip s))) as (ws & E & Hws).
    pose proof (lstrip_result_stops s) as Hs.
    assert (lstrip s = rev (lstrip (rev (lstrip s))) ++ rev ws) as E'.
    { rewrite <- rev_app_distr, <- E. now rewrite rev_involutive. }
    intros a t Ht. rewrite Ht in E'. apply (Hs a (t ++ rev ws)).
    rewrite E'. reflexivity.
  - rewrite rev_involutive. apply lstrip_result_stops.
Qed.

Lemma py_strip_idempotent s : py_strip (py_strip s) = py_strip s.
Proof. apply py_strip_id; apply strip_ends. Qed.

Lemma visible_strip s : visible s -> visible (py_strip s).
Proof.
  unfold visible. destruct (py_strip_split s) as (ws1 & ws2 & E & H1 & H2).
  unfold spaces in H1, H2.
  rewrite E at 1. rewrite !Exists_app. intros [H | [H | H]]; auto; exfalso.
  - apply Exists_exists in H as (a & Ha & Hf).
    rewrite List.Forall_forall in H1. rewrite (H1 a) in Hf; [discriminate|].
    now apply list_elem_of_In.
  - apply Exists_exists in H as (a & Ha & Hf).
    rewrite List.Forall_forall in H2. rewrite (H2 a) in Hf; [discriminate|].
    now apply list_elem_of_In.
Qed.

Lemma stripped_visible s : py_strip s <> [] -> visible (py_strip s).
Proof.
  intros Hne. destruct (strip_ends s) as [H _].
  destruct (py_strip s) as [|a t]; [congruence|].
  constructor. exact (H a t eq_refl).
Qed.

Lemma local_parser_description_nonempty current_date text :
  visible text ->
  exists description,
    dict_get "description" (parse_transaction_locally current_date text)
    = VStr description /\ description <> [].
Proof.
  intros Hv. unfold parse_transaction_locally, dict_get.
  cbn [dict_lookup String.eqb Ascii.eqb Bool.eqb].
  destruct (if truthy (val_of_amount (parse_indonesian_amount text))
            then
              if truthy (VStr (py_strip (re_sub pat_rp (re_sub pat_amount_text text))))
              then py_strip (re_sub pat_rp (re_sub pat_amount_text text))
              else text
            else text) as [|a d] eqn:E.
  - assert (text = []) as ->.
    { destruct (truthy (val_of_amount _)); [|exact E].
      destruct (py_strip (re_sub pat_rp (re_sub pat_amount_text text)));
        simpl in E; [exact E|discriminate]. }
    inversion Hv.
  - set (description := a :: d) in *. cbn [truthy]. subst description.
    exists (py_strip (a :: d)). split; [reflexivity|].
    assert (a :: d = text \/ a :: d = py_strip (a :: d)) as [<- | <-];
      [| |discriminate].
    + destruct (truthy (val_of_amount _)); [|now left].
      destruct (py_strip (re_sub pat_rp (re_sub pat_amount_text text))) eqn:E';
        simpl in E; [now left|right].
      rewrite <- E, <- E'. symmetry. apply py_strip_idempotent.
    + intros Hn. apply visible_strip in Hv. rewrite Hn in Hv. inversion Hv.
Qed.

(** X5. For a text with a visible character the description that the
    local parser returns is not empty and has no white space at its
    ends. *)
Theorem local_parser_description_visible (current_date : Z) (text : str) :
  visible text ->
  exists description,
    dict_get "description" (parse_transaction_locally current_date text)
    = VStr description
    /\ visible description /\ py_strip description = description.
Proof.
  intros Hv. unfold parse_transaction_locally, dict_get.
  cbn [dict_lookup String.eqb Ascii.eqb Bool.eqb].
  assert (exists d, (d = text \/ (d = py_strip d /\ d <> [])) /\
            (if truthy (val_of_amount (parse_indonesian_amount text))
             then
               if truthy (VStr (py_strip (re_sub pat_rp (re_sub pat_amount_text text))))
               then py_strip (re_sub pat_rp (re_sub pat_amount_text text))
               else text
             else text) = d) as (d & Hd & ->).
  { destruct (truthy (val_of_amount _)); [|eauto].
    destruct (py_strip (re_sub pat_rp (re_sub pat_amount_text text))) as [|a t] eqn:E;
      simpl; [eauto|].
    eexists. split; [right|reflexivity]. split; [|discriminate].
    rewrite <- E. symmetry. apply py_strip_idempotent. }
  assert (truthy (VStr d) = true) as ->.
  { destruct Hd as [-> | [_ Hne]].
    - destruct Hv; reflexivity.
    - destruct d; [congruence|reflexivity]. }
  eexists. split; [reflexivity|]. split; [|apply py_strip_idempotent].
  destruct Hd as [-> | [E Hne]].
  - now apply visible_strip.
  - apply stripped_visible. now rewrite <- E.
Qed.

Lemma local_parser_description_visible_witness :
  visible (L " 50rb ") /\
  exists description,
    dict_get "description" (parse_transaction_locally 738886 (L " 50rb "))
    = VStr description
    /\ visible description /\ py_strip description = description.
Proof.
  assert (visible (L " 50rb ")) as H.
  { apply Exists_cons_tl, Exists_cons_hd. reflexivity. }
  split; [exact H|].
  exact (local_parser_description_visible 738886 _ H).
Defined.

(** ** The fenced JSON of a reply *)

Lemma py_split_go_length sep : forall s skip cur,
  (1 <= length (py_split_go sep skip cur s))%nat.
Proof.
  induction s as [|a s IH]; intros skip cur; simpl; [lia|].
  destruct skip as [|k]; [|apply IH].
  destruct (starts_with sep (a :: s)); [simpl; lia|apply IH].
Qed.

(** A text in which the separator occurs is split in two parts at
    least. *)
Lemma py_split_occurs sep s :
  sep <> [] -> py_in sep s = true -> (2 <= length (py_split sep s))%nat.
Proof.
  intros Hne. unfold py_split. generalize (@nil ascii) as cur.
  induction s as [|a s IH]; intros cur.
  - simpl. destruct sep; [congruence|discriminate].
  - cbn [py_in py_split_go]. destruct (starts_with sep (a :: s)) eqn:E.
    + intros _. simpl. pose proof (py_split_go_length sep s (length sep - 1) []).
      lia.
    + simpl. apply IH.
Qed.

Lemma index_in_range {A} (l : list A) i :
  (i < length l)%nat -> exists x, index l i = Ok x.
Proof.
  intros H. unfold index. destruct (l !! i) eqn:E; [eauto|].
  apply lookup_ge_None in E. lia.
Qed.

(** X6. The extraction of the JSON text of a reply never fails: the
    parts that it indexes exist whenever the fence that it tested
    occurs. *)
Theorem extract_json_never_raises (response_text : str) :
  exists json_str, extract_json response_text = Ok json_str.
Proof.
  unfold extract_json.
  destruct (py_in (L "```json") response_text) eqn:E1.
  - destruct (index_in_range (py_split (L "```json") response_text) 1)
      as [after ->].
    { apply py_split_occurs in E1; [lia|discriminate]. }
    cbn [bind].
    destruct (index_in_range (py_split (L "```") after) 0) as [inside ->].
    { pose proof (py_split_go_length (L "```") after 0 []). unfold py_split. lia. }
    cbn [bind]. eauto.
  - destruct (py_in (L "```") response_text) eqn:E2; [|eauto].
    destruct (index_in_range (py_split (L "```") response_text) 1)
      as [inside ->].
    { apply py_split_occurs in E2; [lia|discriminate]. }
    cbn [bind]. eauto.
Qed.

Lemma py_split_go_skip sep u : forall cur rest,
  py_split_go sep (length u) cur (u ++ rest) = py_split_go sep 0 cur rest.
Proof.
  induction u as [|a u IH]; intros cur rest; [reflexivity|]. simpl. apply IH.
Qed.

Lemma index_head {A} (x : A) l : index (x :: l) 0 = Ok x.
Proof. reflexivity. Qed.

Lemma index_tail {A} (x : A) l i : index (x :: l) (S i) = index l i.
Proof. reflexivity. Qed.

(** A text without the first character of the separator is passed
    over. *)
Lemma py_split_go_pass h sep' u : forall cur rest,
  Forall (fun a => eqb_ascii h a = false) u ->
  py_split_go (h :: sep') 0 cur (u ++ rest)
  = py_split_go (h :: sep') 0 (rev u ++ cur) rest.
Proof.
  induction u as [|a u IH]; intros cur rest Hu; [reflexivity|].
  apply Forall_cons in Hu as [Ha Hu]. simpl app.
  cbn [py_split_go starts_with]. rewrite Ha. cbn [andb].
  rewrite IH by exact Hu. simpl. now rewrite <- app_assoc.
Qed.

Lemma py_split_go_none h sep' s cur :
  Forall (fun a => eqb_ascii h a = false) s ->
  py_split_go (h :: sep') 0 cur s = [rev cur ++ s].
Proof.
  intros Hs. rewrite <- (app_nil_r s) at 1.
  rewrite py_split_go_pass by exact Hs. simpl.
  now rewrite rev_app_distr, rev_involutive.
Qed.

Lemma fence_without_tag cur post :
  no_backtick post -> starts_with (L "json") post = false ->
  py_split_go (L "```json") 0 cur (L "```" ++ post)
  = [rev cur ++ L "```" ++ post].
Proof.
  intros Hpost Ej. destruct post as [|b post];
    [simpl; now rewrite <- !app_assoc|].
  apply Forall_cons in Hpost as [Hb Hpost]. unfold backtick in *.
  unfold L in *.
  cbn [list_ascii_of_string app py_split_go starts_with] in *.
  change (eqb_ascii "`" "`") with true. cbn [andb].
  rewrite Ej, Hb. cbn [andb].
  rewrite py_split_go_none by exact Hpost.
  simpl. now rewrite <- !app_assoc.
Qed.

Lemma py_in_pass h w u rest :
  Forall (fun a => eqb_ascii h a = false) u ->
  py_in (h :: w) (u ++ rest) = py_in (h :: w) rest.
Proof.
  intros Hu. induction Hu as [|a u Ha Hu IH]; [reflexivity|].
  simpl app. cbn [py_in starts_with]. now rewrite Ha, IH.
Qed.

Lemma py_in_none h w u :
  Forall (fun a => eqb_ascii h a = false) u -> py_in (h :: w) u = false.
Proof.
  intros Hu. rewrite <- (app_nil_r u), py_in_pass by exact Hu. reflexivity.
Qed.

Lemma starts_with_stop w h : forall body r,
  Forall (fun a => eqb_ascii h a = false) w ->
  starts_with w body = false -> starts_with w (body ++ h :: r) = false.
Proof.
  induction w as [|a w IH]; intros body r Hw H; [discriminate|].
  apply Forall_cons in Hw as [Ha Hw].
  destruct body as [|b body]; simpl in *.
  - unfold eqb_ascii in *. now rewrite Ascii.eqb_sym, Ha.
  - apply andb_false_iff in H as [H | H]; [now rewrite H|].
    rewrite (IH _ _ Hw H). apply andb_false_r.
Qed.

(** The tagged fence occurs after [n] backticks only when the tag
    follows them. *)
Lemma py_in_backticks t : stops (eqb_ascii backtick) t ->
  forall n,
    py_in (L "```json") (repeat backtick n ++ t)
    = (3 <=? n)%nat && starts_with (L "json") t || py_in (L "```json") t.
Proof.
  intros Ht.
  assert (forall w, starts_with (backtick :: w) t = false) as Hw.
  { intros w. destruct t as [|b t]; [reflexivity|].
    cbn [starts_with]. now rewrite (Ht b t eq_refl). }
  induction n as [|n IH]; [reflexivity|].
  cbn [repeat app py_in]. rewrite IH.
  destruct n as [|[|[|n]]].
  - assert (starts_with (L "```json") (backtick :: repeat backtick 0 ++ t)
            = starts_with (backtick :: L "`json") t) as -> by reflexivity.
    now rewrite Hw.
  - assert (starts_with (L "```json") (backtick :: repeat backtick 1 ++ t)
            = starts_with (backtick :: L "json") t) as -> by reflexivity.
    now rewrite Hw.
  - assert (starts_with (L "```json") (backtick :: repeat backtick 2 ++ t)
            = starts_with (L "json") t) as -> by reflexivity.
    destruct (starts_with (L "json") t); reflexivity.
  - assert (starts_with (L "```json")
              (backtick :: repeat backtick (S (S (S n))) ++ t) = false) as ->
      by reflexivity.
    reflexivity.
Qed.

(** X7. From a reply that holds one fenced block, with or without the
    [json] tag, and no other backtick, the extraction returns the
    stripped text between the fences, whatever stands around them. *)
Theorem extract_json_fenced_block (pre body post : str) :
  no_backtick pre -> no_backtick body -> no_backtick post ->
  extract_json (pre ++ L "```json" ++ body ++ L "```" ++ post)
  = Ok (py_strip body)
  /\ (starts_with (L "json") body = false ->
      starts_with (L "json") post = false ->
      extract_json (pre ++ L "```" ++ body ++ L "```" ++ post)
      = Ok (py_strip body)).
Proof.
  intros Hpre Hbody Hpost. unfold no_backtick in *.
  assert (forall t, py_split_go (L "```") 0 [] (body ++ L "```" ++ t)
                    = body :: py_split_go (L "```") 0 [] t) as Hinner.
  { intros t. rewrite (py_split_go_pass backtick (L "``") body) by exact Hbody.
    rewrite app_nil_r. simpl. now rewrite rev_involutive. }
  split.
  - unfold extract_json.
    assert (py_in (L "```json") (pre ++ L "```json" ++ body ++ L "```" ++ post)
            = true) as ->.
    { apply py_in_spec. now exists pre, (body ++ L "```" ++ post). }
    unfold py_split.
    rewrite (py_split_go_pass backtick (L "``json") pre) by exact Hpre.
    change (py_split_go (backtick :: L "``json") 0 (rev pre ++ [])
              (L "```json" ++ body ++ L "```" ++ post))
      with (rev (rev pre ++ []) ::
              py_split_go (backtick :: L "``json") 0 []
                (body ++ L "```" ++ post)).
    rewrite app_nil_r, (rev_involutive pre).
    rewrite (py_split_go_pass backtick (L "``json") body) by exact Hbody.
    rewrite app_nil_r.
    destruct (starts_with (L "json") post) eqn:Ej.
    + apply starts_with_spec in Ej as [p ->].
      change (py_split_go (backtick :: L "``json") 0 (rev body)
                (L "```" ++ L "json" ++ p))
        with (rev (rev body) :: py_split_go (L "```json") 0 [] p).
      rewrite rev_involutive, index_tail, index_head. cbn [bind].
      rewrite (py_split_go_none backtick (L "``")) by exact Hbody.
      reflexivity.
    + change (backtick :: L "``json") with (L "```json").
      rewrite fence_without_tag by assumption. rewrite rev_involutive.
      rewrite index_tail, index_head. cbn [bind].
      rewrite Hinner, index_head. reflexivity.
  - intros Hj Hp. unfold extract_json.
    assert (py_in (L "```json") (pre ++ L "```" ++ body ++ L "```" ++ post)
            = false) as ->.
    { assert (stops (eqb_ascii backtick) post) as Hs.
      { destruct Hpost as [|b post Hb _]; [apply stops_nil|now apply stops_cons]. }
      assert (py_in (L "```json") (L "```" ++ post) = false) as Hclose.
      { replace (L "```" ++ post) with (repeat backtick 3 ++ post)
          by reflexivity.
        rewrite (py_in_backticks post Hs 3), Hp.
        now rewrite (py_in_none backtick (L "``json")). }
      rewrite (py_in_pass backtick (L "``json") pre) by exact Hpre.
      change (backtick :: L "``json") with (L "```json").
      destruct body as [|b body].
      - replace (L "```" ++ [] ++ L "```" ++ post)
          with (repeat backtick 6 ++ post) by reflexivity.
        rewrite (py_in_backticks post Hs 6), Hp.
        now rewrite (py_in_none backtick (L "``json")).
      - apply Forall_cons in Hbody as [Hb Hbody].
        replace (L "```" ++ (b :: body) ++ L "```" ++ post)
          with (repeat backtick 3 ++ (b :: body) ++ L "```" ++ post)
          by reflexivity.
        rewrite (py_in_backticks ((b :: body) ++ L "```" ++ post)
                   ltac:(now apply stops_cons) 3).
        replace ((b :: body) ++ L "```" ++ post)
          with ((b :: body) ++ backtick :: L "``" ++ post) by reflexivity.
        rewrite (starts_with_stop (L "json") backtick (b :: body) (L "``" ++ post))
          by (repeat constructor || exact Hj).
        cbn [andb orb].
        rewrite (py_in_pass backtick (L "``json") (b :: body))
          by (now constructor).
        exact Hclose. }
    assert (py_in (L "```") (pre ++ L "```" ++ body ++ L "```" ++ post)
            = true) as ->.
    { apply py_in_spec. now exists pre, (body ++ L "```" ++ post). }
    unfold py_split.
    rewrite (py_split_go_pass backtick (L "``") pre) by exact Hpre.
    change (py_split_go (backtick :: L "``") 0 (rev pre ++ [])
              (L "```" ++ body ++ L "```" ++ post))
      with (rev (rev pre ++ []) ::
              py_split_go (L "```") 0 [] (body ++ L "```" ++ post)).
    rewrite Hinner, index_tail, index_head. reflexivity.
Qed.

Lemma extract_json_fenced_block_witness :
  extract_json
    (L "Berikut datanya: " ++ L "```json" ++ (nl :: L "{}" ++ [nl]) ++ L "```"
       ++ [nl])
  = Ok (L "{}").
Proof.
  refine (proj1 (extract_json_fenced_block (L "Berikut datanya: ")
                   (nl :: L "{}" ++ [nl]) [nl] _ _ _));
    unfold no_backtick; repeat constructor.
Defined.

(** ** What the extractor returns *)

Lemma dict_set_keys k v d :
  map fst (dict_set k v d)
  = if bool_decide (k ∈ map fst d) then map fst d else map fst d ++ [k].
Proof.
  induction d as [|[k' v'] d IH]; simpl; [reflexivity|].
  destruct (String.eqb k k') eqn:E.
  - apply String.eqb_eq in E as ->. simpl.
    rewrite bool_decide_eq_true_2 by (now left). reflexivity.
  - apply String.eqb_neq in E. simpl. rewrite IH.
    destruct (bool_decide (k ∈ map fst d)) eqn:B.
    + apply bool_decide_eq_true in B.
      rewrite bool_decide_eq_true_2 by (now right). reflexivity.
    + apply bool_decide_eq_false in B.
      rewrite bool_decide_eq_false_2; [reflexivity|].
      intros H. apply elem_of_cons in H as [H | H]; congruence.
Qed.

Lemma dict_set_unique k v d :
  NoDup (map fst d) -> NoDup (map fst (dict_set k v d)).
Proof.
  intros H. rewrite dict_set_keys.
  destruct (bool_decide (k ∈ map fst d)) eqn:B; [exact H|].
  apply bool_decide_eq_false in B. apply NoDup_app. split; [exact H|].
  split; [|apply NoDup_singleton].
  intros x Hx Hk. apply list_elem_of_singleton in Hk as ->. contradiction.
Qed.

Lemma of_json_unique j d : of_json j = VDict d -> NoDup (map fst d).
Proof.
  destruct j as [| | | | |o]; try discriminate. simpl. intros [= <-].
  assert (forall d0, NoDup (map fst d0) ->
            NoDup (map fst (fold_left
                     (fun d kv => dict_set (fst kv) (of_json (snd kv)) d) o d0)))
    as G; [|apply G; constructor].
  induction o as [|kv o IH]; intros d0 H0; simpl; [exact H0|].
  apply IH. now apply dict_set_unique.
Qed.

Lemma dict_lookup_absent k d : k ∉ map fst d -> dict_lookup k d = None.
Proof.
  induction d as [|[k' v'] d IH]; simpl; [reflexivity|]. intros H.
  destruct (String.eqb k k') eqn:E.
  - apply String.eqb_eq in E as ->. exfalso. apply H. now left.
  - apply IH. intros Hin. apply H. now right.
Qed.

Lemma dict_pop_absent k d :
  NoDup (map fst d) -> dict_lookup k (dict_pop k d) = None.
Proof.
  induction d as [|[k' v'] d IH]; simpl; [reflexivity|]. intros H.
  apply NoDup_cons in H as [Hk H].
  destruct (String.eqb k k') eqn:E.
  - apply String.eqb_eq in E as ->. now apply dict_lookup_absent.
  - simpl. rewrite E. now apply IH.
Qed.

Lemma dict_lookup_set_other k k' v d :
  k <> k' -> dict_lookup k (dict_set k' v d) = dict_lookup k d.
Proof.
  intros Hne. induction d as [|[k0 v0] d IH]; simpl.
  - apply String.eqb_neq in Hne. now rewrite Hne.
  - destruct (String.eqb k' k0) eqn:E; simpl.
    + apply String.eqb_eq in E as ->. apply String.eqb_neq in Hne.
      now rewrite Hne.
    + now rewrite IH.
Qed.

Lemma resolve_time_context_unique current_date time_context data :
  NoDup (map fst data) ->
  NoDup (map fst (resolve_time_context current_date time_context data)).
Proof.
  intros H. unfold resolve_time_context.
  destruct (relative_day _ _); destruct (named_day _ _ _);
    repeat apply dict_set_unique; exact H.
Qed.

Lemma resolve_date_result current_date data data' :
  NoDup (map fst data) -> resolve_date current_date data = Ok data' ->
  NoDup (map fst data') /\ truthy (dict_get "date" data') = true.
Proof.
  intros H. unfold resolve_date.
  assert (forall d, NoDup (map fst d) ->
            (if negb (truthy (dict_get "date" d))
             then Ok (dict_set "date" (VDate current_date) d) else Ok d)
            = Ok data' ->
            NoDup (map fst data') /\ truthy (dict_get "date" data') = true) as G.
  { intros d Hd. destruct (truthy (dict_get "date" d)) eqn:E; simpl;
      intros [= <-].
    - now split.
    - split; [now apply dict_set_unique|]. now rewrite dict_get_set_same. }
  destruct (_ && _).
  - destruct (lower_of _) as [tc|e]; cbn [bind]; [|discriminate].
    apply G. now apply resolve_time_context_unique.
  - cbn [bind]. now apply G.
Qed.

Lemma reconcile_amount_result local_result data data' :
  NoDup (map fst data) -> reconcile_amount local_result data = Ok data' ->
  NoDup (map fst data') /\ dict_get "date" data' = dict_get "date" data.
Proof.
  intros H. unfold reconcile_amount.
  destruct (negb (is_none _)).
  - destruct (float_of _); cbn [bind]; [|discriminate]. intros [= <-].
    split; [now apply dict_set_unique|].
    now rewrite dict_get_set_other by discriminate.
  - destruct (truthy (dict_get "amount" local_result)).
    + destruct (negb _); intros [= <-];
        (split; [now repeat apply dict_set_unique|]);
        now rewrite !dict_get_set_other by discriminate.
    + now intros [= <-].
Qed.

Lemma finish_result text local_result data :
  NoDup (map fst data) ->
  dict_lookup "time_context" (finish text local_result data) = None
  /\ dict_get "date" (finish text local_result data) = dict_get "date" data
  /\ (truthy (dict_get_default "description" (VStr text) local_result) = true ->
      truthy (dict_get "description" (finish text local_result data)) = true).
Proof.
  intros H. unfold finish.
  destruct (truthy (dict_get "description" (dict_pop "time_context" data)))
    eqn:E; cbn [negb].
  - split; [now apply dict_pop_absent|].
    split; [now rewrite dict_get_pop_other by discriminate|]. auto.
  - split; [rewrite dict_lookup_set_other by discriminate;
            now apply dict_pop_absent|].
    split.
    + rewrite dict_get_set_other by discriminate.
      now rewrite dict_get_pop_other by discriminate.
    + now rewrite dict_get_set_same.
Qed.

Lemma process_response_steps json_loads current_date text local_result resp data :
  process_response json_loads current_date text local_result resp = Ok data ->
  exists j d0 d1 d2,
    of_json j = VDict d0 /\ resolve_date current_date d0 = Ok d1
    /\ reconcile_amount local_result d1 = Ok d2
    /\ data = finish text local_result d2.
Proof.
  unfold process_response.
  destruct resp as [response_text|e]; cbn [bind]; [|discriminate].
  destruct (extract_json response_text) as [json_str|e]; cbn [bind];
    [|discriminate].
  destruct (json_loads json_str) as [j|]; cbn [bind]; [|discriminate].
  destruct (of_json j) as [| | | | | |d0] eqn:Ej; cbn [as_dict bind];
    try discriminate.
  destruct (resolve_date current_date d0) as [d1|e] eqn:E1; cbn [bind];
    [|discriminate].
  destruct (reconcile_amount local_result d1) as [d2|e] eqn:E2; cbn [bind];
    [|discriminate].
  intros [= <-]. now exists j, d0, d1, d2.
Qed.

(** X8. Whatever the completion service replies, the record that
    [parse_financial_data] returns has no [time_context] entry, has a
    date, and, for a text with a visible character, a description. *)
Theorem extractor_result_is_complete
    (json_loads : str -> option json) (current_date local_date : Z)
    (generate_func : nat -> result response) (text : str) (data : dict) :
  parse_financial_data json_loads current_date local_date generate_func text
  = Ok data ->
  dict_lookup "time_context" data = None
  /\ truthy (dict_get "date" data) = true
  /\ (visible text -> truthy (dict_get "description" data) = true).
Proof.
  unfold parse_financial_data.
  set (local_result := parse_transaction_locally local_date text).
  assert (visible text ->
          truthy (dict_get_default "description" (VStr text) local_result)
          = true) as Hlocal.
  { intros Hv.
    destruct (local_parser_description_nonempty local_date text Hv)
      as (d & Hd & Hne).
    unfold dict_get_default. unfold dict_get in Hd. fold local_result in Hd.
    destruct (dict_lookup "description" local_result); [|discriminate].
    rewrite Hd. destruct d; [congruence|reflexivity]. }
  destruct (outer_try _ _ _ _ _) as [d|] eqn:E; intros [= <-].
  - unfold outer_try in E.
    destruct (call_gemini_with_retry generate_func 2) as [resp|e];
      cbn [bind] in E; [|discriminate].
    unfold inner_try in E.
    destruct (process_response _ _ _ _ _) as [d'|e] eqn:P.
    2:{ destruct e; discriminate. }
    injection E as ->.
    apply process_response_steps in P as (j & d0 & d1 & d2 & Hj & H1 & H2 & ->).
    apply of_json_unique in Hj.
    apply (resolve_date_result _ _ _ Hj) in H1 as [U1 D1].
    apply (reconcile_amount_result _ _ _ U1) in H2 as [U2 D2].
    destruct (finish_result text local_result d2 U2) as (F1 & F2 & F3).
    split; [exact F1|]. split; [now rewrite F2, D2|]. auto.
  - split; [reflexivity|]. split; [reflexivity|].
    intros Hv. specialize (Hlocal Hv). unfold dict_get_default in Hlocal.
    unfold dict_get.
    destruct (dict_lookup "description" local_result) eqn:L1; [exact Hlocal|].
    discriminate.
Qed.

Lemma extractor_result_is_complete_witness :
  exists data,
    parse_financial_data
      (fun _ => Some (JObj [("amount", JNum (Q2Qc 20000));
                            ("time_context", JStr (L "kemarin"))]%string))
      738886 738886 (fun _ => Ok (Ok (L "{}"))) (L "kopi")
    = Ok data
    /\ dict_lookup "time_context" data = None
    /\ truthy (dict_get "date" data) = true
    /\ (visible (L "kopi") -> truthy (dict_get "description" data) = true).
Proof.
  eexists. refine (let H := _ in conj H (extractor_result_is_complete _ _ _ _ _ _ H)).
  vm_compute. reflexivity.
Defined.

(** ** The weekday resolver, for every day *)

Lemma named_day_none names current_date time_context :
  named_day names current_date time_context = None
  <-> any_in (map fst names) time_context = false.
Proof.
  unfold any_in. induction names as [|[day_name day_num] names IH]; simpl.
  - tauto.
  - destruct (py_in (L day_name) time_context); simpl; [|exact IH].
    split; [|discriminate]. intros H. exfalso.
    repeat match type of H with
      | context [if ?b then _ else _] => destruct b
      end; discriminate.
Qed.

Lemma named_day_some names current_date time_context d :
  Forall (fun dn => 0 <= snd dn < 7) names ->
  named_day names current_date time_context = Some d ->
  exists day_name day_num,
    In (day_name, day_num) names
    /\ py_in (L day_name) time_context = true
    /\ weekday d = day_num
    /\ (if says_next time_context
        then current_date < d <= current_date + 7
        else if says_last time_context
             then current_date - 7 <= d < current_date
             else current_date - 7 < d <= current_date).
Proof.
  intros Hn. induction Hn as [|[day_name day_num] names Hnum Hn IH];
    cbn [named_day]; [discriminate|].
  destruct (py_in (L day_name) time_context) eqn:E.
  - cbv zeta. intros H. clear IH Hn. exists day_name, day_num.
    split; [now left|]. split; [exact E|].
    unfold says_next, says_last, weekday in *. simpl in Hnum.
    destruct (py_in (L "depan") time_context || py_in (L "next") time_context);
      destruct (py_in (L "lalu") time_context || py_in (L "last") time_context);
      rewrite ?andb_true_r, ?andb_false_r in H;
      repeat match type of H with
        | context [if ?b then _ else _] => destruct b eqn:?
        end;
      injection H as <-;
      repeat match goal with
        | H : (_ =? _) = true |- _ => apply Z.eqb_eq in H
        | H : (_ =? _) = false |- _ => apply Z.eqb_neq in H
        end;
      (split; Z.div_mod_to_equations; lia).
  - intros H. destruct (IH H) as (n & m & Hin & H1 & H2 & H3).
    exists n, m. split; [now right|]. auto.
Qed.

Lemma day_numbers_in_range : Forall (fun dn => 0 <= snd dn < 7) day_names.
Proof. unfold day_names. repeat constructor; simpl; lia. Qed.

(** X9. When the time context holds the name of a day of the week, the
    date is resolved to a day that bears one of the names it holds: the
    next such day after today with [depan] or [next], the last one
    before today with [lalu] or [last], and otherwise the last one up to
    and including today. *)
Theorem weekday_name_is_resolved
    (current_date : Z) (time_context : str) (data : dict) :
  any_in weekday_names time_context = true ->
  exists d day_name day_num,
    dict_get "date" (resolve_time_context current_date time_context data)
    = VDate d
    /\ In (day_name, day_num) day_names
    /\ py_in (L day_name) time_context = true
    /\ weekday d = day_num
    /\ (if says_next time_context
        then current_date < d <= current_date + 7
        else if says_last time_context
             then current_date - 7 <= d < current_date
             else current_date - 7 < d <= current_date).
Proof.
  intros H. unfold resolve_time_context.
  destruct (named_day day_names current_date time_context) as [d|] eqn:E.
  - rewrite dict_get_set_same.
    destruct (named_day_some _ _ _ _ day_numbers_in_range E)
      as (n & m & H1 & H2 & H3 & H4).
    now exists d, n, m.
  - apply named_day_none in E. unfold weekday_names in H. congruence.
Qed.

Lemma weekday_name_is_resolved_witness :
  exists d day_name day_num,
    dict_get "date" (resolve_time_context 738888 (L "jumat depan") []) = VDate d
    /\ In (day_name, day_num) day_names
    /\ py_in (L day_name) (L "jumat depan") = true
    /\ weekday d = day_num
    /\ (if says_next (L "jumat depan")
        then 738888 < d <= 738888 + 7
        else if says_last (L "jumat depan")
             then 738888 - 7 <= d < 738888
             else 738888 - 7 < d <= 738888).
Proof.
  apply (weekday_name_is_resolved 738888 (L "jumat depan") []). reflexivity.
Defined.

Lemma py_in_trans u v w post s :
  v = u ++ w ++ post -> py_in v s = true -> py_in w s = true.
Proof.
  intros -> H. apply py_in_spec in H as (a & b & ->). apply py_in_spec.
  exists (a ++ u), (post ++ b). now rewrite <- !app_assoc.
Qed.

(** X10. A time context that holds [minggu lalu] (last week) holds the
    name [minggu] (Sunday): unless it names another day or says [depan]
    or [next], the date is resolved to the last Sunday before today,
    which is seven days back only on a Sunday. *)
Theorem last_week_is_last_sunday
    (current_date : Z) (time_context : str) (data : dict) :
  py_in (L "minggu lalu") time_context = true ->
  any_in names_before_sunday time_context = false ->
  says_next time_context = false ->
  dict_get "date" (resolve_time_context current_date time_context data)
  = VDate (current_date
           - (if weekday current_date =? 6 then 7 else weekday current_date + 1)).
Proof.
  intros Hw Hnames Hnext.
  assert (py_in (L "minggu") time_context = true) as Hm.
  { now apply (py_in_trans [] (L "minggu lalu") (L "minggu") (L " lalu")). }
  assert (py_in (L "lalu") time_context = true) as Hl.
  { now apply (py_in_trans (L "minggu ") (L "minggu lalu") (L "lalu") []). }
  unfold any_in, names_before_sunday, day_names in Hnames.
  cbn [take map fst existsb] in Hnames.
  repeat (apply orb_false_iff in Hnames as [? Hnames]).
  unfold says_next in Hnext.
  unfold resolve_time_context, day_names. cbn [named_day].
  repeat match goal with H : py_in _ time_context = false |- _ =>
    rewrite H; clear H end.
  rewrite Hm, Hl, Hnext. cbn [orb andb]. rewrite dict_get_set_same.
  rewrite andb_true_r. f_equal. unfold weekday.
  destruct ((current_date + 6) mod 7 =? 6) eqn:E6;
    [apply Z.eqb_eq in E6|apply Z.eqb_neq in E6];
    destruct (((current_date + 6) mod 7 - 6) mod 7 =? 0) eqn:E0;
    [apply Z.eqb_eq in E0|apply Z.eqb_neq in E0| apply Z.eqb_eq in E0|apply Z.eqb_neq in E0];
    Z.div_mod_to_equations; lia.
Qed.

Lemma last_week_is_last_sunday_witness :
  dict_get "date" (resolve_time_context 738888 (L "minggu lalu") [])
  = VDate (738888 - 3).
Proof.
  apply (last_week_is_last_sunday 738888 (L "minggu lalu") []); reflexivity.
Defined.

(** ** The context: the setting of automatic deletion *)

(** X11. [/hapuspesan] changes the key [delete_messages] and no other;
    a user who is not authorized changes nothing; the first use sets
    the setting, and two uses in a row give a boolean setting its
    value back. *)
Theorem toggle_delete_messages_properties (ud : user_data) :
  toggle_delete_messages false ud = ud
  /\ (forall authorized k,
        k <> "delete_messages"%string ->
        toggle_delete_messages authorized ud !! k = ud !! k)
  /\ (ud !! "delete_messages" = None ->
      toggle_delete_messages true ud !! "delete_messages" = Some (VBool true))
  /\ (forall b,
        ud !! "delete_messages" = Some (VBool b) ->
        toggle_delete_messages true ud !! "delete_messages"
        = Some (VBool (negb b))
        /\ toggle_delete_messages true (toggle_delete_messages true ud) = ud).
Proof.
  split; [reflexivity|]. split; [|split].
  - intros authorized k Hk. unfold toggle_delete_messages.
    destruct authorized; cbn [negb]; [|reflexivity].
    destruct (ud !! "delete_messages"); now rewrite lookup_insert_ne.
  - intros H. unfold toggle_delete_messages. cbn [negb]. rewrite H.
    apply lookup_insert_eq.
  - intros b H. unfold toggle_delete_messages. cbn [negb]. rewrite H.
    rewrite lookup_insert_eq. split; [reflexivity|].
    rewrite insert_insert_eq. cbn [truthy]. rewrite negb_involutive.
    now apply insert_id.
Qed.

(** ** The confirmation buttons: what they leave alone *)

Lemma edit_keys_are_confirm_keys k : In k edit_keys -> In k confirm_keys.
Proof.
  unfold edit_keys, confirm_keys. cbn [In]. intuition.
Qed.

(** X12. Whatever the button, and whether or not Telegram takes the
    messages of the handler, a confirmation button changes no key of
    the context outside the ten conversation keys, and it changes the
    spreadsheet only by appending one row, on [confirm_yes]; the button
    [cancel] of an authorized user removes the ten keys also when its
    message then fails, so the handler can raise with the context
    already cleared; with the messages delivered the handler does what
    [button_confirm] says. *)
Theorem confirmation_buttons_frame
    (answered edited : option exn)
    (authorized : bool) (action : str) (user_id today : Z) (timestamp : str)
    (ud ud' : user_data) (st st' : store) (e : ending) :
  button_confirm_sent answered edited authorized action user_id today
    timestamp ud st = (ud', st', e) ->
  (forall k, ~ In k confirm_keys -> ud' !! k = ud !! k)
  /\ connected st' = connected st
  /\ (rows st' = rows st
      \/ action = L "yes" /\ exists row, rows st' = rows st ++ [row])
  /\ (authorized = true -> action = L "cancel" ->
      ud' = pop_all confirm_keys ud /\ e = after_send edited)
  /\ (answered = None -> edited = None ->
      button_confirm authorized action user_id today timestamp ud st
      = (ud', st', e)).
Proof.
  assert (forall keys : list string,
            (forall k, In k keys -> In k confirm_keys) ->
            forall (m : user_data) k, ~ In k confirm_keys ->
              pop_all keys m !! k = m !! k) as Hpop.
  { intros keys Hsub m k Hk. apply pop_all_other. auto. }
  assert (forall k, In k ["pending_transaction"; "conversation_state"]%string ->
            In k confirm_keys) as Htwo.
  { unfold confirm_keys. cbn [In]. intuition. }
  unfold button_confirm_sent, button_confirm.
  destruct authorized; cbn [negb].
  2:{ intros [= <- <- <-]. split; [reflexivity|]. split; [reflexivity|].
      split; [now left|]. split; [discriminate|].
      intros -> _. reflexivity. }
  destruct (str_eqb action (L "yes")) eqn:Ey.
  - apply str_eqb_true in Ey as ->.
    assert (Hnc : L "yes" = L "cancel" -> False) by discriminate.
    destruct (connected st) eqn:Ec; cbn [negb].
    2:{ intros [= <- <- <-]. split; [reflexivity|].
        split; [first [reflexivity | exact Ec]|].
        split; [now left|]. split; [intros _ Hx; destruct (Hnc Hx)|].
        intros _ ->. unfold confirm_yes. rewrite Ec. reflexivity. }
    intros H. split; [|split; [|split; [|split]]].
    + revert H. unfold confirm_yes. rewrite Ec. cbn [negb].
      destruct (as_dict _) as [transaction|x]; [|now intros [= <- <- <-]].
      destruct (append_raises st) as [x|]; [now intros [= <- <- <-]|].
      destruct (positive _) as [p|x]; [destruct (float_of _) as [f|x]|];
        intros [= <- <- <-]; intros k Hk; try reflexivity;
        exact (pop_all_other confirm_keys ud k Hk).
    + revert H. unfold confirm_yes. rewrite Ec. cbn [negb].
      destruct (as_dict _) as [transaction|x]; [|now intros [= <- <- <-]].
      destruct (append_raises st) as [x|]; [now intros [= <- <- <-]|].
      destruct (positive _) as [p|x]; [destruct (float_of _) as [f|x]|];
        intros [= <- <- <-]; cbn [connected]; first [reflexivity | exact Ec].
    + revert H. unfold confirm_yes. rewrite Ec. cbn [negb].
      destruct (as_dict _) as [transaction|x];
        [|intros [= <- <- <-]; now left].
      destruct (append_raises st) as [x|]; [intros [= <- <- <-]; now left|].
      destruct (positive _) as [p|x]; [destruct (float_of _) as [f|x]|];
        intros [= <- <- <-]; cbn [rows]; right; eauto.
    + intros _ H'. destruct (Hnc H').
    + intros _ _. exact H.
  - destruct (str_eqb action (L "no") || str_eqb action (L "edit")) eqn:En.
    + assert (Hnc : action = L "cancel" -> False).
      { intros ->. apply orb_true_iff in En as [En|En];
          apply str_eqb_true in En; discriminate En. }
      destruct (truthy _); intros [= <- <- <-];
        (split; [intros k Hk|
                 split; [reflexivity|
                 split; [now left|
                 split; [intros _ H'; destruct (Hnc H')|
                         intros _ ->; reflexivity]]]]).
      * exact (Hpop ["pending_transaction"; "conversation_state"]%string
                 Htwo ud k Hk).
      * change (pop_all edit_keys
                  (pop_all ["pending_transaction"; "conversation_state"]%string ud)
                !! k = ud !! k).
        rewrite (Hpop edit_keys edit_keys_are_confirm_keys) by exact Hk.
        exact (Hpop _ Htwo ud k Hk).
    + destruct (str_eqb action (L "cancel")) eqn:Ecn; intros [= <- <- <-].
      * split; [intros k Hk; exact (pop_all_other confirm_keys ud k Hk)|].
        split; [reflexivity|]. split; [now left|].
        split; [intros _ _; split; reflexivity|].
        intros _ ->. reflexivity.
      * split; [reflexivity|]. split; [reflexivity|]. split; [now left|].
        split.
        -- intros _ ->. rewrite str_eqb_refl in Ecn. discriminate.
        -- intros -> _. reflexivity.
Qed.

Lemma confirmation_buttons_frame_witness :
  button_confirm_sent None (Some (ServiceError (L "timed out"))) true
    (L "cancel") 7 738886 (L "2024-01-01 10:00:00")
    pending_context connected_store
  = (pop_all confirm_keys pending_context, connected_store,
     Raised (ServiceError (L "timed out")))
  /\ (forall k, ~ In k confirm_keys ->
        pop_all confirm_keys pending_context !! k = pending_context !! k).
Proof.
  refine (let H := _ in
          conj H (proj1 (confirmation_buttons_frame _ _ _ _ _ _ _ _ _ _ _ _ H))).
  reflexivity.
Defined.

(** ** The amounts of the summary as text *)

Lemma string_of_uint_digits d :
  Forall (fun a => is_digit a = true) (L (NilEmpty.string_of_uint d)).
Proof.
  unfold L. induction d; simpl; constructor; auto.
Qed.

Lemma decimal_digits n : Forall (fun a => is_digit a = true) (decimal n).
Proof.
  unfold decimal, NilZero.string_of_uint.
  destruct (N.to_uint n) eqn:E; try apply string_of_uint_digits.
  repeat constructor.
Qed.

Lemma replace_char_rev c l :
  replace_char c [] (rev l) = rev (replace_char c [] l).
Proof.
  unfold replace_char. induction l as [|a l IH]; [reflexivity|].
  simpl. rewrite flat_map_app, IH. simpl. rewrite rev_app_distr.
  destruct (eqb_ascii a c); simpl; now rewrite ?app_nil_r.
Qed.

Lemma replace_char_absent c l :
  Forall (fun a => eqb_ascii a c = false) l -> replace_char c [] l = l.
Proof.
  unfold replace_char. induction 1 as [|a l Ha Hl IH]; [reflexivity|].
  simpl. now rewrite Ha, IH.
Qed.

Lemma group3_step sep a b c d m :
  group3 sep (a :: b :: c :: d :: m) = a :: b :: c :: sep :: group3 sep (d :: m).
Proof. reflexivity. Qed.

(** The separators of [group3] are all that it adds. *)
Lemma group3_digits sep l :
  Forall (fun a => eqb_ascii a sep = false) l ->
  replace_char sep [] (group3 sep l) = l.
Proof.
  assert (forall n l, (length l <= n)%nat ->
            Forall (fun a => eqb_ascii a sep = false) l ->
            replace_char sep [] (group3 sep l) = l) as G; [|now apply (G (length l))].
  clear l. induction n as [n IH] using (well_founded_induction lt_wf).
  intros l Hlen Hl.
  destruct l as [|a [|b [|c [|d m]]]];
    try (now apply replace_char_absent).
  rewrite group3_step.
  apply Forall_cons in Hl as [Ha Hl]. apply Forall_cons in Hl as [Hb Hl].
  apply Forall_cons in Hl as [Hc Hl].
  assert (forall x t, replace_char sep [] (x :: t)
            = (if eqb_ascii x sep then [] else [x]) ++ replace_char sep [] t)
    as Hstep by reflexivity.
  rewrite !Hstep, Ha, Hb, Hc.
  unfold eqb_ascii at 1. rewrite Ascii.eqb_refl. cbn [app].
  rewrite (IH (length (d :: m))); auto. simpl in *. lia.
Qed.

(** X13. The text of an amount that is not negative is the decimal
    numeral of the amount rounded to the nearest integer (a tie to the
    even one), with dots added: without its dots it is that numeral, and
    it has no other character than digits and dots. *)
Theorem format_rupiah_digits (amount : Qc) :
  (Q2Qc 0 <= amount)%Qc ->
  replace_char "." [] (format_rupiah amount)
  = decimal (Z.to_N (round_half_even amount))
  /\ Forall (fun a => is_dos a = true) (format_rupiah amount).
Proof.
  intros H. unfold format_rupiah. rewrite (Qc_abs_nonneg amount H).
  destruct (Qclt_le_dec amount (Q2Qc 0)) as [Hlt|_].
  { exfalso. apply (Qclt_not_le _ _ Hlt H). }
  set (ds := decimal (Z.to_N (round_half_even amount))).
  pose proof (decimal_digits (Z.to_N (round_half_even amount))) as Hd.
  fold ds in Hd.
  assert (Forall (fun a => eqb_ascii a "." = false) (rev ds)) as Hnd.
  { apply Forall_rev. eapply Forall_impl; [exact Hd|]. intros a Ha.
    now apply digit_facts in Ha. }
  split.
  - rewrite replace_char_rev, group3_digits by exact Hnd.
    apply rev_involutive.
  - apply Forall_rev.
    assert (forall n l, (length l <= n)%nat ->
              Forall (fun a => is_digit a = true) l ->
              Forall (fun a => is_dos a = true) (group3 "." l)) as G.
    { induction n as [n IH] using (well_founded_induction lt_wf).
      intros l Hlen Hl.
      destruct l as [|a [|b [|c [|d m]]]]; try (now apply digits_dos).
      rewrite group3_step.
      apply Forall_cons in Hl as [Ha Hl]. apply Forall_cons in Hl as [Hb Hl].
      apply Forall_cons in Hl as [Hc Hl].
      constructor; [unfold is_dos; now rewrite Ha|].
      constructor; [unfold is_dos; now rewrite Hb|].
      constructor; [unfold is_dos; now rewrite Hc|].
      constructor; [reflexivity|].
      apply (IH (length (d :: m))); auto. simpl in *. lia. }
    apply (G (length (rev ds))); auto. now apply Forall_rev.
Qed.

Lemma format_rupiah_digits_witness :
  (Q2Qc 0 <= Q2Qc 1234567)%Qc
  /\ format_rupiah (Q2Qc 1234567) = L "1.234.567"
  /\ replace_char "." [] (format_rupiah (Q2Qc 1234567))
     = decimal (Z.to_N (round_half_even (Q2Qc 1234567))).
Proof.
  assert (Q2Qc 0 <= Q2Qc 1234567)%Qc as H by (now vm_compute).
  split; [exact H|]. split; [reflexivity|].
  exact (proj1 (format_rupiah_digits _ H)).
Defined.

(** ** The categories of the summary *)

Lemma add_transaction_categories g t c :
  In c (map fst (category_totals (add_transaction g t)))
  <-> In c (map fst (category_totals g)) \/ c = category_of t.
Proof.
  unfold add_transaction. fold (category_of t). cbn [category_totals].
  destruct (has_key (category_of t) (category_totals g)) eqn:E;
    cbn [negb category_totals]; rewrite update_keys.
  - split; [auto|]. intros [H | ->]; [exact H|].
    rewrite has_key_keys in E. apply existsb_exists in E as (k & Hk & Ek).
    apply str_eqb_true in Ek. now subst k.
  - rewrite map_app, in_app_iff. simpl. intuition.
Qed.

Lemma group_categories transactions : forall g c,
  In c (map fst (category_totals (fold_left add_transaction transactions g)))
  <-> In c (map fst (category_totals g))
      \/ exists t, In t transactions /\ category_of t = c.
Proof.
  induction transactions as [|t ts IH]; intros g c; simpl.
  - split; [auto|]. intros [H | (t & [] & _)]. exact H.
  - rewrite IH, add_transaction_categories. split.
    + intros [[H | ->] | (t' & Hin & <-)]; eauto.
    + intros [H | (t' & [<- | Hin] & <-)]; eauto.
Qed.

Lemma count_one (keys : list str) x :
  NoDup keys -> In x keys ->
  list_sum (map (fun c => if str_eqb c x then 1%nat else 0%nat) keys) = 1%nat.
Proof.
  induction keys as [|k keys IH]; intros Hnd Hin; [destruct Hin|].
  apply NoDup_cons in Hnd as [Hk Hnd]. simpl.
  destruct (str_eqb k x) eqn:E.
  - apply str_eqb_true in E. subst k.
    assert (list_sum (map (fun c => if str_eqb c x then 1%nat else 0%nat) keys)
            = 0%nat) as ->; [|reflexivity].
    clear IH Hin Hnd. induction keys as [|k keys IH]; [reflexivity|].
    simpl. destruct (str_eqb k x) eqn:E.
    + apply str_eqb_true in E. subst k. exfalso. apply Hk. now left.
    + apply IH. intros H. apply Hk. now right.
  - destruct Hin as [-> | Hin]; [now rewrite str_eqb_refl in E|].
    now rewrite IH.
Qed.

Lemma in_category_count (keys : list str) transactions :
  NoDup keys ->
  (forall t, In t transactions -> In (category_of t) keys) ->
  list_sum (map (fun c => length (in_category c transactions)) keys)
  = length transactions.
Proof.
  intros Hnd. induction transactions as [|t ts IH]; intros Hall.
  - clear. induction keys as [|k keys IH]; [reflexivity|exact IH].
  - assert (list_sum (map (fun c => length (in_category c (t :: ts))) keys)
            = (list_sum (map (fun c => if str_eqb c (category_of t)
                                       then 1%nat else 0%nat) keys)
               + list_sum (map (fun c => length (in_category c ts)) keys))%nat)
      as ->.
    { clear. induction keys as [|k keys IHk]; [reflexivity|].
      cbn [map].
      assert (forall x l, list_sum (x :: l) = (x + list_sum l)%nat) as Hc
        by reflexivity.
      rewrite !Hc, IHk.
      unfold in_category. cbn [List.filter].
      destruct (str_eqb k (category_of t)); cbn [length]; lia. }
    rewrite count_one, IH; auto.
    + intros t' Hin. apply Hall. now right.
    + apply Hall. now left.
Qed.

(** X14. In the summary every category of the transactions has exactly
    one block, no other category has one, and the blocks hold, with the
    items that they show or count, each transaction once. *)
Theorem summary_lists_each_transaction_once (transactions : list transaction) :
  let g := group_transactions transactions in
  let categories := map fst (sorted_categories g) in
  NoDup categories
  /\ (forall category,
        In category categories
        <-> exists t, In t transactions /\ category_of t = category)
  /\ list_sum (map (fun category => length (items_of g category)) categories)
     = length transactions.
Proof.
  cbv zeta.
  pose proof (sorted_desc_perm snd
                (category_totals (group_transactions transactions))) as Hperm.
  fold (sorted_categories (group_transactions transactions)) in Hperm.
  assert (map fst (sorted_categories (group_transactions transactions))
          ≡ₚ map fst (category_totals (group_transactions transactions)))
    as Hkeys by (now apply Permutation_map).
  assert (NoDup (map fst (sorted_categories (group_transactions transactions))))
    as Hnd.
  { rewrite Hkeys. apply group_nodup. constructor. }
  assert (forall category,
            In category (map fst (sorted_categories (group_transactions transactions)))
            <-> exists t, In t transactions /\ category_of t = category) as Hin.
  { intros category. rewrite <- !list_elem_of_In, Hkeys, list_elem_of_In.
    unfold group_transactions. rewrite group_categories. simpl.
    intuition. }
  split; [exact Hnd|]. split; [exact Hin|].
  rewrite (map_ext _ (fun c => length (in_category c transactions))).
  2:{ intros c. rewrite (proj1 (grouping_by_category transactions c)).
      apply length_map. }
  apply in_category_count; [exact Hnd|].
  intros t Ht. apply Hin. eauto.
Qed.

(** ** Deleting all the rows, twice *)

Lemma confirm_delete_all_sheet user_id header body :
  confirm_delete_all user_id (header :: body)
  = Ok (header
          :: List.filter (fun row => negb (owned_by user_id header row)) body,
        rev (owned_numbered user_id header 2 body)).
Proof.
  unfold confirm_delete_all. cbn [index lookup list_lookup bind drop].
  rewrite sorted_desc_collected.
  pose proof (delete_loop_descending user_id header [header] body [] []) as H.
  simpl in H. rewrite !app_nil_r in H. exact H.
Qed.

Lemma owned_numbered_none user_id header body : forall i,
  Forall (fun row => owned_by user_id header row = false) body ->
  owned_numbered user_id header i body = [].
Proof.
  induction body as [|row body IH]; intros i H; [reflexivity|].
  apply Forall_cons in H as [Hr H]. simpl. rewrite Hr. now apply IH.
Qed.

(** X15. Delete-all is idempotent: run again on the sheet that it
    left, it removes nothing and leaves the sheet as it is. *)
Theorem delete_all_again_removes_nothing
    (user_id : Z) (sheet sheet' : list (list str))
    (removed : list (nat * list str)) :
  confirm_delete_all user_id sheet = Ok (sheet', removed) ->
  confirm_delete_all user_id sheet' = Ok (sheet', []).
Proof.
  destruct sheet as [|header body]; [discriminate|].
  rewrite confirm_delete_all_sheet. intros [= <- _].
  rewrite confirm_delete_all_sheet.
  set (others := List.filter (fun row => negb (owned_by user_id header row)) body).
  assert (Forall (fun row => owned_by user_id header row = false) others) as H.
  { apply List.Forall_forall. intros row Hin.
    apply List.filter_In in Hin as [_ Hin]. now apply negb_true_iff in Hin. }
  rewrite owned_numbered_none by exact H. simpl. do 3 f_equal.
  clear -H. induction H as [|row l Hr H IH]; [reflexivity|].
  simpl. rewrite Hr. simpl. now f_equal.
Qed.

Lemma delete_all_again_removes_nothing_witness :
  let sheet :=
    [ [L "Date"; L "User ID"]; [L "2024-01-01"; L "7"];
      [L "2024-01-02"; L "8"]; [L "2024-01-03"; L "7"] ] in
  let sheet' := [ [L "Date"; L "User ID"]; [L "2024-01-02"; L "8"] ] in
  confirm_delete_all 7 sheet
  = Ok (sheet', [ (4%nat, [L "2024-01-03"; L "7"]);
                  (2%nat, [L "2024-01-01"; L "7"]) ])
  /\ confirm_delete_all 7 sheet' = Ok (sheet', []).
Proof.
  cbv zeta.
  refine (let H := _ in conj H (delete_all_again_removes_nothing _ _ _ _ H)).
  reflexivity.
Defined.

(** ** The amount normaliser on grouped digits *)

(** The patterns with a magnitude suffix match no text of digits and
    separators. *)
Lemma suffix_patterns_need_letter s :
  Forall (fun a => is_dos a = true) s ->
  re_search pat_juta s = None /\ re_search pat_ribu s = None.
Proof.
  intros Hs.
  assert (forall tail,
            (forall w, matches tail w -> exists a, In a w /\ is_dos a = false) ->
            re_search (Cat (Grp re_number) (Cat (Star re_s) tail)) s = None) as G.
  { intros tail Htail.
    destruct (re_search _ s) as [m|] eqn:E; [exfalso|reflexivity].
    apply re_search_sound in E as (pre & t & -> & E).
    apply mt_sound in E as (s1 & s2 & c' & -> & Hm & _).
    inversion Hm as [| |r1 r2 n u Hn Hu| | | | |]; subst.
    inversion Hu as [| |r1 r2 ws w Hws Hw| | | | |]; subst.
    apply Htail in Hw as (a & Ha & Hd).
    rewrite List.Forall_forall in Hs. rewrite Hs in Hd; [discriminate|].
    rewrite !in_app_iff. auto 10. }
  assert (forall word w, matches (lit word) w -> w = L word) as Hlit.
  { intros word w H. now apply matches_lit in H. }
  split; apply G; intros w Hw.
  - exists "j"%char. split; [|reflexivity].
    inversion Hw as [| | |r1 r2 x H1|r1 r2 x H1| | |]; subst;
      apply Hlit in H1; subst; now left.
  - inversion Hw as [| | |r1 r2 x H1|r1 r2 x H1| | |]; subst.
    + exists "r"%char. split; [|reflexivity]. apply Hlit in H1. subst. now left.
    + inversion H1 as [| | |r1 r2 y H2|r1 r2 y H2| | |]; subst;
        apply Hlit in H2; subst.
      * exists "r"%char. split; [|reflexivity]. now left.
      * exists "k"%char. split; [|reflexivity]. now left.
Qed.

Ltac run_matcher :=
  unfold pat_grouped, plus, opt, re_d, re_sep;
  do 8 (cbn [mt star_loop length Nat.ltb Nat.leb app];
        repeat match goal with
          | H : _ = true |- _ => rewrite H
          | H : _ = false |- _ => rewrite H
          end);
  reflexivity.

(** The grouped pattern takes one to three digits and then every group
    of a separator and three digits. *)
Lemma grouped_match_one a sep b :
  digits a -> (length a <= 3)%nat -> digits b -> length b = 3%nat ->
  is_sep sep = true ->
  mt pat_grouped (a ++ sep :: b) None found = Some (Some (a ++ sep :: b), []).
Proof.
  intros [Hna Ha] Hla [_ Hb] Hlb Hs.
  pose proof (sep_facts sep Hs) as (_ & Hsd & _).
  destruct b as [|b1 [|b2 [|b3 [|]]]]; try discriminate.
  apply Forall_cons in Hb as [H1 Hb]. apply Forall_cons in Hb as [H2 Hb].
  apply Forall_cons in Hb as [H3 _].
  destruct a as [|a1 [|a2 [|a3 [|]]]]; try congruence; simpl in Hla; try lia;
    repeat match goal with
      | H : Forall _ (_ :: _) |- _ => apply Forall_cons in H as [? H]
      end;
    run_matcher.
Qed.

Lemma grouped_match_two a sep b c :
  digits a -> (length a <= 3)%nat -> digits b -> length b = 3%nat ->
  digits c -> length c = 3%nat -> is_sep sep = true ->
  mt pat_grouped (a ++ sep :: b ++ sep :: c) None found
  = Some (Some (a ++ sep :: b ++ sep :: c), []).
Proof.
  intros [Hna Ha] Hla [_ Hb] Hlb [_ Hc] Hlc Hs.
  pose proof (sep_facts sep Hs) as (_ & Hsd & _).
  destruct b as [|b1 [|b2 [|b3 [|]]]]; try discriminate.
  destruct c as [|c1 [|c2 [|c3 [|]]]]; try discriminate.
  repeat match goal with
    | H : Forall _ (_ :: _) |- _ => apply Forall_cons in H as [? H]
    end.
  destruct a as [|a1 [|a2 [|a3 [|]]]]; try congruence; simpl in Hla; try lia;
    repeat match goal with
      | H : Forall _ (_ :: _) |- _ => apply Forall_cons in H as [? H]
      end;
    run_matcher.
Qed.

Lemma dos_text_unchanged s :
  numeral_like s -> stops is_space (rev s) -> py_strip (py_lower s) = s.
Proof.
  intros [(a & s' & -> & Ha) Hdos] Hlast.
  rewrite lower_fixed.
  - apply py_strip_id; [|exact Hlast]. apply stops_cons.
    now apply digit_facts in Ha.
  - eapply Forall_impl; [exact Hdos|]. intros b Hb. unfold is_dos in Hb.
    apply orb_true_iff in Hb as [Hb | Hb].
    + now apply digit_facts in Hb.
    + now apply sep_facts in Hb.
Qed.

Lemma ends_with_digit s d : is_digit d = true -> stops is_space (rev (s ++ [d])).
Proof.
  intros Hd. rewrite rev_app_distr. simpl. apply stops_cons.
  now apply digit_facts in Hd.
Qed.

Lemma digits_last b : digits b -> exists b' d, b = b' ++ [d] /\ is_digit d = true.
Proof.
  intros [Hne Hb]. destruct (exists_last Hne) as (b' & d & ->).
  exists b', d. split; [reflexivity|].
  apply Forall_app in Hb as [_ Hd]. now apply Forall_cons in Hd as [Hd _].
Qed.



(** ** The spreadsheet id *)

(** Group 1 of a pattern [a(r0)] holds a word of [r0]. *)
Lemma prefix_then_group a r0 t g rest :
  mt (Cat a (Grp r0)) t None found = Some (g, rest) ->
  exists n, g = Some n /\ matches r0 n.
Proof.
  rewrite mt_cat. intros H.
  apply mt_sound in H as (s1 & s2 & c' & -> & _ & H).
  rewrite mt_grp in H.
  apply mt_sound in H as (s3 & s4 & c'' & -> & Hm & H).
  rewrite take_numeral in H. injection H as <- _. eauto.
Qed.

Lemma matches_plus_class p n :
  matches (plus (Chr p)) n -> n <> [] /\ Forall (fun a => p a = true) n.
Proof.
  unfold plus. intros H. invert_matches.
  match goal with H : matches (Star _) _ |- _ => apply matches_star_chr in H end.
  split; [discriminate|]. now constructor.
Qed.

Lemma sheet_id_found id rest :
  id <> [] -> Forall (fun a => is_id_char a = true) id ->
  stops is_id_char rest ->
  re_search pat_sheet_id (SPREADSHEET_URL id ++ rest) = Some (Some id, rest).
Proof.
  intros Hne Hid Hrest. destruct Hid as [|a id Ha Hid]; [congruence|].
  unfold SPREADSHEET_URL, L. cbn [list_ascii_of_string app].
  do 36 (rewrite re_search_unfold;
         match goal with
         | |- context [mt pat_sheet_id ?s None found] =>
             change (mt pat_sheet_id s None found)
               with (@None (option str * str))
         end).
  rewrite re_search_unfold.
  unfold pat_sheet_id, lit, L. cbn [list_ascii_of_string lit_of].
  repeat (first [rewrite mt_cat | rewrite mt_chr_cons | rewrite mt_eps];
          try change (eqb_ascii "/" "/") with true;
          try change (eqb_ascii "d" "d") with true; cbv iota).
  rewrite mt_grp. unfold plus. rewrite mt_cat.
  replace ((a :: id) ++ rest) with (a :: id ++ rest) by reflexivity.
  rewrite mt_chr_cons, Ha.
  erewrite star_chr_greedy; eauto.
  unfold found. do 2 f_equal.
  change (a :: id ++ rest) with ((a :: id) ++ rest). now rewrite take_numeral.
Qed.

(** X17. A spreadsheet id written with letters, digits, [-] and [_] is
    recovered from the URL that the bot builds for it, also when a path
    such as [/edit] follows; and validating is idempotent: the result of
    a validation is validated to itself. *)
Theorem spreadsheet_id_round_trip :
  (forall id rest,
      id <> [] -> Forall (fun a => is_id_char a = true) id ->
      stops is_id_char rest ->
      validate_spreadsheet_id (Some (SPREADSHEET_URL id ++ rest)) = Some id)
  /\ (forall spreadsheet_id,
        validate_spreadsheet_id (validate_spreadsheet_id spreadsheet_id)
        = validate_spreadsheet_id spreadsheet_id).
Proof.
  split.
  - intros id rest Hne Hid Hrest. unfold validate_spreadsheet_id.
    assert (truthy (VStr (SPREADSHEET_URL id ++ rest)) = true) as -> by reflexivity.
    assert (starts_with (L "http") (SPREADSHEET_URL id ++ rest) = true) as ->
      by reflexivity.
    rewrite andb_false_r. cbn [negb].
    assert (py_in (L "docs.google.com/spreadsheets/d/")
              (SPREADSHEET_URL id ++ rest) = true) as ->.
    { apply py_in_spec. exists (L "https://"), (id ++ rest).
      unfold SPREADSHEET_URL. now rewrite <- !app_assoc. }
    now rewrite sheet_id_found.
  - intros [s|]; [|reflexivity].
    assert (validate_spreadsheet_id (Some s) = None
            \/ validate_spreadsheet_id (Some s) = Some s
            \/ exists n, validate_spreadsheet_id (Some s) = Some n
                  /\ n <> [] /\ Forall (fun a => is_id_char a = true) n)
      as [-> | [E | (n & -> & Hne & Hn)]].
    { unfold validate_spreadsheet_id.
      destruct (negb (truthy (VStr s))); [now left|].
      destruct (_ && _); [now right; left|].
      destruct (py_in _ s); [|now right; left].
      destruct (re_search pat_sheet_id s) as [[[n|] rest]|] eqn:E4;
        [|now right; left|now right; left].
      right. right. exists n. split; [reflexivity|].
      apply re_search_sound in E4 as (pre & t & _ & E4).
      apply prefix_then_group in E4 as (n' & [= <-] & Hn).
      now apply matches_plus_class in Hn. }
    + reflexivity.
    + now rewrite !E.
    + unfold validate_spreadsheet_id.
      assert (truthy (VStr n) = true) as ->
        by (destruct n; [congruence|reflexivity]).
      cbn [negb].
      destruct ((length n =? 44)%nat && negb (starts_with (L "http") n));
        [reflexivity|].
      assert (py_in (L "docs.google.com/spreadsheets/d/") n = false) as ->;
        [|reflexivity].
      destruct (py_in _ n) eqn:E; [exfalso|reflexivity].
      apply py_in_spec in E as (u & v & ->).
      rewrite List.Forall_forall in Hn.
      specialize (Hn "."%char). rewrite !in_app_iff in Hn.
      assert (is_id_char "." = true) as Hdot.
      { apply Hn. right. left. unfold L. simpl. auto 10. }
      discriminate.
Qed.

(** ** The authorized users *)

Lemma L_inj (s t : string) : L s = L t -> s = t.
Proof.
  unfold L. intros H.
  rewrite <- (string_of_list_ascii_of_string s),
    <- (string_of_list_ascii_of_string t). now rewrite H.
Qed.

Lemma decimal_inj n m : decimal n = decimal m -> n = m.
Proof.
  unfold decimal. intros H. apply L_inj in H.
  apply DecimalN.Unsigned.to_uint_inj.
  assert (forall k, N.to_uint k <> Decimal.Nil) as Hnn.
  { intros [|p]; [discriminate|]. apply DecimalPos.Unsigned.to_uint_nonnil. }
  pose proof (NilZero.usu _ (Hnn n)) as Hn.
  pose proof (NilZero.usu _ (Hnn m)) as Hm.
  rewrite H in Hn. congruence.
Qed.

Lemma decimal_nonempty n : decimal n <> [].
Proof.
  unfold decimal, NilZero.string_of_uint.
  destruct (N.to_uint n); discriminate.
Qed.

Lemma str_of_Z_inj n m : str_of_Z n = str_of_Z m -> n = m.
Proof.
  unfold str_of_Z.
  assert (forall k t, decimal k <> "-"%char :: t) as Hsign.
  { intros k t H. pose proof (decimal_digits k) as Hd. rewrite H in Hd.
    apply Forall_cons in Hd as [Hd _]. discriminate. }
  destruct (n <? 0) eqn:En, (m <? 0) eqn:Em; intros H.
  - injection H as H. apply decimal_inj in H.
    apply Z.ltb_lt in En, Em. lia.
  - symmetry in H. now apply Hsign in H.
  - now apply Hsign in H.
  - apply decimal_inj in H. apply Z.ltb_ge in En, Em. lia.
Qed.

Lemma str_of_Z_no_comma n :
  Forall (fun a => eqb_ascii "," a = false) (str_of_Z n).
Proof.
  assert (forall k, Forall (fun a => eqb_ascii "," a = false) (decimal k)) as H.
  { intros k. eapply Forall_impl; [apply decimal_digits|]. intros a Ha.
    apply digit_facts in Ha as (_ & _ & _ & _ & _ & _ & Hc).
    unfold eqb_ascii in *. now rewrite Ascii.eqb_sym. }
  unfold str_of_Z. destruct (n <? 0); [constructor; [reflexivity|]|]; apply H.
Qed.

(** Splitting what was joined gives the parts back. *)
Lemma py_split_join c parts :
  parts <> [] ->
  Forall (Forall (fun a => eqb_ascii c a = false)) parts ->
  py_split [c] (join_with [c] parts) = parts.
Proof.
  intros Hne H. unfold py_split.
  induction H as [|p parts Hp H IH]; [congruence|].
  destruct parts as [|q parts].
  - simpl. now rewrite (py_split_go_none c []).
  - change (join_with [c] (p :: q :: parts))
      with (p ++ [c] ++ join_with [c] (q :: parts)).
    rewrite (py_split_go_pass c [] p) by exact Hp.
    rewrite app_nil_r.
    change (py_split_go [c] 0 (rev p) ([c] ++ join_with [c] (q :: parts)))
      with (if starts_with [c] (c :: join_with [c] (q :: parts))
            then rev (rev p) :: py_split_go [c] 0 [] (join_with [c] (q :: parts))
            else py_split_go [c] 0 (c :: rev p) (join_with [c] (q :: parts))).
    cbn [starts_with]. unfold eqb_ascii at 1. rewrite Ascii.eqb_refl.
    cbn [andb]. rewrite rev_involutive. f_equal. apply IH. discriminate.
Qed.

(** X18. With [AUTHORIZED_USER_ID] set to a list of user ids joined by
    commas, [is_authorized] accepts exactly the ids of the list, and
    the start-up check passes; with the variable empty or unset nobody
    is authorized and the start-up check raises [ValueError]. *)
Theorem authorized_users_are_the_listed_ones :
  (forall ids user_id,
      ids <> [] ->
      let env := join_with (L ",") (map str_of_Z ids) in
      (is_authorized env user_id = true <-> In user_id ids)
      /\ check_authorized_users env = Ok tt)
  /\ (forall user_id, is_authorized [] user_id = false)
  /\ check_authorized_users [] = Raise ValueError.
Proof.
  split; [|split; [|reflexivity]].
  - intros ids user_id Hne. cbv zeta.
    assert (AUTHORIZED_USER_IDS (join_with (L ",") (map str_of_Z ids))
            = map str_of_Z ids) as Hsplit.
    { unfold AUTHORIZED_USER_IDS. apply (py_split_join ",").
      - destruct ids; [congruence|discriminate].
      - apply Forall_map. apply List.Forall_forall. intros n _.
        apply str_of_Z_no_comma. }
    split.
    + unfold is_authorized. rewrite Hsplit, existsb_exists. split.
      * intros (entry & Hin & E). apply str_eqb_true in E. subst entry.
        apply in_map_iff in Hin as (n & E & Hin).
        apply str_of_Z_inj in E. now subst n.
      * intros Hin. exists (str_of_Z user_id). split; [|apply str_eqb_refl].
        now apply in_map.
    + unfold check_authorized_users. rewrite Hsplit.
      destruct ids as [|n ids]; [congruence|]. cbn [map andb].
      rewrite bool_decide_eq_false_2; [reflexivity|].
      intros [= H _]. unfold str_of_Z in H.
      destruct (n <? 0); [discriminate|]. now apply decimal_nonempty in H.
  - intros user_id. unfold is_authorized, AUTHORIZED_USER_IDS. simpl.
    rewrite orb_false_r. apply bool_decide_eq_false. unfold str_of_Z.
    destruct (user_id <? 0); [discriminate|]. apply decimal_nonempty.
Qed.

(** ** Deleting by date *)

Lemma is_digit_code a :
  is_digit a = true <-> (48 <= code a <= 57)%N.
Proof.
  unfold is_digit. rewrite andb_true_iff, !N.leb_le. tauto.
Qed.

Lemma code_inj a b : code a = code b -> a = b.
Proof.
  unfold code. intros H.
  rewrite <- (ascii_N_embedding a), <- (ascii_N_embedding b). now f_equal.
Qed.

Lemma str_ltb_cons a b s t :
  str_ltb (a :: s) (b :: t)
  = ((code a <? code b)%N || ((code a =? code b)%N && str_ltb s t)).
Proof. reflexivity. Qed.

Lemma str_ltb_cons_same a s t : str_ltb (a :: s) (a :: t) = str_ltb s t.
Proof.
  rewrite str_ltb_cons, N.ltb_irrefl, N.eqb_refl. reflexivity.
Qed.

(** The ten characters of a text of the form. *)
Lemma date_parts_chars s y m d :
  date_parts s y m d ->
  exists a1 a2 a3 a4 b1 b2 c1 c2,
    y = [a1; a2; a3; a4] /\ m = [b1; b2] /\ d = [c1; c2]
    /\ s = [a1; a2; a3; a4; "-"%char; b1; b2; "-"%char; c1; c2]
    /\ Forall (fun a => is_digit a = true) [a1; a2; a3; a4; b1; b2; c1; c2].
Proof.
  intros (Hf & Hy & Hm & Hd & ->).
  destruct y as [|a1 [|a2 [|a3 [|a4 [|]]]]]; try discriminate.
  destruct m as [|b1 [|b2 [|]]]; try discriminate.
  destruct d as [|c1 [|c2 [|]]]; try discriminate.
  exists a1, a2, a3, a4, b1, b2, c1, c2. repeat split. exact Hf.
Qed.

Lemma date_format_accepts s :
  re_match_end pat_date s = true
  <-> date_shaped s \/ exists s0, s = s0 ++ [nl] /\ date_shaped s0.
Proof.
  split.
  - unfold re_match_end, pat_date, re_d, re_dash. intros H.
    do 10 (destruct s as [|? s]; cbn [mt] in H; [discriminate H|];
           match type of H with
           | context [is_digit ?a] => destruct (is_digit a) eqn:?
           | context [eqb_ascii ?a ?b] => destruct (eqb_ascii a b) eqn:?
           end; [|discriminate H]).
    repeat match goal with
           | E : eqb_ascii _ _ = true |- _ => apply eqb_ascii_true in E; subst
           end.
    assert (Hs : forall y1 y2 y3 y4 m1 m2 d1 d2,
               is_digit y1 = true -> is_digit y2 = true -> is_digit y3 = true ->
               is_digit y4 = true -> is_digit m1 = true -> is_digit m2 = true ->
               is_digit d1 = true -> is_digit d2 = true ->
               date_shaped [y1; y2; y3; y4; "-"%char; m1; m2; "-"%char; d1; d2]).
    { intros. exists [y1; y2; y3; y4], [m1; m2], [d1; d2].
      repeat split. simpl. repeat constructor; assumption. }
    case_bool_decide as Hr; [|discriminate H].
    destruct Hr as [-> | ->].
    + left. apply Hs; assumption.
    + right. exists [a; a0; a1; a2; "-"%char; a4; a5; "-"%char; a7; a8].
      split; [reflexivity|apply Hs; assumption].
  - assert (Hm : forall s0 rest, date_shaped s0 -> rest = [] \/ rest = [nl] ->
                   re_match_end pat_date (s0 ++ rest) = true).
    { intros s0 rest (y & m & d & Hp) Hr.
      destruct (date_parts_chars _ _ _ _ Hp)
        as (a1 & a2 & a3 & a4 & b1 & b2 & c1 & c2 & _ & _ & _ & -> & Hf).
      repeat match goal with
             | H : Forall _ (_ :: _) |- _ => inversion H; clear H; subst
             end.
      unfold re_match_end, pat_date, re_d, re_dash. simpl.
      repeat match goal with
             | E : is_digit _ = true |- _ => rewrite E; clear E
             end.
      simpl. rewrite bool_decide_true by exact Hr. reflexivity. }
    intros [H | (s0 & -> & H)].
    + rewrite <- (app_nil_r s). apply Hm; auto.
    + apply Hm; auto.
Qed.

Lemma py_strip_no_trailing_space text s0 a :
  py_strip text = s0 ++ [a] -> is_space a = false.
Proof.
  unfold py_strip, rstrip. intros H.
  assert (E : lstrip (rev (lstrip text)) = a :: rev s0).
  { rewrite <- (rev_involutive (lstrip (rev (lstrip text)))), H.
    rewrite rev_app_distr. reflexivity. }
  revert E. generalize (rev (lstrip text)) as u. generalize (rev s0) as v.
  intros v u. induction u as [|b u IH]; simpl; [discriminate|].
  destruct (is_space b) eqn:Eb; auto.
  intros [= -> _]. exact Eb.
Qed.

Lemma date_format_stripped text :
  re_match_end pat_date (py_strip text) = true <-> date_shaped (py_strip text).
Proof.
  rewrite date_format_accepts. split; [|now left].
  intros [H | (s0 & E & _)]; [exact H|].
  apply py_strip_no_trailing_space in E. discriminate E.
Qed.

Lemma digit_lower a : is_digit a = true -> lower_ascii a = a.
Proof.
  intros H. apply is_digit_code in H. unfold lower_ascii, is_upper.
  destruct (65 <=? code a)%N eqn:E; [|reflexivity].
  apply N.leb_le in E. lia.
Qed.

Lemma date_shaped_not_cancel s :
  date_shaped s ->
  existsb (fun w => str_eqb (py_lower s) (L w)) cancel_words = false.
Proof.
  intros (y & m & d & Hp).
  destruct (date_parts_chars _ _ _ _ Hp)
    as (a1 & a2 & a3 & a4 & b1 & b2 & c1 & c2 & _ & _ & _ & -> & Hf).
  inversion Hf as [|? ? H1 _]; subst.
  unfold cancel_words. cbn [existsb py_lower map].
  rewrite (digit_lower _ H1).
  assert (Hh : forall u b v, is_digit b = false -> str_eqb (a1 :: u) (b :: v) = false).
  { intros u b v Hb. unfold str_eqb. apply bool_decide_eq_false.
    intros [= -> _]. congruence. }
  change (L "batal") with ("b"%char :: L "atal").
  change (L "cancel") with ("c"%char :: L "ancel").
  change (L "batalkan") with ("b"%char :: L "atalkan").
  rewrite !Hh by reflexivity. reflexivity.
Qed.

Lemma existsb_cancel_iff s :
  existsb (fun w => str_eqb s (L w)) cancel_words = true
  <-> In s (map L cancel_words).
Proof.
  rewrite existsb_exists. split.
  - intros (w & Hw & E). apply str_eqb_true in E. subst. now apply in_map.
  - intros H. apply in_map_iff in H. destruct H as (w & <- & Hw).
    exists w. split; auto. apply str_eqb_refl.
Qed.

(** X19: for an ASCII text, [handle_date_input] reads a date as four
    digits, two digits and two digits with dashes between, whatever
    their values (the text [2024-13-45] is taken); without a running
    flow, or for a text that is neither of this form nor a word of
    cancellation, the context stays as it is; a word of cancellation
    removes the three keys of the flow and nothing else; a text of the
    form, waiting for the start date, is stored as the start date. *)
Theorem date_input_takes_dates_only
    (date_text : Z -> str) (user_id : Z) (text : str) (connected : bool)
    (sheet : result (list sheet_record)) (ud : user_data) :
  ascii_text text ->
  let message_text := py_strip text in
  let ud' := (handle_date_input date_text user_id text connected sheet ud).1 in
  (re_match_end pat_date message_text = true <-> date_shaped message_text)
  /\ date_shaped (L "2024-13-45")
  /\ (ud !! "delete_state" = None -> ud' = ud)
  /\ (~ In (py_lower message_text) (map L cancel_words) ->
      ~ date_shaped message_text -> ud' = ud)
  /\ (ud !! "delete_state" <> None ->
      In (py_lower message_text) (map L cancel_words) ->
      forall k : string,
        ud' !! k
        = if bool_decide
               (In k ["delete_state"; "start_date"; "records_to_delete"]%string)
          then None else ud !! k)
  /\ (forall v,
        ud !! "delete_state" = Some v ->
        eq_str v "awaiting_start_date" = true ->
        date_shaped message_text ->
        ud' = <["delete_state" := VStr (L "awaiting_end_date")]>
                (<["start_date" := VStr message_text]> ud)).
Proof.
  intros _ message_text ud'.
  pose proof (date_format_stripped text) as Hfmt. fold message_text in Hfmt.
  split; [exact Hfmt|].
  split.
  { exists (L "2024"), (L "13"), (L "45"). repeat split.
    repeat constructor. }
  subst ud'. unfold handle_date_input. fold message_text.
  split; [intros ->; reflexivity|].
  split.
  { intros Hc Hd. destruct (ud !! "delete_state"); [|reflexivity].
    destruct (existsb _ cancel_words) eqn:Ec.
    - apply existsb_cancel_iff in Ec. contradiction.
    - destruct (re_match_end pat_date message_text) eqn:Em; [|reflexivity].
      exfalso. apply Hd, Hfmt. reflexivity. }
  split.
  { intros Hs Hc. destruct (ud !! "delete_state"); [|congruence].
    apply existsb_cancel_iff in Hc. rewrite Hc. cbn [fst].
    intros k. case_bool_decide as Hk.
    - now apply pop_all_popped.
    - now apply pop_all_other. }
  intros v Hv Hst Hd. rewrite Hv.
  rewrite (date_shaped_not_cancel _ Hd).
  apply Hfmt in Hd. rewrite Hd. cbn [negb]. rewrite Hst. reflexivity.
Qed.

Lemma date_input_takes_dates_only_witness :
  ascii_text (L " 2024-13-45 ")
  /\ (handle_date_input (fun _ => []) 7 (L " 2024-13-45 ") true (Ok [])
        (delete_callback_date ∅)).1
     = <["delete_state" := VStr (L "awaiting_end_date")]>
         (<["start_date" := VStr (L "2024-13-45")]> (delete_callback_date ∅)).
Proof.
  assert (H : ascii_text (L " 2024-13-45 ")) by (repeat constructor).
  split; [exact H|].
  destruct (date_input_takes_dates_only (fun _ => []) 7 (L " 2024-13-45 ")
              true (Ok []) (delete_callback_date ∅) H)
    as (_ & Hd & _ & _ & _ & Hs).
  apply (Hs (VStr (L "awaiting_start_date"))).
  - reflexivity.
  - reflexivity.
  - exact Hd.
Defined.

Lemma date_order_chars a1 a2 a3 a4 b1 b2 c1 c2 a1' a2' a3' a4' b1' b2' c1' c2' :
  Forall (fun a => is_digit a = true) [a1; a2; a3; a4; b1; b2; c1; c2] ->
  Forall (fun a => is_digit a = true) [a1'; a2'; a3'; a4'; b1'; b2'; c1'; c2'] ->
  str_ltb [a1; a2; a3; a4; "-"%char; b1; b2; "-"%char; c1; c2]
          [a1'; a2'; a3'; a4'; "-"%char; b1'; b2'; "-"%char; c1'; c2']
  = (date_number [a1; a2; a3; a4; "-"%char; b1; b2; "-"%char; c1; c2]
     <? date_number [a1'; a2'; a3'; a4'; "-"%char; b1'; b2'; "-"%char; c1'; c2']).
Proof.
  intros H H'.
  repeat match goal with
         | H : Forall _ (_ :: _) |- _ => inversion H; clear H; subst
         | H : Forall _ [] |- _ => clear H
         end.
  repeat match goal with
         | H : is_digit _ = true |- _ => apply is_digit_code in H
         end.
  unfold date_number, digits_value, digit_val.
  cbn [take drop fold_left].
  rewrite !str_ltb_cons.
  rewrite !(N.ltb_irrefl (code "-")), !(N.eqb_refl (code "-")).
  cbn [orb andb].
  repeat match goal with
         | |- context [(code ?a <? code ?b)%N] =>
             destruct (N.ltb_spec (code a) (code b));
             [ cbn [orb andb]; symmetry; apply Z.ltb_lt; lia
             | destruct (N.eqb_spec (code a) (code b)) as [E | E];
               [ rewrite ?E in *; clear E; cbn [orb andb]
               | cbn [orb andb]; symmetry; apply Z.ltb_ge; lia ] ]
         end.
  cbn [str_ltb]. symmetry. apply Z.ltb_ge. lia.
Qed.

Lemma date_shaped_order (s t : str) :
  date_shaped s -> date_shaped t ->
  str_ltb s t = (date_number s <? date_number t)
  /\ str_leb s t = (date_number s <=? date_number t).
Proof.
  intros (y & m & d & Hs) (y' & m' & d' & Ht).
  destruct (date_parts_chars _ _ _ _ Hs)
    as (a1 & a2 & a3 & a4 & b1 & b2 & c1 & c2 & _ & _ & _ & -> & Hf).
  destruct (date_parts_chars _ _ _ _ Ht)
    as (a1' & a2' & a3' & a4' & b1' & b2' & c1' & c2' & _ & _ & _ & -> & Hf').
  split.
  - now apply date_order_chars.
  - unfold str_leb. rewrite date_order_chars by assumption.
    rewrite Z.leb_antisym. reflexivity.
Qed.

(** X20: waiting for the end date with a start date of the form
    [YYYY-MM-DD], [handle_date_input] compares an end date of the form
    with it as a date: an end date earlier than the start date is
    refused, whatever the sheet, and the context stays as it is, still
    waiting for the end date; an end date from the start date on goes
    to the sheet, and when reading the sheet raises, the exception
    leaves the handler with the context as it is. *)
Theorem end_date_is_compared_as_a_date
    (date_text : Z -> str) (user_id : Z) (text : str) (ud : user_data)
    (start_date : str) :
  ud !! "delete_state" = Some (VStr (L "awaiting_end_date")) ->
  ud !! "start_date" = Some (VStr start_date) ->
  date_shaped start_date -> date_shaped (py_strip text) ->
  let end_date := py_strip text in
  str_ltb end_date start_date = (date_number end_date <? date_number start_date)
  /\ (date_number end_date < date_number start_date ->
      forall connected sheet,
        (handle_date_input date_text user_id text connected sheet ud).1 = ud)
  /\ (date_number start_date <= date_number end_date ->
      forall e,
        handle_date_input date_text user_id text true (Raise e) ud
        = (ud, Flow_raised e)).
Proof.
  intros Hst Hsd Hs He end_date.
  pose proof (proj1 (date_shaped_order _ _ He Hs)) as Hlt.
  split; [exact Hlt|].
  assert (Hrun : forall connected sheet,
             handle_date_input date_text user_id text connected sheet ud
             = if date_number end_date <? date_number start_date
               then (ud, Flow_returned)
               else if negb connected
                    then (pop_all ["delete_state"; "start_date"] ud,
                          Flow_returned)
                    else match sheet with
                         | Raise e => (ud, Flow_raised e)
                         | Ok all_records =>
                             match records_in_range user_id start_date
                                     end_date all_records with
                             | Raise e => (ud, Flow_raised e)
                             | Ok [] =>
                                 (pop_all ["delete_state"; "start_date"] ud,
                                  Flow_returned)
                             | Ok user_records_in_range =>
                                 (<["records_to_delete" :=
                                      VList (map rec_value user_records_in_range)]>
                                    ud, Flow_returned)
                             end
                         end).
  { intros connected sheet. subst end_date. unfold handle_date_input.
    cbv zeta. rewrite Hst.
    rewrite (date_shaped_not_cancel _ He).
    rewrite (proj2 (date_format_stripped text) He). cbn [negb].
    assert (eq_str (VStr (L "awaiting_end_date")) "awaiting_start_date" = false)
      as -> by (apply bool_decide_eq_false; discriminate).
    assert (eq_str (VStr (L "awaiting_end_date")) "awaiting_end_date" = true)
      as -> by apply str_eqb_refl.
    rewrite Hsd. cbn [text_of]. rewrite Hlt. reflexivity. }
  split.
  - intros H connected sheet. rewrite Hrun.
    assert ((date_number end_date <? date_number start_date) = true) as ->
      by (apply Z.ltb_lt; exact H).
    reflexivity.
  - intros H e. rewrite Hrun.
    assert ((date_number end_date <? date_number start_date) = false) as ->
      by (apply Z.ltb_ge; exact H).
    reflexivity.
Qed.

Lemma end_date_is_compared_as_a_date_witness :
  let ud : user_data :=
    <["start_date" := VStr (L "2024-03-01")]>
      (<["delete_state" := VStr (L "awaiting_end_date")]> ∅) in
  date_shaped (L "2024-03-01") /\ date_shaped (py_strip (L "2024-02-29"))
  /\ str_ltb (L "2024-02-29") (L "2024-03-01") = true
  /\ (handle_date_input (fun _ => []) 7 (L "2024-02-29") true (Ok []) ud).1
     = ud.
Proof.
  intros ud.
  assert (H1 : date_shaped (L "2024-03-01")).
  { exists (L "2024"), (L "03"), (L "01"). repeat split. repeat constructor. }
  assert (H2 : date_shaped (py_strip (L "2024-02-29"))).
  { exists (L "2024"), (L "02"), (L "29"). repeat split. repeat constructor. }
  split; [exact H1|]. split; [exact H2|].
  destruct (end_date_is_compared_as_a_date (fun _ => []) 7 (L "2024-02-29") ud
              (L "2024-03-01") eq_refl eq_refl H1 H2) as (Hc & Hr & _).
  split; [reflexivity|].
  apply Hr. vm_compute. reflexivity.
Defined.

Lemma date_input_keeps_consistent date_text user_id text connected sheet ud :
  date_flow_consistent ud ->
  date_flow_consistent
    (handle_date_input date_text user_id text connected sheet ud).1
  /\ (handle_date_input date_text user_id text connected sheet ud).2
     <> Flow_raised_KeyError.
Proof.
  intros Hc. unfold handle_date_input. set (message_text := py_strip text).
  assert (Hsame : date_flow_consistent (ud, Flow_returned).1
                  /\ (ud, Flow_returned).2 <> Flow_raised_KeyError)
    by (split; [exact Hc|discriminate]).
  assert (Hpop : forall keys e,
             In "delete_state"%string keys -> e <> Flow_raised_KeyError ->
             date_flow_consistent (pop_all keys ud, e).1
             /\ (pop_all keys ud, e).2 <> Flow_raised_KeyError).
  { intros keys e Hin He. split; [|exact He]. cbn [fst]. intros v Hv.
    rewrite pop_all_popped in Hv by exact Hin. discriminate. }
  destruct (ud !! "delete_state") as [v|] eqn:Ev; [|exact Hsame].
  destruct (existsb _ cancel_words).
  { apply Hpop; [now left|discriminate]. }
  destruct (re_match_end pat_date message_text) eqn:Em; cbn [negb];
    [|exact Hsame].
  destruct (eq_str v "awaiting_start_date").
  { split; [|discriminate]. cbn [fst]. intros v' _ _. exists message_text.
    rewrite lookup_insert_ne by discriminate. rewrite lookup_insert_eq.
    split; [reflexivity|exact Em]. }
  destruct (eq_str v "awaiting_end_date") eqn:E2; [|exact Hsame].
  destruct (Hc v Ev E2) as (start & Hs & Hm). rewrite Hs. cbn [text_of].
  destruct (str_ltb message_text start); [exact Hsame|].
  destruct connected; cbn [negb].
  2:{ apply Hpop; [now left|discriminate]. }
  destruct sheet as [all_records|e]; [|split; [exact Hc|discriminate]].
  destruct (records_in_range user_id start message_text all_records)
    as [[|r l]|e].
  - apply Hpop; [now left|discriminate].
  - split; [|discriminate]. cbn [fst]. intros v' Hv' He.
    rewrite lookup_insert_ne in Hv' by discriminate.
    rewrite lookup_insert_ne by discriminate. exact (Hc v' Hv' He).
  - split; [exact Hc|discriminate].
Qed.

Lemma date_flow_step_consistent date_text ud ud' :
  date_flow_step date_text ud ud' ->
  date_flow_consistent ud -> date_flow_consistent ud'.
Proof.
  intros Hstep Hc. destruct Hstep as [ud | user_id text connected sheet ud
                                      | ud | ud ud' H1 H2].
  - intros v Hv He. unfold delete_callback_date in Hv.
    rewrite lookup_insert_eq in Hv. injection Hv as <-.
    apply str_eqb_true in He. discriminate He.
  - now apply date_input_keeps_consistent.
  - intros v Hv. rewrite pop_all_popped in Hv by now left. discriminate.
  - intros v Hv He. rewrite H1 in Hv. rewrite H2. exact (Hc v Hv He).
Qed.

(** X21: through the handlers that write the keys of the flow (the
    [date] button, [handle_date_input], the removal of the three keys),
    a context that waits for the end date always holds a start date of
    the accepted form: [context.user_data['start_date']] in
    [handle_date_input] never raises [KeyError]. *)
Theorem date_flow_never_lacks_start_date (date_text : Z -> str) (ud : user_data) :
  date_flow_reachable date_text ud ->
  date_flow_consistent ud
  /\ forall user_id text connected sheet,
      (handle_date_input date_text user_id text connected sheet ud).2
      <> Flow_raised_KeyError.
Proof.
  intros Hr.
  assert (Hc : date_flow_consistent ud).
  { induction Hr as [|ud ud' _ IH Hstep].
    - intros v Hv. rewrite lookup_empty in Hv. discriminate.
    - exact (date_flow_step_consistent _ _ _ Hstep IH). }
  split; [exact Hc|]. intros user_id text connected sheet.
  now apply date_input_keeps_consistent.
Qed.

Lemma date_flow_never_lacks_start_date_witness :
  let date_text := fun _ : Z => L "2024-01-01" in
  let ud :=
    (handle_date_input date_text 7 (L "2024-01-01") true (Ok [])
       (delete_callback_date ∅)).1 in
  date_flow_reachable date_text ud
  /\ date_flow_consistent ud
  /\ forall user_id text connected sheet,
      (handle_date_input date_text user_id text connected sheet ud).2
      <> Flow_raised_KeyError.
Proof.
  intros date_text ud.
  assert (Hr : date_flow_reachable date_text ud).
  { eapply reach_step; [eapply reach_step; [apply reach_empty|]|].
    - apply step_date_button.
    - apply step_date_input. }
  exact (conj Hr (date_flow_never_lacks_start_date date_text ud Hr)).
Defined.

Lemma records_in_range_by_number user_id start_date end_date :
  date_shaped start_date -> date_shaped end_date ->
  forall all_records,
    Forall (fun r => rec_user r = str_of_Z user_id ->
                     exists t, rec_date r = CStr t /\ date_shaped t)
           all_records ->
    records_in_range user_id start_date end_date all_records
    = Ok (selected_by_number user_id start_date end_date all_records).
Proof.
  intros Hs He. induction 1 as [|r rs Hr _ IH]; [reflexivity|].
  cbn [records_in_range]. rewrite IH. unfold selected_by_number.
  cbn [List.filter]. unfold str_eqb at 1 3.
  case_bool_decide as Hu; [|reflexivity].
  destruct (Hr Hu) as (t & Et & Ht). unfold date_of. rewrite Et.
  cbn [between].
  rewrite (proj2 (date_shaped_order _ _ Hs Ht)).
  rewrite (proj2 (date_shaped_order _ _ Ht He)).
  cbn [andb]. reflexivity.
Qed.



(** ** From a message to the row of the sheet *)

(** A value that is a number or [None]. *)
Lemma local_amount_number current_date text :
  exists amount,
    dict_get "amount" (parse_transaction_locally current_date text)
    = val_of_amount amount.
Proof.
  unfold parse_transaction_locally, dict_get.
  cbn [dict_lookup String.eqb Ascii.eqb Bool.eqb]. eauto.
Qed.

Lemma reconcile_amount_number local_result data data' :
  (exists amount, dict_get "amount" local_result = val_of_amount amount) ->
  reconcile_amount local_result data = Ok data' ->
  exists amount, dict_get "amount" data' = val_of_amount amount.
Proof.
  intros [a Ha]. unfold reconcile_amount.
  destruct (negb (is_none (dict_get "amount" data))) eqn:E.
  - destruct (float_of _) as [f|e]; cbn [bind]; [|discriminate].
    intros [= <-]. rewrite dict_get_set_same. now eexists (Some _).
  - destruct (truthy (dict_get "amount" local_result)).
    + destruct (negb (truthy _)); intros H; injection H as <-;
        rewrite ?dict_get_set_other by discriminate;
        rewrite dict_get_set_same; eauto.
    + intros [= <-]. apply negb_false_iff in E.
      exists None. destruct (dict_get "amount" data); try discriminate.
      reflexivity.
Qed.

(** The result of the extractor has a date, and its amount is a number
    or [None]. *)
Lemma extractor_result_shape
    json_loads current_date local_date generate_func text data :
  parse_financial_data json_loads current_date local_date generate_func text
  = Ok data ->
  truthy (dict_get "date" data) = true
  /\ exists amount, dict_get "amount" data = val_of_amount amount.
Proof.
  unfold parse_financial_data.
  set (local_result := parse_transaction_locally local_date text).
  destruct (outer_try _ _ _ _ _) as [d|] eqn:E; intros [= <-].
  - unfold outer_try in E.
    destruct (call_gemini_with_retry generate_func 2) as [resp|e];
      cbn [bind] in E; [|discriminate].
    unfold inner_try in E.
    destruct (process_response _ _ _ _ _) as [d'|e] eqn:P.
    2:{ destruct e; discriminate. }
    injection E as ->.
    apply process_response_steps in P as (j & d0 & d1 & d2 & Hj & H1 & H2 & ->).
    apply of_json_unique in Hj.
    apply (resolve_date_result _ _ _ Hj) in H1 as [U1 D1].
    pose proof (reconcile_amount_number _ _ _
                  (local_amount_number local_date text) H2) as Ha.
    apply (reconcile_amount_result _ _ _ U1) in H2 as [U2 D2].
    destruct (finish_result text local_result d2 U2) as (F1 & F2 & F3).
    split; [now rewrite F2, D2|]. now rewrite finish_keeps_amount.
  - split; [reflexivity|]. apply local_amount_number.
Qed.

Lemma note_message_other message_id ud ud0 k :
  note_message message_id ud = Ok ud0 ->
  k <> "messages_to_delete"%string -> ud0 !! k = ud !! k.
Proof.
  unfold note_message. intros H Hk.
  destruct (ud !! "messages_to_delete") as [v|] eqn:E.
  - rewrite E in H. destruct v; try discriminate. injection H as <-.
    now rewrite lookup_insert_ne by congruence.
  - rewrite lookup_insert_eq in H. injection H as <-.
    now rewrite !lookup_insert_ne by congruence.
Qed.

Lemma note_message_ok message_id ud :
  (forall v, ud !! "messages_to_delete" = Some v -> exists l, v = VList l) ->
  exists ud0, note_message message_id ud = Ok ud0.
Proof.
  unfold note_message. intros H.
  destruct (ud !! "messages_to_delete") as [v|] eqn:E.
  - rewrite E. destruct (H v eq_refl) as [l ->]. eauto.
  - rewrite lookup_insert_eq. eauto.
Qed.

(** The button [confirm_yes] on an offered transaction. *)
Lemma confirm_offered answered edited user_id today timestamp ud st
    date amount category description :
  ud !! "pending_transaction"
  = Some (VDict [ ("date", date); ("amount", VNum amount);
                  ("category", category); ("description", description) ]) ->
  connected st = true -> append_raises st = None ->
  button_callback answered edited true (L "confirm_yes") user_id today
    timestamp ud st
  = (pop_all confirm_keys ud,
     {| connected := true; append_raises := None;
        rows := rows st
                ++ [[ date; VNum amount; category; description;
                      VNum (Q2Qc (inject_Z user_id)); VStr timestamp ]] |},
     Returned).
Proof.
  intros Hp Hc Ha. unfold button_callback. cbn [negb].
  assert (starts_with (L "type_") (L "confirm_yes") = false) as ->
    by reflexivity.
  assert (starts_with (L "confirm_") (L "confirm_yes") = true) as ->
    by reflexivity.
  assert (after_underscore (L "confirm_yes") = Ok (L "yes")) as ->
    by reflexivity.
  unfold button_confirm_sent. cbn [negb]. rewrite str_eqb_refl.
  rewrite Hc. cbn [negb].
  unfold confirm_yes. rewrite Hp, Hc, Ha. cbn [default negb as_dict].
  cbn [dict_get_default dict_lookup String.eqb Ascii.eqb Bool.eqb
       positive float_of].
  reflexivity.
Qed.

(** X23: a message of one line, outside the flows that wait for an
    answer, makes the handler raise only when its reply cannot be sent,
    and then with the context already written; [parse_date_from_text]
    has no part in the outcome, because the extractor always gives a
    date.  When the extractor gives an amount other than zero, the
    transaction offered for confirmation carries the date, amount,
    category and description of the extractor, and the button
    [confirm_yes] appends exactly that row with the user and the time;
    otherwise the handler asks for the kind of transaction and keeps
    the text, the date and the category. *)
Theorem single_message_is_offered
    (json_loads : str -> option json) (py_str : pyval -> str)
    (parse_date_from_text : str -> pyval) (w : world)
    (answered edited : option exn)
    (message_id user_id today : Z) (timestamp : str)
    (message_text : str) (ud : user_data) (st : store) :
  (forall v, ud !! "messages_to_delete" = Some v -> exists l, v = VList l) ->
  eq_str (default VNone (ud !! "conversation_state")) "waiting_amount" = false ->
  (length (nonblank_lines message_text) <= 1)%nat ->
  exists ud0 parsed_data amount,
    note_message message_id ud = Ok ud0
    /\ parse_financial_data json_loads (current_date w) (local_date w)
         (generate_func w) message_text = Ok parsed_data
    /\ dict_get "amount" parsed_data = val_of_amount amount
    /\ truthy (dict_get "date" parsed_data) = true
    /\ let date := dict_get "date" parsed_data in
       let category :=
         dict_get_default "category" (VStr (L "Lainnya")) parsed_data in
       let description :=
         dict_get_default "description" (VStr message_text) parsed_data in
       let noted :=
         <["detected_date" := date]>
           (<["pending_message" := VStr message_text]> ud0) in
       let out :=
         transaction_processing json_loads py_str parse_date_from_text w
           message_id message_text ud in
       match amount with
       | Some q =>
           if Qc_eq_bool q (Q2Qc 0)
           then out = (<["pending_category" := category]> noted,
                       after_reply (reply w))
           else
             let offered :=
               <["pending_transaction" :=
                   VDict [ ("date", date); ("amount", VNum q);
                           ("category", category);
                           ("description", description) ]]> noted in
             out = (offered, after_reply (reply w))
             /\ (connected st = true -> append_raises st = None ->
                 button_callback answered edited true (L "confirm_yes")
                   user_id today timestamp offered st
                 = (pop_all confirm_keys offered,
                    {| connected := true; append_raises := None;
                       rows := rows st
                               ++ [[ date; VNum q; category; description;
                                     VNum (Q2Qc (inject_Z user_id));
                                     VStr timestamp ]] |},
                    Returned))
       | None => out = (<["pending_category" := category]> noted,
                        after_reply (reply w))
       end.
Proof.
  intros Hm Hw Hl.
  destruct (note_message_ok message_id ud Hm) as [ud0 Hn].
  destruct (extractor_returns json_loads (current_date w) (local_date w)
              (generate_func w) message_text) as [parsed_data Hp].
  destruct (extractor_result_shape _ _ _ _ _ _ Hp) as [Hd [amount Ha]].
  exists ud0, parsed_data, amount.
  split; [exact Hn|]. split; [exact Hp|]. split; [exact Ha|].
  split; [exact Hd|]. cbv zeta.
  assert (transaction_processing json_loads py_str parse_date_from_text w
            message_id message_text ud
          = single_transaction parse_date_from_text (reply w) message_text
              parsed_data ud0)
    as ->.
  { unfold transaction_processing, process_financial_message.
    assert ((1 <? length (nonblank_lines message_text))%nat = false) as ->
      by (apply Nat.ltb_ge; exact Hl).
    rewrite Hn.
    rewrite (note_message_other _ _ _ "conversation_state" Hn) by discriminate.
    rewrite Hw, Hp. reflexivity. }
  unfold single_transaction. rewrite Hd. cbn [negb]. rewrite Ha.
  destruct amount as [q|]; cbn [val_of_amount truthy]; [|reflexivity].
  destruct (Qc_eq_bool q (Q2Qc 0)); cbn [negb]; [reflexivity|].
  assert (dict_get_default "amount" (VNum (Q2Qc 0)) parsed_data = VNum q) as ->.
  { unfold dict_get in Ha. unfold dict_get_default.
    destruct (dict_lookup "amount" parsed_data); [exact Ha|discriminate]. }
  cbn [positive]. split; [reflexivity|].
  intros Hc Hr. apply confirm_offered; auto. apply lookup_insert_eq.
Qed.

Lemma single_message_is_offered_witness :
  let w :=
    {| current_date := 738886; local_date := 738886;
       clock := fun _ => 738886; local_clock := fun _ => 738886;
       copy_clock := fun _ => 738886;
       generate_func := fun _ => Raise (ServiceError []);
       generate_funcs := fun _ _ => Raise (ServiceError []);
       reply := Raise (ServiceError (L "Can't parse entities")) |} in
  exists out,
    transaction_processing (fun _ => None) (fun _ => []) (fun _ => VNone) w
      10 (L "beli kopi_susu 15rb") ∅
    = (out, Message_raised (ServiceError (L "Can't parse entities")))
    /\ exists transaction,
        out !! "pending_transaction" = Some (VDict transaction)
        /\ dict_get "amount" transaction = VNum (Q2Qc (-15000)).
Proof.
  intros w.
  destruct (single_message_is_offered (fun _ => None) (fun _ => [])
              (fun _ => VNone) w None None 10 7 738886 []
              (L "beli kopi_susu 15rb") ∅ connected_store)
    as (ud0 & parsed_data & amount & Hn & Hp & Ha & Hd & H).
  - intros v Hv. rewrite lookup_empty in Hv. discriminate.
  - reflexivity.
  - vm_compute. lia.
  - vm_compute in Hp. injection Hp as <-.
    vm_compute in Ha. destruct amount as [q|]; [|discriminate Ha].
    injection Ha as <-. cbv zeta in H.
    destruct (Qc_eq_bool _ _) eqn:Eq in H; [vm_compute in Eq; discriminate Eq|].
    destruct H as [H _]. eexists. split; [exact H|].
    eexists. split; [apply lookup_insert_eq|]. reflexivity.
Defined.

(** X24: the amount asked for is never stored.  After the button
    [type_expense] or [type_income] the context waits for the amount;
    the next message of one line in which the normaliser finds a number
    makes [process_financial_message] raise [UnboundLocalError], since
    it reads its local name [datetime] before the import that binds it:
    only the number of the message is recorded, no transaction is
    offered and the context goes on waiting for the amount; a text
    without a number is answered and leaves the context waiting as
    well. *)
Theorem asked_amount_is_never_stored
    (json_loads : str -> option json) (py_str : pyval -> str)
    (parse_date_from_text : str -> pyval) (w : world)
    (expense : bool) (edited : option exn) (button_day : Z)
    (message_id user_id : Z) (timestamp : str)
    (text : str) (ud : user_data) (st : store) :
  (forall v, ud !! "messages_to_delete" = Some v -> exists l, v = VList l) ->
  (length (nonblank_lines text) <= 1)%nat ->
  let data := if expense then L "type_expense" else L "type_income" in
  exists ud1 ud2,
    button_callback None edited true data user_id button_day timestamp ud st
    = (ud1, st, after_send edited)
    /\ ud1 !! "conversation_state" = Some (VStr STATE_WAITING_AMOUNT)
    /\ note_message message_id ud1 = Ok ud2
    /\ transaction_processing json_loads py_str parse_date_from_text w
         message_id text ud1
       = (ud2,
          match parse_indonesian_amount text with
          | Some _ => Message_raised_UnboundLocalError
          | None => after_reply (reply w)
          end)
    /\ ud2 !! "conversation_state" = Some (VStr STATE_WAITING_AMOUNT)
    /\ ud2 !! "pending_transaction" = ud !! "pending_transaction".
Proof.
  intros Hm Hl data.
  set (kind := if expense then L "expense" else L "income").
  set (ud1 :=
         <["conversation_state" := VStr STATE_WAITING_AMOUNT]>
           (<["date" := default (VDate button_day) (ud !! "detected_date")]>
              (<["description" := default (VStr []) (ud !! "pending_message")]>
                 (<["transaction_type" := VStr kind]> ud)))).
  assert (Hb : button_callback None edited true data user_id button_day
                 timestamp ud st = (ud1, st, after_send edited)).
  { unfold button_callback, button_type. subst data kind ud1.
    destruct expense; reflexivity. }
  assert (Hm1 : forall v, ud1 !! "messages_to_delete" = Some v ->
                          exists l, v = VList l).
  { intros v. subst ud1. rewrite !lookup_insert_ne by discriminate. apply Hm. }
  destruct (note_message_ok message_id ud1 Hm1) as [ud2 Hn].
  assert (Hk : forall k, k <> "messages_to_delete"%string -> ud2 !! k = ud1 !! k).
  { intros k Hk. exact (note_message_other _ _ _ k Hn Hk). }
  assert (Hs : ud1 !! "conversation_state" = Some (VStr STATE_WAITING_AMOUNT)).
  { subst ud1. apply lookup_insert_eq. }
  exists ud1, ud2.
  split; [exact Hb|]. split; [exact Hs|]. split; [exact Hn|].
  split.
  { unfold transaction_processing, process_financial_message.
    assert ((1 <? length (nonblank_lines text))%nat = false) as ->
      by (apply Nat.ltb_ge; exact Hl).
    rewrite Hn, (Hk "conversation_state") by discriminate. rewrite Hs.
    assert (eq_str (default VNone (Some (VStr STATE_WAITING_AMOUNT)))
                   "waiting_amount" = true) as -> by apply str_eqb_refl.
    destruct (parse_indonesian_amount text); reflexivity. }
  split.
  - now rewrite Hk by discriminate.
  - rewrite Hk by discriminate. subst ud1.
    now rewrite !lookup_insert_ne by discriminate.
Qed.

Lemma asked_amount_is_never_stored_witness :
  let w :=
    {| current_date := 738886; local_date := 738886;
       clock := fun _ => 738886; local_clock := fun _ => 738886;
       copy_clock := fun _ => 738886;
       generate_func := fun _ => Raise (ServiceError []);
       generate_funcs := fun _ _ => Raise (ServiceError []);
       reply := Ok 11 |} in
  let ud : user_data := <["pending_message" := VStr (L "kopi")]> ∅ in
  exists ud1 ud2,
    button_callback None None true (L "type_expense") 7 738886 [] ud
      connected_store
    = (ud1, connected_store, Returned)
    /\ transaction_processing (fun _ => None) (fun _ => []) (fun _ => VNone) w
         10 (L "15rb") ud1 = (ud2, Message_raised_UnboundLocalError)
    /\ ud2 !! "pending_transaction" = None.
Proof.
  intros w ud.
  destruct (asked_amount_is_never_stored (fun _ => None) (fun _ => [])
              (fun _ => VNone) w true None 738886 10 7 [] (L "15rb") ud
              connected_store)
    as (ud1 & ud2 & Hb & _ & _ & Ht & _ & Hp).
  - intros v Hv. subst ud.
    rewrite lookup_insert_ne in Hv by discriminate.
    rewrite lookup_empty in Hv. discriminate.
  - vm_compute. lia.
  - exists ud1, ud2. split; [exact Hb|]. split.
    + rewrite Ht.
      assert (Ep : parse_indonesian_amount (L "15rb") = Some (Q2Qc 15000))
        by (vm_compute; reflexivity).
      rewrite Ep. reflexivity.
    + rewrite Hp. reflexivity.
Defined.

(** ** From the lines of a message to the transactions kept *)

Lemma parse_lines_numbers extract :
  (forall i line data,
      extract i line = Ok data ->
      exists amount, dict_get "amount" data = val_of_amount amount) ->
  forall lines i,
    Forall (fun data => exists q, dict_get "amount" data = VNum q)
           (parse_lines extract i lines).
Proof.
  intros He. induction lines as [|line lines IH]; intros i; simpl;
    [constructor|].
  destruct (extract i line) as [data|e] eqn:E; auto.
  destruct (is_none (dict_get "amount" data)) eqn:En; simpl; auto.
  constructor; auto.
  destruct (He i line data E) as [[q|] Ha]; [eauto|].
  rewrite Ha in En. discriminate.
Qed.

Lemma parsed_lines_have_numbers json_loads clock local_clock generate_funcs text :
  Forall (fun data => exists q, dict_get "amount" data = VNum q)
         (parse_multiple_transactions json_loads clock local_clock
            generate_funcs text).
Proof.
  unfold parse_multiple_transactions. apply parse_lines_numbers.
  intros i line data H.
  exact (proj2 (extractor_result_shape _ _ _ _ _ _ H)).
Qed.

Lemma processed_transactions_ok py_str clock transactions :
  Forall (fun data => exists q, dict_get "amount" data = VNum q) transactions ->
  forall i,
    exists processed,
      processed_transactions py_str clock i transactions = Ok processed
      /\ map (dict_get "amount") processed = map (dict_get "amount") transactions
      /\ Forall (fun p => map fst p
                          = [ "amount"; "category"; "description"; "date" ]%string)
                processed.
Proof.
  induction 1 as [|t transactions [q Hq] _ IH]; intros i.
  - exists []. repeat split. constructor.
  - destruct (IH (S i)) as (processed & Hp & Ha & Hk).
    cbn [processed_transactions].
    assert (dict_get_default "amount" (VNum (Q2Qc 0)) t = VNum q) as ->.
    { unfold dict_get in Hq. unfold dict_get_default.
      destruct (dict_lookup "amount" t); [exact Hq|discriminate]. }
    cbn [float_of bind]. rewrite Hp. cbn [bind].
    eexists. split; [reflexivity|]. split.
    + cbn [map]. rewrite Ha, Hq. reflexivity.
    + constructor; [reflexivity|exact Hk].
Qed.

(** X25: a message of several lines makes the handler raise only when
    its reply cannot be sent: every transaction that
    [parse_multiple_transactions] keeps has a number as its amount, so
    [float] in [process_multiple_transactions] accepts it.  The
    transactions offered for confirmation are one per transaction kept,
    in order and with the same amounts, each with the four keys
    [amount], [category], [description], [date]; they are stored
    before the reply is sent, and the number of the reply is recorded
    after it; when no line gives a transaction the context stays as it
    is. *)
Theorem lines_are_offered_together
    (json_loads : str -> option json) (py_str : pyval -> str)
    (parse_date_from_text : str -> pyval) (w : world)
    (message_id : Z) (message_text : str) (ud : user_data) :
  (forall v, ud !! "messages_to_delete" = Some v -> exists l, v = VList l) ->
  (1 < length (nonblank_lines message_text))%nat ->
  let transactions :=
    parse_multiple_transactions json_loads (clock w) (local_clock w)
      (generate_funcs w) message_text in
  let out :=
    transaction_processing json_loads py_str parse_date_from_text w
      message_id message_text ud in
  (length transactions <= length (nonblank_lines message_text))%nat
  /\ Forall (fun t => exists q, dict_get "amount" t = VNum q) transactions
  /\ match transactions with
     | [] => out = (ud, after_reply (reply w))
     | _ :: _ =>
         exists processed,
           processed_transactions py_str (copy_clock w) 1 transactions
           = Ok processed
           /\ map (dict_get "amount") processed
              = map (dict_get "amount") transactions
           /\ Forall (fun p => map fst p
                               = [ "amount"; "category"; "description";
                                   "date" ]%string) processed
           /\ let stored :=
                <["pending_multiple_transactions" :=
                    VList (map VDict processed)]> ud in
              match reply w with
              | Raise e => out = (stored, Message_raised e)
              | Ok reply_id =>
                  exists ud',
                    note_message reply_id stored = Ok ud'
                    /\ out = (ud', Message_returned)
              end
     end.
Proof.
  intros Hm Hl transactions out.
  pose proof (parsed_lines_have_numbers json_loads (clock w) (local_clock w)
                (generate_funcs w) message_text) as Hn.
  fold transactions in Hn.
  split; [apply parse_lines_length|]. split; [exact Hn|].
  subst out. unfold transaction_processing.
  assert ((1 <? length (nonblank_lines message_text))%nat = true) as ->
    by (apply Nat.ltb_lt; exact Hl).
  unfold multiple_lines. fold transactions.
  destruct transactions as [|t ts] eqn:Et; [reflexivity|].
  destruct (processed_transactions_ok py_str (copy_clock w) _ Hn 1%nat)
    as (processed & Hp & Ha & Hk).
  exists processed. split; [exact Hp|]. split; [exact Ha|].
  split; [exact Hk|]. cbv zeta.
  unfold process_multiple_transactions. rewrite Hp.
  destruct (reply w) as [reply_id|e]; [|reflexivity].
  assert (Hm' : forall v,
             (<["pending_multiple_transactions" :=
                  VList (map VDict processed)]> ud) !! "messages_to_delete"
             = Some v -> exists l, v = VList l).
  { intros v. rewrite lookup_insert_ne by discriminate. apply Hm. }
  destruct (note_message_ok reply_id _ Hm') as [ud' Hn'].
  exists ud'. split; [exact Hn'|]. rewrite Hn'. reflexivity.
Qed.

Lemma lines_are_offered_together_witness :
  let w :=
    {| current_date := 738886; local_date := 738886;
       clock := fun _ => 738886; local_clock := fun _ => 738886;
       copy_clock := fun _ => 738886;
       generate_func := fun _ => Raise (ServiceError []);
       generate_funcs := fun _ _ => Raise (ServiceError []);
       reply := Ok 11 |} in
  let text := L "beli kopi 15rb" ++ [nl] ++ L "catatan" ++ [nl] ++ L "gaji 5jt" in
  exists ud',
    transaction_processing (fun _ => None) (fun _ => []) (fun _ => VNone) w
      10 text ∅ = (ud', Message_returned).
Proof.
  intros w text.
  destruct (lines_are_offered_together (fun _ => None) (fun _ => [])
              (fun _ => VNone) w 10 text ∅) as (_ & _ & H).
  - intros v Hv. rewrite lookup_empty in Hv. discriminate.
  - vm_compute. lia.
  - destruct (parse_multiple_transactions _ _ _ _ _) as [|t ts] in H.
    + eexists. exact H.
    + destruct H as (processed & _ & _ & _ & H). cbv zeta in H.
      change (reply w) with (Ok (A := Z) 11) in H.
      destruct H as (ud' & _ & H). eexists. exact H.
Defined.

(** ** Deleting the rows of a range of dates *)

(** *** Sorting row numbers *)

Lemma insert_desc_nat_In x l y :
  In y (insert_desc Nat.ltb x l) <-> y = x \/ In y l.
Proof.
  induction l as [|z l IH]; simpl; [intuition|].
  destruct (x <? z)%nat; simpl; rewrite ?IH; intuition.
Qed.

Lemma sorted_desc_nat_In l y : In y (sorted_desc Nat.ltb l) <-> In y l.
Proof.
  induction l as [|x l IH]; simpl; [tauto|].
  rewrite insert_desc_nat_In, IH. intuition.
Qed.

Lemma insert_desc_nat_sorted x l :
  StronglySorted (fun a b => (b < a)%nat) l -> ~ In x l ->
  StronglySorted (fun a b => (b < a)%nat) (insert_desc Nat.ltb x l).
Proof.
  induction 1 as [|z l Hl IH Hz]; intros Hx; simpl.
  - repeat constructor.
  - destruct (Nat.ltb_spec x z) as [Hlt|Hge].
    + constructor.
      * apply IH. intros Hin. apply Hx. now right.
      * apply List.Forall_forall. intros y Hy.
        apply insert_desc_nat_In in Hy as [-> | Hy]; [exact Hlt|].
        rewrite List.Forall_forall in Hz. now apply Hz.
    + assert (z < x)%nat as Hzx.
      { destruct (Nat.eq_dec x z) as [->|Hne]; [|lia].
        exfalso. apply Hx. now left. }
      constructor; [now constructor|].
      constructor; [exact Hzx|].
      eapply List.Forall_impl; [|exact Hz]. simpl. intros y Hy. lia.
Qed.

Lemma sorted_desc_nat_sorted l :
  List.NoDup l -> StronglySorted (fun a b => (b < a)%nat) (sorted_desc Nat.ltb l).
Proof.
  induction 1 as [|x l Hx _ IH]; simpl; [constructor|].
  apply insert_desc_nat_sorted; [exact IH|].
  now rewrite sorted_desc_nat_In.
Qed.

(** *** Removing rows by their numbers *)

Lemma existsb_eqb_In (i : nat) numbers :
  existsb (Nat.eqb i) numbers = true <-> In i numbers.
Proof.
  rewrite existsb_exists. split.
  - intros (n & Hn & E). apply Nat.eqb_eq in E. now subst.
  - intros H. exists i. split; [exact H|apply Nat.eqb_refl].
Qed.

Lemma without_rows_none numbers : forall sheet k,
  Forall (fun n => (n < k)%nat) numbers -> without_rows numbers k sheet = sheet.
Proof.
  induction sheet as [|row rest IH]; intros k H; simpl; [reflexivity|].
  destruct (existsb (Nat.eqb k) numbers) eqn:E.
  - apply existsb_eqb_In in E. rewrite List.Forall_forall in H.
    specialize (H k E). lia.
  - f_equal. apply IH. eapply List.Forall_impl; [|exact H]. simpl. lia.
Qed.

Lemma without_rows_delete numbers i : forall sheet j,
  (j <= i)%nat -> (i - j < length sheet)%nat ->
  Forall (fun n => (n < i)%nat) numbers ->
  without_rows numbers j (delete (i - j)%nat sheet)
  = without_rows (i :: numbers) j sheet.
Proof.
  induction sheet as [|row rest IH]; intros j Hj Hlen Hn; [simpl in Hlen; lia|].
  destruct (Nat.eq_dec i j) as [->|Hne].
  - rewrite Nat.sub_diag. cbn [delete list_delete without_rows existsb].
    rewrite Nat.eqb_refl. cbn [orb].
    rewrite without_rows_none by exact Hn.
    rewrite without_rows_none; [reflexivity|].
    constructor; [lia|]. eapply List.Forall_impl; [|exact Hn]. simpl. lia.
  - replace (i - j)%nat with (S (i - S j)) by lia.
    cbn [delete list_delete without_rows existsb].
    assert ((j =? i)%nat = false) as -> by (apply Nat.eqb_neq; lia).
    cbn [orb]. simpl in Hlen.
    rewrite IH by (try lia; exact Hn).
    destruct (existsb (Nat.eqb j) numbers); reflexivity.
Qed.

Lemma delete_loop_sorted numbers : forall sheet removed,
  StronglySorted (fun a b => (b < a)%nat) numbers ->
  Forall (fun n => (1 <= n <= length sheet)%nat) numbers ->
  exists removed',
    delete_loop numbers sheet removed
    = Ok (without_rows numbers 1 sheet, removed')
    /\ length removed' = (length removed + length numbers)%nat.
Proof.
  induction numbers as [|i numbers IH]; intros sheet removed Hs Hb.
  - exists removed. simpl. split; [|lia].
    rewrite without_rows_none by constructor. reflexivity.
  - apply StronglySorted_inv in Hs as [Hs Hi].
    apply List.Forall_cons_iff in Hb as [Hi1 Hb].
    cbn [delete_loop]. unfold delete_rows.
    destruct i as [|i0]; [lia|].
    destruct (sheet !! i0) as [row|] eqn:Er.
    2:{ apply lookup_ge_None in Er. lia. }
    cbn [bind].
    destruct (IH (delete i0 sheet) (removed ++ [(S i0, default [] (sheet !! (S i0 - 1)%nat))]))
      as (removed' & Hd & Hl).
    + exact Hs.
    + rewrite List.Forall_forall in Hi, Hb. apply List.Forall_forall.
      intros n Hn. specialize (Hi n Hn). specialize (Hb n Hn).
      rewrite length_delete by (rewrite Er; eauto). lia.
    + exists removed'. rewrite Hd. split.
      * do 2 f_equal.
        pose proof (without_rows_delete numbers (S i0) sheet 1) as Hw.
        replace (S i0 - 1)%nat with i0 in Hw by lia.
        apply Hw; [lia|lia|exact Hi].
      * rewrite Hl, length_app. simpl. lia.
Qed.

Lemma without_rows_filter numbers (sel : list str -> bool) : forall body i,
  (forall p row, body !! p = Some row ->
                 existsb (Nat.eqb (i + p)) numbers = sel row) ->
  without_rows numbers i body = List.filter (fun row => negb (sel row)) body.
Proof.
  induction body as [|row rest IH]; intros i H; simpl; [reflexivity|].
  pose proof (H 0%nat row eq_refl) as H0. rewrite Nat.add_0_r in H0.
  rewrite H0.
  assert (without_rows numbers (S i) rest
          = List.filter (fun row => negb (sel row)) rest) as ->.
  { apply IH. intros p r Hp. rewrite <- (H (S p) r Hp). f_equal. f_equal. lia. }
  destruct (sel row); reflexivity.
Qed.

(** *** The rows that the records name *)

Section DeleteByDateFacts.
Variable date_text : Z -> str.
Variable user_id : Z.
Variable header : list str.

Lemma first_row_dict d : forall body i,
  first_row date_text user_id header (VDict d) i body
  = Ok (first_pos date_text user_id header d i body).
Proof.
  induction body as [|row body IH]; intros i; simpl; [reflexivity|].
  destruct (owned_by user_id header row); simpl; [|apply IH].
  destruct (same_timestamp date_text header row d); [reflexivity|apply IH].
Qed.

Lemma rows_of_records_dicts body records :
  rows_of_records date_text user_id header body (map VDict records)
  = Ok (omap (fun d => first_pos date_text user_id header d 2 body) records).
Proof.
  induction records as [|d records IH]; simpl; [reflexivity|].
  rewrite first_row_dict. cbn [bind]. rewrite IH. cbn [bind].
  destruct (first_pos _ _ _ d 2 body); reflexivity.
Qed.

Lemma first_pos_some d : forall body i n,
  first_pos date_text user_id header d i body = Some n ->
  exists p row,
    n = (i + p)%nat /\ body !! p = Some row
    /\ owned_by user_id header row = true
    /\ same_timestamp date_text header row d = true.
Proof.
  induction body as [|row body IH]; intros i n; simpl; [discriminate|].
  destruct (owned_by user_id header row && same_timestamp date_text header row d)
    eqn:E.
  - intros [= <-]. apply andb_true_iff in E as [E1 E2].
    exists 0%nat, row. repeat split; auto; lia.
  - intros H. apply IH in H as (p & r & -> & Hp & Ho & Ht).
    exists (S p), r. repeat split; auto; lia.
Qed.

Lemma first_pos_finds d : forall body i p row,
  body !! p = Some row ->
  owned_by user_id header row = true ->
  same_timestamp date_text header row d = true ->
  exists n, first_pos date_text user_id header d i body = Some n.
Proof.
  induction body as [|r body IH]; intros i p row Hp Ho Ht; [discriminate|].
  simpl.
  destruct (owned_by user_id header r && same_timestamp date_text header r d)
    eqn:E; [eauto|].
  destruct p as [|p].
  - injection Hp as ->. rewrite Ho, Ht in E. discriminate.
  - eapply IH; eauto.
Qed.

Lemma same_timestamp_text row d t :
  dict_get "Timestamp" d = VStr t ->
  same_timestamp date_text header row d = true
  <-> record_get (L "Timestamp") header row = Some t.
Proof.
  intros Hd. unfold same_timestamp. rewrite Hd.
  destruct (record_get (L "Timestamp") header row) as [s|].
  - rewrite str_eqb_true. split; congruence.
  - split; discriminate.
Qed.

Variable body : list (list str).
Variable records : list dict.
Hypothesis records_text :
  Forall (fun d => exists t, dict_get "Timestamp" d = VStr t) records.
Hypothesis records_distinct : List.NoDup (map (dict_get "Timestamp") records).
Hypothesis rows_distinct : distinct_timestamps user_id header body.

Lemma first_pos_exact d p row :
  In d records ->
  body !! p = Some row ->
  owned_by user_id header row = true ->
  same_timestamp date_text header row d = true ->
  first_pos date_text user_id header d 2 body = Some (2 + p)%nat.
Proof.
  intros Hin Hp Ho Ht.
  destruct (first_pos_finds d body 2 p row Hp Ho Ht) as [n Hn].
  rewrite Hn. f_equal.
  apply first_pos_some in Hn as (p' & row' & -> & Hp' & Ho' & Ht').
  rewrite List.Forall_forall in records_text.
  destruct (records_text d Hin) as [t Hd].
  apply (same_timestamp_text _ _ _ Hd) in Ht, Ht'.
  f_equal. apply (rows_distinct p' p row' row); auto. congruence.
Qed.

Lemma found_rows_named p row :
  body !! p = Some row ->
  In (2 + p)%nat
     (omap (fun d => first_pos date_text user_id header d 2 body) records)
  <-> named_by date_text user_id header records row = true.
Proof.
  intros Hp. unfold named_by.
  rewrite andb_true_iff, existsb_exists, <- list_elem_of_In, list_elem_of_omap.
  split.
  - intros (d & Hd & Hf). apply list_elem_of_In in Hd.
    apply first_pos_some in Hf as (p' & row' & E & Hp' & Ho & Ht).
    assert (p' = p) by lia. subst p'.
    rewrite Hp in Hp'. injection Hp' as <-. eauto.
  - intros (Ho & d & Hd & Ht). exists d.
    split; [now apply list_elem_of_In|]. now apply first_pos_exact with row.
Qed.

Lemma found_rows_distinct :
  List.NoDup
    (omap (fun d => first_pos date_text user_id header d 2 body) records).
Proof.
  clear rows_distinct.
  induction records as [|d rs IH]; simpl; [constructor|].
  apply List.Forall_cons_iff in records_text as [[t Hd] Hrs].
  apply List.NoDup_cons_iff in records_distinct as [Hnotin Hnd].
  specialize (IH Hrs Hnd).
  destruct (first_pos date_text user_id header d 2 body) as [n|] eqn:Ef;
    [|exact IH].
  constructor; [|exact IH].
  intros Hin. apply list_elem_of_In, list_elem_of_omap in Hin
    as (d' & Hd' & Ef').
  apply list_elem_of_In in Hd'.
  apply first_pos_some in Ef as (p & row & -> & Hp & _ & Ht).
  apply first_pos_some in Ef' as (p' & row' & E & Hp' & _ & Ht').
  assert (p' = p) by lia. subst p'.
  rewrite Hp in Hp'. injection Hp' as <-.
  rewrite List.Forall_forall in Hrs. destruct (Hrs d' Hd') as [t' Hd''].
  apply (same_timestamp_text _ _ _ Hd) in Ht.
  apply (same_timestamp_text _ _ _ Hd'') in Ht'.
  apply Hnotin. apply in_map_iff. exists d'. split; [|exact Hd'].
  congruence.
Qed.

Lemma found_rows_bounds :
  Forall (fun n => (2 <= n <= length (header :: body))%nat)
    (omap (fun d => first_pos date_text user_id header d 2 body) records).
Proof.
  apply List.Forall_forall. intros n Hn.
  apply list_elem_of_In, list_elem_of_omap in Hn as (d & _ & Hf).
  apply first_pos_some in Hf as (p & row & -> & Hp & _).
  apply lookup_lt_Some in Hp. simpl. lia.
Qed.

Lemma confirm_delete_date_rows (ud : user_data) :
  ud !! "records_to_delete" = Some (VList (map VDict records)) ->
  exists removed,
    confirm_delete_callback date_text true (L "confirm_delete_date") user_id
      (header :: body) ud
    = Ok (pop_all ["delete_state"; "start_date"; "records_to_delete"] ud,
          header
            :: List.filter
                 (fun row => negb (named_by date_text user_id header records row))
                 body,
          removed)
    /\ length removed
       = length (List.filter (named_by date_text user_id header records) body).
Proof.
  intros Hud.
  set (found := omap (fun d => first_pos date_text user_id header d 2 body)
                     records).
  assert (Hsorted : StronglySorted (fun a b => (b < a)%nat)
                      (sorted_desc Nat.ltb found)).
  { apply sorted_desc_nat_sorted, found_rows_distinct. }
  assert (Hbounds : Forall (fun n => (1 <= n <= length (header :: body))%nat)
                      (sorted_desc Nat.ltb found)).
  { apply List.Forall_forall. intros n Hn.
    apply (proj1 (sorted_desc_nat_In _ _)) in Hn.
    pose proof found_rows_bounds as Hb. rewrite List.Forall_forall in Hb.
    specialize (Hb n Hn). lia. }
  destruct (delete_loop_sorted _ (header :: body) [] Hsorted Hbounds)
    as (removed & Hdel & Hlen).
  exists removed. split.
  - unfold confirm_delete_callback.
    assert (index (py_split (L "_") (L "confirm_delete_date")) 2 = Ok (L "date"))
      as -> by reflexivity.
    cbn [bind negb].
    assert (str_eqb (L "date") (L "all") = false) as ->
      by (apply bool_decide_eq_false; discriminate).
    rewrite str_eqb_refl.
    unfold confirm_delete_date. rewrite Hud.
    cbn [index lookup list_lookup bind py_iter drop].
    rewrite rows_of_records_dicts. cbn [bind]. rewrite drop_0. fold found.
    rewrite Hdel. cbn [bind fst snd]. do 3 f_equal.
    cbn [without_rows].
    assert (existsb (Nat.eqb 1) (sorted_desc Nat.ltb found) = false) as ->.
    { destruct (existsb _ _) eqn:E; [|reflexivity].
      apply (proj1 (existsb_eqb_In _ _)) in E.
      apply (proj1 (sorted_desc_nat_In _ _)) in E.
      pose proof found_rows_bounds as Hb. rewrite List.Forall_forall in Hb.
      specialize (Hb 1%nat E). lia. }
    f_equal. apply without_rows_filter. intros p row Hp.
    apply Bool.eq_iff_eq_true.
    rewrite existsb_eqb_In, sorted_desc_nat_In.
    now apply found_rows_named.
  - rewrite Hlen. simpl.
    assert (length (sorted_desc Nat.ltb found) = length found) as ->.
    { clear. induction found as [|x l IH]; simpl; [reflexivity|].
      rewrite <- IH. generalize (sorted_desc Nat.ltb l). intros m.
      induction m as [|y m IHm]; simpl; [reflexivity|].
      destruct (x <? y)%nat; simpl; [now rewrite IHm|reflexivity]. }
    (* as many rows found as rows named *)
    assert (Hcount : forall (b : list (list str)) i,
               (forall p row, b !! p = Some row ->
                              In (i + p)%nat found
                              <-> named_by date_text user_id header records row
                                  = true) ->
               length (List.filter (fun n => (i <=? n)%nat && (n <? i + length b)%nat) found)
               = length (List.filter (named_by date_text user_id header records) b)).
    { pose proof found_rows_distinct as Hnd. fold found in Hnd.
      clearbody found. clear -Hnd.
      induction b as [|row b IH] using rev_ind; intros i H.
      - simpl. rewrite Nat.add_0_r.
        induction found as [|n l IHl]; simpl; [reflexivity|].
        apply List.NoDup_cons_iff in Hnd as [_ Hnd].
        destruct (Nat.leb_spec i n), (Nat.ltb_spec n i); simpl; try lia;
          now apply IHl.
      - rewrite List.filter_app, !length_app. simpl.
        rewrite <- (IH i).
        2:{ intros p r Hp. apply H. rewrite lookup_app_l; [exact Hp|].
            now apply lookup_lt_Some in Hp. }
        specialize (H (length b) row).
        rewrite lookup_app_r, Nat.sub_diag in H by lia.
        specialize (H eq_refl).
        assert (Hsplit : forall l : list nat, List.NoDup l ->
                   length (List.filter
                             (fun n => (i <=? n)%nat && (n <? i + (length b + 1))%nat) l)
                   = (length (List.filter
                                (fun n => (i <=? n)%nat && (n <? i + length b)%nat) l)
                      + (if existsb (Nat.eqb (i + length b)) l then 1 else 0))%nat).
        { clear. induction 1 as [|n l Hn _ IHl]; [reflexivity|].
          cbn [List.filter existsb].
          destruct (Nat.eq_dec n (i + length b)%nat) as [->|Hne].
          - assert ((i <=? i + length b)%nat = true) as ->
              by (apply Nat.leb_le; lia).
            assert ((i + length b <? i + (length b + 1))%nat = true) as ->
              by (apply Nat.ltb_lt; lia).
            assert ((i + length b <? i + length b)%nat = false) as ->
              by (apply Nat.ltb_ge; lia).
            rewrite Nat.eqb_refl. cbn [andb orb length]. rewrite IHl.
            destruct (existsb (Nat.eqb (i + length b)) l) eqn:E; [|lia].
            apply existsb_eqb_In in E. contradiction.
          - assert (((n <? i + (length b + 1))%nat) = ((n <? i + length b)%nat)) as ->.
            { apply Bool.eq_iff_eq_true. rewrite !Nat.ltb_lt. lia. }
            assert ((i + length b =? n)%nat = false) as ->
              by (apply Nat.eqb_neq; lia).
            cbn [orb].
            destruct ((i <=? n)%nat && (n <? i + length b)%nat); cbn [length];
              rewrite IHl; lia. }
        rewrite (Hsplit found Hnd).
        destruct (named_by date_text user_id header records row).
        + assert (existsb (Nat.eqb (i + length b)) found = true) as ->
            by (apply existsb_eqb_In; now apply H).
          reflexivity.
        + destruct (existsb (Nat.eqb (i + length b)) found) eqn:E;
            [|reflexivity].
          apply existsb_eqb_In in E. apply H in E. discriminate. }
    rewrite <- (Hcount body 2%nat) by (intros p row Hp; now apply found_rows_named).
    f_equal. symmetry. apply forallb_filter_id.
    apply forallb_forall. intros n Hn.
    pose proof found_rows_bounds as Hb. fold found in Hb.
    rewrite List.Forall_forall in Hb. specialize (Hb n Hn). simpl in Hb.
    apply andb_true_iff. split; [apply Nat.leb_le|apply Nat.ltb_lt]; lia.
Qed.
End DeleteByDateFacts.



(** ** The figures of the report *)

Lemma fold_left_sum {A} (f : A -> Qc) l : forall a,
  fold_left (fun acc x => (acc + f x)%Qc) l a
  = (a + fold_left (fun acc x => (acc + f x)%Qc) l (Q2Qc 0))%Qc.
Proof.
  induction l as [|x l IH]; intros a; simpl; [ring|].
  rewrite IH, (IH (Q2Qc 0 + f x)%Qc). ring.
Qed.

Lemma total_income_cons record user_records :
  total_income (record :: user_records)
  = ((if Qc_ltb (Q2Qc 0) (e_amount record) then e_amount record else Q2Qc 0)
     + total_income user_records)%Qc.
Proof.
  unfold total_income. cbn [List.filter].
  destruct (Qc_ltb (Q2Qc 0) (e_amount record)); cbn [fold_left].
  - rewrite fold_left_sum. ring.
  - ring.
Qed.

Lemma total_expense_cons record user_records :
  total_expense (record :: user_records)
  = ((if Qc_ltb (e_amount record) (Q2Qc 0)
      then Qc_abs (e_amount record) else Q2Qc 0)
     + total_expense user_records)%Qc.
Proof.
  unfold total_expense. cbn [List.filter].
  destruct (Qc_ltb (e_amount record) (Q2Qc 0)); cbn [fold_left].
  - rewrite (fold_left_sum (fun r => Qc_abs (e_amount r))). ring.
  - ring.
Qed.

Lemma signed_parts (q : Qc) :
  ((if Qc_ltb (Q2Qc 0) q then q else Q2Qc 0)
   - (if Qc_ltb q (Q2Qc 0) then Qc_abs q else Q2Qc 0))%Qc = q.
Proof.
  unfold Qc_ltb, Qc_abs.
  destruct (Qclt_le_dec (Q2Qc 0) q) as [Hp|Hp],
           (Qclt_le_dec q (Q2Qc 0)) as [Hn|Hn].
  - exfalso. exact (Qclt_not_le _ _ Hp (Qclt_le_weak _ _ Hn)).
  - ring.
  - ring.
  - assert (q = Q2Qc 0) as -> by (now apply Qcle_antisym). ring.
Qed.

Lemma total_of_add_to category amount d :
  total_of (add_to category amount d) = (total_of d + amount)%Qc.
Proof.
  unfold add_to. destruct (has_key category d) eqn:E.
  - now apply total_of_update.
  - rewrite total_of_app. simpl. ring.
Qed.

Lemma keys_add_to category amount d :
  List.NoDup (map fst d) -> List.NoDup (map fst (add_to category amount d)).
Proof.
  intros H. unfold add_to. destruct (has_key category d) eqn:E.
  - now rewrite update_keys.
  - rewrite map_app. simpl.
    apply NoDup_ListNoDup, NoDup_app. repeat split.
    + now apply NoDup_ListNoDup.
    + intros k Hk Hk'. apply list_elem_of_singleton in Hk'. subst k.
      apply list_elem_of_In in Hk. rewrite has_key_keys in E.
      assert (existsb (str_eqb category) (map fst d) = true) as E'.
      { apply existsb_exists. exists category.
        split; [exact Hk|apply str_eqb_refl]. }
      congruence.
    + apply NoDup_singleton.
Qed.

Lemma by_category_totals user_records : forall b,
  let b' := fold_left add_record user_records b in
  total_of (expense_by_category b')
  = (total_of (expense_by_category b) + total_expense user_records)%Qc
  /\ total_of (income_by_category b')
     = (total_of (income_by_category b) + total_income user_records)%Qc
  /\ (List.NoDup (map fst (expense_by_category b)) ->
      List.NoDup (map fst (expense_by_category b')))
  /\ (List.NoDup (map fst (income_by_category b)) ->
      List.NoDup (map fst (income_by_category b'))).
Proof.
  induction user_records as [|record rs IH]; intros b; cbn [fold_left].
  - unfold total_expense, total_income. simpl.
    repeat split; auto; ring.
  - destruct (IH (add_record b record)) as (He & Hi & Hke & Hki).
    cbv zeta. rewrite He, Hi, total_income_cons, total_expense_cons.
    unfold add_record in *.
    destruct (Qc_ltb (e_amount record) (Q2Qc 0)) eqn:En;
      cbn [expense_by_category income_by_category] in *.
    + assert (Qc_ltb (Q2Qc 0) (e_amount record) = false) as ->.
      { unfold Qc_ltb in *.
        destruct (Qclt_le_dec (e_amount record) (Q2Qc 0)) as [Hn|];
          [|discriminate].
        destruct (Qclt_le_dec (Q2Qc 0) (e_amount record)) as [Hp|];
          [|reflexivity].
        exfalso. exact (Qclt_not_le _ _ Hp (Qclt_le_weak _ _ Hn)). }
      rewrite total_of_add_to.
      repeat split; auto; try ring.
      intros H. apply Hke. now apply keys_add_to.
    + rewrite total_of_add_to.
      assert ((if Qc_ltb (Q2Qc 0) (e_amount record)
               then e_amount record else Q2Qc 0) = e_amount record) as ->.
      { unfold Qc_ltb in *.
        destruct (Qclt_le_dec (e_amount record) (Q2Qc 0)) as [|Hn];
          [discriminate|].
        destruct (Qclt_le_dec (Q2Qc 0) (e_amount record)) as [|Hp];
          [reflexivity|].
        now apply Qcle_antisym. }
      repeat split; auto; try ring.
      intros H. apply Hki. now apply keys_add_to.
Qed.

(** X27: the figures of the report add up, for whole amounts whose
    absolute values add up to less than [2^53] (the sums of floats are
    then exact).  The balance is the sum of the amounts of the user's
    records; the expenses by category add up to the total of the
    expenses and the incomes by category to the total of the incomes;
    no category is listed twice. *)
Theorem report_figures_add_up (user_records : list entry) :
  exact_records user_records ->
  balance user_records = sum_of_amounts user_records
  /\ total_of (expense_by_category (by_category user_records))
     = total_expense user_records
  /\ total_of (income_by_category (by_category user_records))
     = total_income user_records
  /\ List.NoDup (map fst (expense_by_category (by_category user_records)))
  /\ List.NoDup (map fst (income_by_category (by_category user_records))).
Proof.
  intros _. split.
  - unfold balance. induction user_records as [|record rs IH].
    + unfold total_income, total_expense. simpl. ring.
    + rewrite total_income_cons, total_expense_cons. cbn [sum_of_amounts foldr].
      fold (sum_of_amounts rs). rewrite <- IH.
      pose proof (signed_parts (e_amount record)) as Hs. revert Hs.
      generalize (if Qc_ltb (Q2Qc 0) (e_amount record)
                  then e_amount record else Q2Qc 0).
      generalize (if Qc_ltb (e_amount record) (Q2Qc 0)
                  then Qc_abs (e_amount record) else Q2Qc 0).
      intros n p Hs. rewrite <- Hs. ring.
  - unfold by_category.
    destruct (by_category_totals user_records
                {| expense_by_category := []; income_by_category := [] |})
      as (He & Hi & Hke & Hki).
    cbv zeta in *. cbn [expense_by_category income_by_category] in *.
    rewrite He, Hi. simpl.
    repeat split; try ring; [apply Hke|apply Hki]; constructor.
Qed.

Lemma report_figures_add_up_witness :
  let user_records :=
    [ {| e_amount := Q2Qc 5000000; e_category := L "Gaji" |};
      {| e_amount := Q2Qc (-20000); e_category := L "Makanan" |};
      {| e_amount := Q2Qc (-5000); e_category := L "Makanan" |} ] in
  exact_records user_records
  /\ balance user_records = sum_of_amounts user_records
  /\ total_of (expense_by_category (by_category user_records))
     = total_expense user_records.
Proof.
  intros user_records.
  assert (H : exact_records user_records).
  { split.
    - repeat constructor.
      + exists 5000000. apply Qc_is_canon. reflexivity.
      + exists (-20000). apply Qc_is_canon. reflexivity.
      + exists (-5000). apply Qc_is_canon. reflexivity.
    - reflexivity. }
  split; [exact H|].
  destruct (report_figures_add_up user_records H) as (Hb & He & _).
  split; [exact Hb|exact He].
Defined.
